(** * ClipForge GPU effect compositor: shallow embedding and verification

    Embeds the GPU core of the editor (app/src/main/cpp/gpu):
    - [gpu_effect.{h,cpp}]        the parameter model and [GPUEffect::apply];
    - [effects/*.cpp]             the custom-uniform hooks of the concrete effects;
    - [shader_program.cpp]        [use] and [setUniform] with the location cache;
    - [opengl_context.cpp]        framebuffer and texture primitives;
    - [gpu_renderer.{h,cpp}]      the ordered effect chain and the render entry points.

    The OpenGL ES 3.0 / EGL driver is not part of the repository; it is
    modelled in [Module GL] as a state machine over object tables, with an
    event log of the draw and clear commands that were executed. *)

From Stdlib Require Import ZArith QArith Reals Lra.
From stdpp Require Import gmap strings list fin_maps.

Local Open Scope Z_scope.

(** ** C++ [float]

    The code computes on IEEE binary32 values.  The development is generic
    in the arithmetic: every definition below only uses the operations of
    this interface, so a statement proved for all instances holds whatever
    the rounding behaviour is.  [real_float] is the idealised instance over
    the real numbers, used to evaluate the code on concrete inputs. *)
Class FloatOps (F : Type) := {
  f_lit : Q -> F;            (* a decimal literal such as [180.0f] *)
  f_of_int : Z -> F;         (* implicit conversion int -> float *)
  f_to_int : F -> Z;         (* static_cast<int> *)
  f_add : F -> F -> F;
  f_sub : F -> F -> F;
  f_mul : F -> F -> F;
  f_div : F -> F -> F;
  f_ltb : F -> F -> bool;    (* operator< *)
  f_cos : F -> F;
  f_sin : F -> F;
}.

Definition Rltb (x y : R) : bool := if Rlt_dec x y then true else false.

#[export] Instance real_float : FloatOps R := {|
  f_lit := Q2R;
  f_of_int := IZR;
  f_to_int := fun x => if Rlt_dec x 0 then (up x)%Z else (up x - 1)%Z;
  f_add := Rplus;
  f_sub := Rminus;
  f_mul := Rmult;
  f_div := Rdiv;
  f_ltb := Rltb;
  f_cos := cos;
  f_sin := sin;
|}.



Abbreviation GLuint := N.
Abbreviation GLint := Z.

Section Model.
Context {F : Type} {fops : FloatOps F}.

(** [glm::min], [glm::max] and [glm::clamp] as GLM defines them for scalars
    (func_common.inl): [min(x,y) = (y < x) ? y : x], [max(x,y) = (x < y) ? y : x],
    [clamp(x,lo,hi) = min(max(x,lo),hi)]. *)
Definition glm_min (x y : F) : F := if f_ltb y x then y else x.
Definition glm_max (x y : F) : F := if f_ltb x y then y else x.
Definition glm_clamp (x minVal maxVal : F) : F := glm_min (glm_max x minVal) maxVal.

(** ** The OpenGL ES 3.0 driver (external to the repository)

    Object names are [GLuint]s, [0] being the reserved "no object" name.
    Generating a name and creating its object are merged, which is
    equivalent for this code: every [glGen*] is followed by the matching
    [glBind*].  As in OpenGL ES, binding an unused non-zero framebuffer,
    texture or renderbuffer name creates the object.  Pixel contents,
    texture filtering parameters and vertex data are not modelled. *)
Inductive UniformValue :=
| U1i (v : Z)            (* glUniform1i *)
| U1f (x : F)            (* glUniform1f *)
| U2f (x y : F).         (* glUniform2f *)

Record GLTexture := { tex_size : option (Z * Z) }.
Record GLRenderbuffer := { rb_size : option (Z * Z) }.
Record GLFramebuffer := { fb_color : GLuint; fb_depth : GLuint }.

(** A linked program: its active uniforms by name, and the value currently
    stored at each active location. *)
Record GLProgram := {
  prog_locations : gmap string Z;
  prog_uniforms : gmap Z UniformValue;
}.

(** What one executed [glDrawArrays] saw. *)
Record DrawCall := {
  dc_program : GLuint;
  dc_uniforms : gmap Z UniformValue;
  dc_textures : gmap N GLuint;        (* texture bound to each unit *)
  dc_framebuffer : GLuint;
  dc_color : GLuint;                  (* colour attachment drawn into, 0 = the surface *)
  dc_viewport : Z * Z * Z * Z;
  dc_vertex_array : GLuint;
}.

Inductive GLEvent :=
| EvDraw (d : DrawCall)
| EvClear (fbo : GLuint) (attachment : GLuint) (color : F * F * F * F).

Inductive GLStatus :=
| GL_FRAMEBUFFER_COMPLETE
| GL_FRAMEBUFFER_INCOMPLETE_ATTACHMENT
| GL_FRAMEBUFFER_INCOMPLETE_MISSING_ATTACHMENT.

Record GLState := {
  gl_framebuffers : gmap N GLFramebuffer;
  gl_textures : gmap N GLTexture;
  gl_renderbuffers : gmap N GLRenderbuffer;
  gl_programs : gmap N GLProgram;
  gl_vertex_arrays : gset N;
  gl_buffers : gset N;
  gl_framebuffer_binding : GLuint;
  gl_active_texture : N;
  gl_texture_binding : gmap N GLuint;
  gl_renderbuffer_binding : GLuint;
  gl_current_program : GLuint;
  gl_vertex_array_binding : GLuint;
  gl_viewport : Z * Z * Z * Z;
  gl_clear_color : F * F * F * F;
  gl_events : list GLEvent;            (* most recent first *)
}.

Definition set_framebuffers (f : gmap N GLFramebuffer -> gmap N GLFramebuffer) (s : GLState) : GLState :=
  {| gl_framebuffers := f (gl_framebuffers s); gl_textures := gl_textures s;
     gl_renderbuffers := gl_renderbuffers s; gl_programs := gl_programs s;
     gl_vertex_arrays := gl_vertex_arrays s; gl_buffers := gl_buffers s;
     gl_framebuffer_binding := gl_framebuffer_binding s; gl_active_texture := gl_active_texture s;
     gl_texture_binding := gl_texture_binding s; gl_renderbuffer_binding := gl_renderbuffer_binding s;
     gl_current_program := gl_current_program s; gl_vertex_array_binding := gl_vertex_array_binding s;
     gl_viewport := gl_viewport s; gl_clear_color := gl_clear_color s; gl_events := gl_events s |}.

Definition set_textures (f : gmap N GLTexture -> gmap N GLTexture) (s : GLState) : GLState :=
  {| gl_framebuffers := gl_framebuffers s; gl_textures := f (gl_textures s);
     gl_renderbuffers := gl_renderbuffers s; gl_programs := gl_programs s;
     gl_vertex_arrays := gl_vertex_arrays s; gl_buffers := gl_buffers s;
     gl_framebuffer_binding := gl_framebuffer_binding s; gl_active_texture := gl_active_texture s;
     gl_texture_binding := gl_texture_binding s; gl_renderbuffer_binding := gl_renderbuffer_binding s;
     gl_current_program := gl_current_program s; gl_vertex_array_binding := gl_vertex_array_binding s;
     gl_viewport := gl_viewport s; gl_clear_color := gl_clear_color s; gl_events := gl_events s |}.

Definition set_renderbuffers (f : gmap N GLRenderbuffer -> gmap N GLRenderbuffer) (s : GLState) : GLState :=
  {| gl_framebuffers := gl_framebuffers s; gl_textures := gl_textures s;
     gl_renderbuffers := f (gl_renderbuffers s); gl_programs := gl_programs s;
     gl_vertex_arrays := gl_vertex_arrays s; gl_buffers := gl_buffers s;
     gl_framebuffer_binding := gl_framebuffer_binding s; gl_active_texture := gl_active_texture s;
     gl_texture_binding := gl_texture_binding s; gl_renderbuffer_binding := gl_renderbuffer_binding s;
     gl_current_program := gl_current_program s; gl_vertex_array_binding := gl_vertex_array_binding s;
     gl_viewport := gl_viewport s; gl_clear_color := gl_clear_color s; gl_events := gl_events s |}.

Definition set_programs (f : gmap N GLProgram -> gmap N GLProgram) (s : GLState) : GLState :=
  {| gl_framebuffers := gl_framebuffers s; gl_textures := gl_textures s;
     gl_renderbuffers := gl_renderbuffers s; gl_programs := f (gl_programs s);
     gl_vertex_arrays := gl_vertex_arrays s; gl_buffers := gl_buffers s;
     gl_framebuffer_binding := gl_framebuffer_binding s; gl_active_texture := gl_active_texture s;
     gl_texture_binding := gl_texture_binding s; gl_renderbuffer_binding := gl_renderbuffer_binding s;
     gl_current_program := gl_current_program s; gl_vertex_array_binding := gl_vertex_array_binding s;
     gl_viewport := gl_viewport s; gl_clear_color := gl_clear_color s; gl_events := gl_events s |}.

Definition set_vertex_arrays (f : gset N -> gset N) (s : GLState) : GLState :=
  {| gl_framebuffers := gl_framebuffers s; gl_textures := gl_textures s;
     gl_renderbuffers := gl_renderbuffers s; gl_programs := gl_programs s;
     gl_vertex_arrays := f (gl_vertex_arrays s); gl_buffers := gl_buffers s;
     gl_framebuffer_binding := gl_framebuffer_binding s; gl_active_texture := gl_active_texture s;
     gl_texture_binding := gl_texture_binding s; gl_renderbuffer_binding := gl_renderbuffer_binding s;
     gl_current_program := gl_current_program s; gl_vertex_array_binding := gl_vertex_array_binding s;
     gl_viewport := gl_viewport s; gl_clear_color := gl_clear_color s; gl_events := gl_events s |}.

Definition set_buffers (f : gset N -> gset N) (s : GLState) : GLState :=
  {| gl_framebuffers := gl_framebuffers s; gl_textures := gl_textures s;
     gl_renderbuffers := gl_renderbuffers s; gl_programs := gl_programs s;
     gl_vertex_arrays := gl_vertex_arrays s; gl_buffers := f (gl_buffers s);
     gl_framebuffer_binding := gl_framebuffer_binding s; gl_active_texture := gl_active_texture s;
     gl_texture_binding := gl_texture_binding s; gl_renderbuffer_binding := gl_renderbuffer_binding s;
     gl_current_program := gl_current_program s; gl_vertex_array_binding := gl_vertex_array_binding s;
     gl_viewport := gl_viewport s; gl_clear_color := gl_clear_color s; gl_events := gl_events s |}.

Definition set_framebuffer_binding (b : GLuint) (s : GLState) : GLState :=
  {| gl_framebuffers := gl_framebuffers s; gl_textures := gl_textures s;
     gl_renderbuffers := gl_renderbuffers s; gl_programs := gl_programs s;
     gl_vertex_arrays := gl_vertex_arrays s; gl_buffers := gl_buffers s;
     gl_framebuffer_binding := b; gl_active_texture := gl_active_texture s;
     gl_texture_binding := gl_texture_binding s; gl_renderbuffer_binding := gl_renderbuffer_binding s;
     gl_current_program := gl_current_program s; gl_vertex_array_binding := gl_vertex_array_binding s;
     gl_viewport := gl_viewport s; gl_clear_color := gl_clear_color s; gl_events := gl_events s |}.

Definition set_active_texture (u : N) (s : GLState) : GLState :=
  {| gl_framebuffers := gl_framebuffers s; gl_textures := gl_textures s;
     gl_renderbuffers := gl_renderbuffers s; gl_programs := gl_programs s;
     gl_vertex_arrays := gl_vertex_arrays s; gl_buffers := gl_buffers s;
     gl_framebuffer_binding := gl_framebuffer_binding s; gl_active_texture := u;
     gl_texture_binding := gl_texture_binding s; gl_renderbuffer_binding := gl_renderbuffer_binding s;
     gl_current_program := gl_current_program s; gl_vertex_array_binding := gl_vertex_array_binding s;
     gl_viewport := gl_viewport s; gl_clear_color := gl_clear_color s; gl_events := gl_events s |}.

Definition set_texture_binding (f : gmap N GLuint -> gmap N GLuint) (s : GLState) : GLState :=
  {| gl_framebuffers := gl_framebuffers s; gl_textures := gl_textures s;
     gl_renderbuffers := gl_renderbuffers s; gl_programs := gl_programs s;
     gl_vertex_arrays := gl_vertex_arrays s; gl_buffers := gl_buffers s;
     gl_framebuffer_binding := gl_framebuffer_binding s; gl_active_texture := gl_active_texture s;
     gl_texture_binding := f (gl_texture_binding s); gl_renderbuffer_binding := gl_renderbuffer_binding s;
     gl_current_program := gl_current_program s; gl_vertex_array_binding := gl_vertex_array_binding s;
     gl_viewport := gl_viewport s; gl_clear_color := gl_clear_color s; gl_events := gl_events s |}.

Definition set_renderbuffer_binding (b : GLuint) (s : GLState) : GLState :=
  {| gl_framebuffers := gl_framebuffers s; gl_textures := gl_textures s;
     gl_renderbuffers := gl_renderbuffers s; gl_programs := gl_programs s;
     gl_vertex_arrays := gl_vertex_arrays s; gl_buffers := gl_buffers s;
     gl_framebuffer_binding := gl_framebuffer_binding s; gl_active_texture := gl_active_texture s;
     gl_texture_binding := gl_texture_binding s; gl_renderbuffer_binding := b;
     gl_current_program := gl_current_program s; gl_vertex_array_binding := gl_vertex_array_binding s;
     gl_viewport := gl_viewport s; gl_clear_color := gl_clear_color s; gl_events := gl_events s |}.

Definition set_current_program (p : GLuint) (s : GLState) : GLState :=
  {| gl_framebuffers := gl_framebuffers s; gl_textures := gl_textures s;
     gl_renderbuffers := gl_renderbuffers s; gl_programs := gl_programs s;
     gl_vertex_arrays := gl_vertex_arrays s; gl_buffers := gl_buffers s;
     gl_framebuffer_binding := gl_framebuffer_binding s; gl_active_texture := gl_active_texture s;
     gl_texture_binding := gl_texture_binding s; gl_renderbuffer_binding := gl_renderbuffer_binding s;
     gl_current_program := p; gl_vertex_array_binding := gl_vertex_array_binding s;
     gl_viewport := gl_viewport s; gl_clear_color := gl_clear_color s; gl_events := gl_events s |}.

Definition set_vertex_array_binding (v : GLuint) (s : GLState) : GLState :=
  {| gl_framebuffers := gl_framebuffers s; gl_textures := gl_textures s;
     gl_renderbuffers := gl_renderbuffers s; gl_programs := gl_programs s;
     gl_vertex_arrays := gl_vertex_arrays s; gl_buffers := gl_buffers s;
     gl_framebuffer_binding := gl_framebuffer_binding s; gl_active_texture := gl_active_texture s;
     gl_texture_binding := gl_texture_binding s; gl_renderbuffer_binding := gl_renderbuffer_binding s;
     gl_current_program := gl_current_program s; gl_vertex_array_binding := v;
     gl_viewport := gl_viewport s; gl_clear_color := gl_clear_color s; gl_events := gl_events s |}.

Definition set_viewport (v : Z * Z * Z * Z) (s : GLState) : GLState :=
  {| gl_framebuffers := gl_framebuffers s; gl_textures := gl_textures s;
     gl_renderbuffers := gl_renderbuffers s; gl_programs := gl_programs s;
     gl_vertex_arrays := gl_vertex_arrays s; gl_buffers := gl_buffers s;
     gl_framebuffer_binding := gl_framebuffer_binding s; gl_active_texture := gl_active_texture s;
     gl_texture_binding := gl_texture_binding s; gl_renderbuffer_binding := gl_renderbuffer_binding s;
     gl_current_program := gl_current_program s; gl_vertex_array_binding := gl_vertex_array_binding s;
     gl_viewport := v; gl_clear_color := gl_clear_color s; gl_events := gl_events s |}.

Definition set_clear_color (c : F * F * F * F) (s : GLState) : GLState :=
  {| gl_framebuffers := gl_framebuffers s; gl_textures := gl_textures s;
     gl_renderbuffers := gl_renderbuffers s; gl_programs := gl_programs s;
     gl_vertex_arrays := gl_vertex_arrays s; gl_buffers := gl_buffers s;
     gl_framebuffer_binding := gl_framebuffer_binding s; gl_active_texture := gl_active_texture s;
     gl_texture_binding := gl_texture_binding s; gl_renderbuffer_binding := gl_renderbuffer_binding s;
     gl_current_program := gl_current_program s; gl_vertex_array_binding := gl_vertex_array_binding s;
     gl_viewport := gl_viewport s; gl_clear_color := c; gl_events := gl_events s |}.

Definition set_events (f : list GLEvent -> list GLEvent) (s : GLState) : GLState :=
  {| gl_framebuffers := gl_framebuffers s; gl_textures := gl_textures s;
     gl_renderbuffers := gl_renderbuffers s; gl_programs := gl_programs s;
     gl_vertex_arrays := gl_vertex_arrays s; gl_buffers := gl_buffers s;
     gl_framebuffer_binding := gl_framebuffer_binding s; gl_active_texture := gl_active_texture s;
     gl_texture_binding := gl_texture_binding s; gl_renderbuffer_binding := gl_renderbuffer_binding s;
     gl_current_program := gl_current_program s; gl_vertex_array_binding := gl_vertex_array_binding s;
     gl_viewport := gl_viewport s; gl_clear_color := gl_clear_color s; gl_events := f (gl_events s) |}.

(** *** Object names

    Every command below is written as a composition of field updates, with
    the error checks of the command inside the update. *)

(** [glGen*] returns a name that is not in use and is not [0]. *)
Definition gen_name (used : gset N) : GLuint := fresh ({[0%N]} ∪ used).

Definition glGenFramebuffers (s : GLState) : GLuint * GLState :=
  let n := gen_name (dom (gl_framebuffers s)) in
  (n, set_framebuffers <[n := {| fb_color := 0; fb_depth := 0 |}]> s).

Definition glGenTextures (s : GLState) : GLuint * GLState :=
  let n := gen_name (dom (gl_textures s)) in
  (n, set_textures <[n := {| tex_size := None |}]> s).

Definition glGenRenderbuffers (s : GLState) : GLuint * GLState :=
  let n := gen_name (dom (gl_renderbuffers s)) in
  (n, set_renderbuffers <[n := {| rb_size := None |}]> s).

Definition glGenVertexArrays (s : GLState) : GLuint * GLState :=
  let n := gen_name (gl_vertex_arrays s) in
  (n, set_vertex_arrays (fun vs => {[n]} ∪ vs) s).

Definition glGenBuffers (s : GLState) : GLuint * GLState :=
  let n := gen_name (gl_buffers s) in
  (n, set_buffers (fun bs => {[n]} ∪ bs) s).

(** *** Binding *)

(** The object table after a name was bound: an unused non-zero name gets
    a new object [fresh_obj]. *)
Definition ensure_object {A} (name : GLuint) (fresh_obj : A) (m : gmap N A) : gmap N A :=
  if decide (name = 0%N) then m
  else match m !! name with
       | Some _ => m
       | None => <[name := fresh_obj]> m
       end.

Definition glBindFramebuffer (fbo : GLuint) (s : GLState) : GLState :=
  set_framebuffer_binding fbo
    (set_framebuffers (ensure_object fbo {| fb_color := 0; fb_depth := 0 |}) s).

Definition glActiveTexture (unit : N) (s : GLState) : GLState :=
  set_active_texture unit s.

Definition glBindTexture (tex : GLuint) (s : GLState) : GLState :=
  set_texture_binding <[gl_active_texture s := tex]>
    (set_textures (ensure_object tex {| tex_size := None |}) s).

Definition glBindRenderbuffer (rb : GLuint) (s : GLState) : GLState :=
  set_renderbuffer_binding rb
    (set_renderbuffers (ensure_object rb {| rb_size := None |}) s).

(** Vertex array names must come from [glGenVertexArrays]; binding another
    name is an error and changes nothing. *)
Definition glBindVertexArray (vao : GLuint) (s : GLState) : GLState :=
  set_vertex_array_binding
    (if decide (vao = 0%N ∨ vao ∈ gl_vertex_arrays s) then vao else gl_vertex_array_binding s) s.

(** The texture bound to the active unit ([0] when none). *)
Definition bound_texture (s : GLState) : GLuint :=
  default 0%N (gl_texture_binding s !! gl_active_texture s).

(** *** Storage and attachments *)

(** [glTexImage2D(GL_TEXTURE_2D, 0, fmt, width, height, 0, fmt, GL_UNSIGNED_BYTE, nullptr)]:
    a negative size is GL_INVALID_VALUE and leaves the texture as it was. *)
Definition glTexImage2D (width height : Z) (s : GLState) : GLState :=
  set_textures
    (fun ts => if decide (width < 0 ∨ height < 0) then ts
               else alter (fun _ => {| tex_size := Some (width, height) |}) (bound_texture s) ts) s.

Definition glRenderbufferStorage (width height : Z) (s : GLState) : GLState :=
  set_renderbuffers
    (fun rs => if decide (width < 0 ∨ height < 0) then rs
               else alter (fun _ => {| rb_size := Some (width, height) |})
                          (gl_renderbuffer_binding s) rs) s.

(** [glFramebufferTexture2D(GL_FRAMEBUFFER, GL_COLOR_ATTACHMENT0, GL_TEXTURE_2D, tex, 0)]:
    attaching a name that is not a texture is GL_INVALID_OPERATION. *)
Definition glFramebufferTexture2D (tex : GLuint) (s : GLState) : GLState :=
  set_framebuffers
    (fun fs => if decide (tex = 0%N ∨ is_Some (gl_textures s !! tex))
               then alter (fun fb => {| fb_color := tex; fb_depth := fb_depth fb |})
                          (gl_framebuffer_binding s) fs
               else fs) s.

(** [glFramebufferRenderbuffer(GL_FRAMEBUFFER, GL_DEPTH_ATTACHMENT, GL_RENDERBUFFER, rb)]. *)
Definition glFramebufferRenderbuffer (rb : GLuint) (s : GLState) : GLState :=
  set_framebuffers
    (fun fs => if decide (rb = 0%N ∨ is_Some (gl_renderbuffers s !! rb))
               then alter (fun fb => {| fb_color := fb_color fb; fb_depth := rb |})
                          (gl_framebuffer_binding s) fs
               else fs) s.

Definition positive_size (o : option (Z * Z)) : bool :=
  match o with
  | Some (w, h) => bool_decide (0 < w) && bool_decide (0 < h)
  | None => false
  end.

(** Framebuffer completeness (OpenGL ES 3.0, section 4.4.4): every attached
    image must exist and have non-zero width and height, and there must be
    at least one attachment.  The default framebuffer [0] is complete. *)
Definition framebuffer_status (s : GLState) (fbo : GLuint) : GLStatus :=
  if decide (fbo = 0%N) then GL_FRAMEBUFFER_COMPLETE
  else match gl_framebuffers s !! fbo with
       | None => GL_FRAMEBUFFER_INCOMPLETE_MISSING_ATTACHMENT
       | Some fb =>
           let color_ok :=
             if decide (fb_color fb = 0%N) then true
             else match gl_textures s !! fb_color fb with
                  | Some t => positive_size (tex_size t)
                  | None => false
                  end in
           let depth_ok :=
             if decide (fb_depth fb = 0%N) then true
             else match gl_renderbuffers s !! fb_depth fb with
                  | Some r => positive_size (rb_size r)
                  | None => false
                  end in
           if negb (color_ok && depth_ok) then GL_FRAMEBUFFER_INCOMPLETE_ATTACHMENT
           else if decide (fb_color fb = 0%N ∧ fb_depth fb = 0%N)
                then GL_FRAMEBUFFER_INCOMPLETE_MISSING_ATTACHMENT
                else GL_FRAMEBUFFER_COMPLETE
       end.

Definition glCheckFramebufferStatus (s : GLState) : GLStatus :=
  framebuffer_status s (gl_framebuffer_binding s).

Definition is_complete (st : GLStatus) : bool :=
  match st with GL_FRAMEBUFFER_COMPLETE => true | _ => false end.

(** The colour attachment of the bound framebuffer, [0] for the default
    framebuffer (the platform surface). *)
Definition color_attachment (s : GLState) : GLuint :=
  match gl_framebuffers s !! gl_framebuffer_binding s with
  | Some fb => fb_color fb
  | None => 0%N
  end.

(** [glGetFramebufferAttachmentParameteriv(GL_FRAMEBUFFER, GL_COLOR_ATTACHMENT0,
    GL_FRAMEBUFFER_ATTACHMENT_OBJECT_NAME, &name)].  On the default
    framebuffer the query is an error and writes nothing. *)
Definition glGetFramebufferAttachmentObjectName (s : GLState) : option GLuint :=
  fb_color <$> (gl_framebuffers s !! gl_framebuffer_binding s).

(** *** Deletion: the name becomes unused, and the object is unbound from
    the current context state (bindings, and attachments of the bound
    framebuffer).  Unused names are silently ignored; so is [0], which
    names no object in any table. *)

Definition glDeleteFramebuffers (fbo : GLuint) (s : GLState) : GLState :=
  set_framebuffer_binding
    (if decide (gl_framebuffer_binding s = fbo) then 0%N else gl_framebuffer_binding s)
    (set_framebuffers (delete fbo) s).

(** Attachments of the bound framebuffer; the default framebuffer has none. *)
Definition alter_bound_framebuffer (f : GLFramebuffer -> GLFramebuffer) (s : GLState)
  : gmap N GLFramebuffer -> gmap N GLFramebuffer :=
  fun fs => if decide (gl_framebuffer_binding s = 0%N) then fs
            else alter f (gl_framebuffer_binding s) fs.

Definition glDeleteTextures (tex : GLuint) (s : GLState) : GLState :=
  set_framebuffers
    (alter_bound_framebuffer
       (fun fb => {| fb_color := if decide (fb_color fb = tex) then 0%N else fb_color fb;
                     fb_depth := fb_depth fb |}) s)
    (set_texture_binding (fmap (fun b => if decide (b = tex) then 0%N else b))
       (set_textures (delete tex) s)).

Definition glDeleteRenderbuffers (rb : GLuint) (s : GLState) : GLState :=
  set_framebuffers
    (alter_bound_framebuffer
       (fun fb => {| fb_color := fb_color fb;
                     fb_depth := if decide (fb_depth fb = rb) then 0%N else fb_depth fb |}) s)
    (set_renderbuffer_binding
       (if decide (gl_renderbuffer_binding s = rb) then 0%N else gl_renderbuffer_binding s)
       (set_renderbuffers (delete rb) s)).

(** *** Programs and uniforms *)

(** Using a name that is not a program is an error and changes nothing. *)
Definition glUseProgram (p : GLuint) (s : GLState) : GLState :=
  set_current_program
    (if decide (p = 0%N ∨ is_Some (gl_programs s !! p)) then p else gl_current_program s) s.

Definition glGetUniformLocation (s : GLState) (p : GLuint) (name : string) : GLint :=
  match gl_programs s !! p with
  | Some pr => default (-1) (prog_locations pr !! name)
  | None => -1
  end.

(** The uniform store of a program after writing [v] at [location]:
    location [-1] is silently ignored, a location the program does not
    have is an error. *)
Definition write_uniform (location : GLint) (v : UniformValue) (pr : GLProgram) : GLProgram :=
  {| prog_locations := prog_locations pr;
     prog_uniforms :=
       if decide (location = -1) then prog_uniforms pr
       else match prog_uniforms pr !! location with
            | Some _ => <[location := v]> (prog_uniforms pr)
            | None => prog_uniforms pr
            end |}.

(** [glUniform1i/1f/2f(location, v)] on the program in use. *)
Definition glUniform (location : GLint) (v : UniformValue) (s : GLState) : GLState :=
  set_programs (alter (write_uniform location v) (gl_current_program s)) s.

(** *** Rasterisation state and commands *)

Definition glViewport (x y width height : Z) (s : GLState) : GLState :=
  set_viewport (if decide (width < 0 ∨ height < 0) then gl_viewport s
                else (x, y, width, height)) s.

Definition glClearColor (r g b a : F) (s : GLState) : GLState :=
  set_clear_color (r, g, b, a) s.

(** [glClear(GL_COLOR_BUFFER_BIT | GL_DEPTH_BUFFER_BIT)]: fills the bound
    framebuffer with the clear colour, unless it is incomplete. *)
Definition glClear (s : GLState) : GLState :=
  set_events
    (fun evs => if is_complete (glCheckFramebufferStatus s)
                then EvClear (gl_framebuffer_binding s) (color_attachment s) (gl_clear_color s)
                     :: evs
                else evs) s.

(** [glDrawArrays(GL_TRIANGLE_STRIP, 0, 4)]: executes only with a program
    in use and a complete draw framebuffer. *)
Definition glDrawArrays (s : GLState) : GLState :=
  set_events
    (fun evs =>
       match gl_programs s !! gl_current_program s with
       | Some pr =>
           if is_complete (glCheckFramebufferStatus s) then
             EvDraw {| dc_program := gl_current_program s;
                       dc_uniforms := prog_uniforms pr;
                       dc_textures := gl_texture_binding s;
                       dc_framebuffer := gl_framebuffer_binding s;
                       dc_color := color_attachment s;
                       dc_viewport := gl_viewport s;
                       dc_vertex_array := gl_vertex_array_binding s |} :: evs
           else evs
       | None => evs
       end) s.

(** ** ShaderProgram (shader_program.{h,cpp})

    [m_programId] is [0] until a link succeeded.  [m_uniformLocations] is
    the [mutable] location cache filled by [getCachedUniformLocation]. *)
Record ShaderProgram := {
  m_programId : GLuint;
  m_uniformLocations : gmap string GLint;
}.

Definition isValid (sp : ShaderProgram) : bool := negb (m_programId sp =? 0)%N.

Definition use (sp : ShaderProgram) (gl : GLState) : GLState :=
  if negb (m_programId sp =? 0)%N then glUseProgram (m_programId sp) gl else gl.

Definition getUniformLocation (sp : ShaderProgram) (gl : GLState) (name : string) : GLint :=
  glGetUniformLocation gl (m_programId sp) name.

Definition cacheUniformLocation (sp : ShaderProgram) (name : string) (location : GLint)
  : ShaderProgram :=
  {| m_programId := m_programId sp;
     m_uniformLocations := <[name := location]> (m_uniformLocations sp) |}.

Definition getCachedUniformLocation (sp : ShaderProgram) (gl : GLState) (name : string)
  : GLint * ShaderProgram :=
  match m_uniformLocations sp !! name with
  | Some location => (location, sp)
  | None =>
      let location := getUniformLocation sp gl name in
      (location, cacheUniformLocation sp name location)
  end.

(** The [int], [float] and [glm::vec2] overloads of [setUniform], told
    apart by the constructor of the value. *)
Definition setUniform (sp : ShaderProgram) (name : string) (value : UniformValue) (gl : GLState)
  : ShaderProgram * GLState :=
  let '(location, sp) := getCachedUniformLocation sp gl name in
  if decide (location ≠ -1) then (sp, glUniform location value gl) else (sp, gl).

(** ** GPUEffect (gpu_effect.{h,cpp}) *)

Inductive EffectCategory :=
| COLOR | DISTORTION | BLUR | LIGHT | ARTISTIC | TEMPORAL | COMPOSITE.

Record EffectParameter := {
  ep_name : string;
  ep_uniformName : string;
  ep_defaultValue : F;
  ep_minValue : F;
  ep_maxValue : F;
  ep_type : string;
}.

(** The dynamic type of an effect object, with the members the subclass
    adds to the base class. *)
Inductive EffectKind :=
| KBase
| KColorGrade (m_lutTexture : GLuint)
| KCurves (m_curveTexture : GLuint)
| KHSL
| KGaussianBlur
| KVignette
| KGlow
| KChromaticAberration
| KGlitch (m_time : F)
| KPosterize
| KInvert
| KGrayscale.

(** [m_shader] is a [shared_ptr]; [None] is the null pointer.  The program
    object is kept by value: the only state it carries besides the program
    name is the location cache. *)
Record GPUEffect := {
  m_name : string;
  m_category : EffectCategory;
  m_shader : option ShaderProgram;
  m_parameters : gmap string F;
  m_parameterDefinitions : gmap string EffectParameter;
  m_intensity : F;
  m_enabled : bool;
  m_kind : EffectKind;
}.

Definition set_parameters (f : gmap string F -> gmap string F) (e : GPUEffect) : GPUEffect :=
  {| m_name := m_name e; m_category := m_category e; m_shader := m_shader e;
     m_parameters := f (m_parameters e); m_parameterDefinitions := m_parameterDefinitions e;
     m_intensity := m_intensity e; m_enabled := m_enabled e; m_kind := m_kind e |}.

Definition set_parameterDefinitions
  (f : gmap string EffectParameter -> gmap string EffectParameter) (e : GPUEffect) : GPUEffect :=
  {| m_name := m_name e; m_category := m_category e; m_shader := m_shader e;
     m_parameters := m_parameters e; m_parameterDefinitions := f (m_parameterDefinitions e);
     m_intensity := m_intensity e; m_enabled := m_enabled e; m_kind := m_kind e |}.

Definition set_shader (sp : option ShaderProgram) (e : GPUEffect) : GPUEffect :=
  {| m_name := m_name e; m_category := m_category e; m_shader := sp;
     m_parameters := m_parameters e; m_parameterDefinitions := m_parameterDefinitions e;
     m_intensity := m_intensity e; m_enabled := m_enabled e; m_kind := m_kind e |}.

Definition set_kind (k : EffectKind) (e : GPUEffect) : GPUEffect :=
  {| m_name := m_name e; m_category := m_category e; m_shader := m_shader e;
     m_parameters := m_parameters e; m_parameterDefinitions := m_parameterDefinitions e;
     m_intensity := m_intensity e; m_enabled := m_enabled e; m_kind := k |}.

(** [GPUEffect::GPUEffect(name, category, shader)], with the default member
    initialisers [m_intensity = 1.0f] and [m_enabled = true]. *)
Definition GPUEffect_new (name : string) (category : EffectCategory)
  (shader : option ShaderProgram) : GPUEffect :=
  {| m_name := name; m_category := category; m_shader := shader;
     m_parameters := ∅; m_parameterDefinitions := ∅;
     m_intensity := f_lit 1; m_enabled := true; m_kind := KBase |}.

Definition getName (e : GPUEffect) : string := m_name e.

Definition isAvailable (e : GPUEffect) : bool :=
  match m_shader e with
  | Some sp => isValid sp
  | None => false
  end.

Definition isEnabled (e : GPUEffect) : bool := m_enabled e.

Definition setEnabled (enabled : bool) (e : GPUEffect) : GPUEffect :=
  {| m_name := m_name e; m_category := m_category e; m_shader := m_shader e;
     m_parameters := m_parameters e; m_parameterDefinitions := m_parameterDefinitions e;
     m_intensity := m_intensity e; m_enabled := enabled; m_kind := m_kind e |}.

Definition getIntensity (e : GPUEffect) : F := m_intensity e.

Definition setIntensity (intensity : F) (e : GPUEffect) : GPUEffect :=
  {| m_name := m_name e; m_category := m_category e; m_shader := m_shader e;
     m_parameters := m_parameters e; m_parameterDefinitions := m_parameterDefinitions e;
     m_intensity := glm_clamp intensity (f_lit 0) (f_lit 1);
     m_enabled := m_enabled e; m_kind := m_kind e |}.

Definition defineParameter (name uniformName : string) (defaultVal minVal maxVal : F)
  (type : string) (e : GPUEffect) : GPUEffect :=
  let param := {| ep_name := name; ep_uniformName := uniformName;
                  ep_defaultValue := defaultVal; ep_minValue := minVal;
                  ep_maxValue := maxVal; ep_type := type |} in
  set_parameters <[name := defaultVal]> (set_parameterDefinitions <[name := param]> e).

(** [setParameter] returns its [bool] and the updated object. *)
Definition setParameter (paramName : string) (value : F) (e : GPUEffect) : bool * GPUEffect :=
  match m_parameterDefinitions e !! paramName with
  | Some def =>
      let clampedValue := glm_clamp value (ep_minValue def) (ep_maxValue def) in
      (true, set_parameters <[paramName := clampedValue]> e)
  | None => (false, e)
  end.

Definition getParameter (e : GPUEffect) (paramName : string) : F :=
  match m_parameters e !! paramName with
  | Some v => v
  | None => f_lit 0
  end.

Definition resetParameters (e : GPUEffect) : GPUEffect :=
  set_parameters
    (fun ps => map_fold (fun name def acc => <[name := ep_defaultValue def]> acc) ps
                        (m_parameterDefinitions e)) e.

(** *** Concrete effects (effects/*.cpp): constructors

    Every constructor passes [nullptr] as the shader. *)
Definition ColorGradeEffect_new : GPUEffect :=
  defineParameter "tint" "uTint" (f_lit 0.5) (f_lit 0) (f_lit 1) "float"
  (defineParameter "temperature" "uTemperature" (f_lit 0.5) (f_lit 0) (f_lit 1) "float"
  (defineParameter "intensity" "uIntensity" (f_lit 1) (f_lit 0) (f_lit 1) "float"
  (set_kind (KColorGrade 0) (GPUEffect_new "ColorGrade" COLOR None)))).

Definition CurvesEffect_new : GPUEffect :=
  defineParameter "luminanceMidtone" "uLuminanceMidtone" (f_lit 0.5) (f_lit 0) (f_lit 1) "float"
  (defineParameter "blueMidtone" "uBlueMidtone" (f_lit 0.5) (f_lit 0) (f_lit 1) "float"
  (defineParameter "greenMidtone" "uGreenMidtone" (f_lit 0.5) (f_lit 0) (f_lit 1) "float"
  (defineParameter "redMidtone" "uRedMidtone" (f_lit 0.5) (f_lit 0) (f_lit 1) "float"
  (defineParameter "intensity" "uIntensity" (f_lit 1) (f_lit 0) (f_lit 1) "float"
  (set_kind (KCurves 0) (GPUEffect_new "Curves" COLOR None)))))).

Definition HSLEffect_new : GPUEffect :=
  defineParameter "lightness" "uLightness" (f_lit 0.5) (f_lit 0) (f_lit 1) "float"
  (defineParameter "saturation" "uSaturation" (f_lit 0.5) (f_lit 0) (f_lit 1) "float"
  (defineParameter "hue" "uHue" (f_lit 0.5) (f_lit 0) (f_lit 1) "float"
  (defineParameter "intensity" "uIntensity" (f_lit 1) (f_lit 0) (f_lit 1) "float"
  (set_kind KHSL (GPUEffect_new "HSL" COLOR None))))).

Definition GaussianBlurEffect_new : GPUEffect :=
  defineParameter "radius" "uRadius" (f_lit 5) (f_lit 0.5) (f_lit 50) "float"
  (defineParameter "intensity" "uIntensity" (f_lit 1) (f_lit 0) (f_lit 1) "float"
  (set_kind KGaussianBlur (GPUEffect_new "GaussianBlur" BLUR None))).

Definition VignetteEffect_new : GPUEffect :=
  defineParameter "softness" "uSoftness" (f_lit 0.3) (f_lit 0) (f_lit 1) "float"
  (defineParameter "radius" "uRadius" (f_lit 0.5) (f_lit 0.2) (f_lit 1) "float"
  (defineParameter "intensity" "uIntensity" (f_lit 0.5) (f_lit 0) (f_lit 1) "float"
  (set_kind KVignette (GPUEffect_new "Vignette" LIGHT None)))).

Definition GlowEffect_new : GPUEffect :=
  defineParameter "spread" "uSpread" (f_lit 0.3) (f_lit 0) (f_lit 1) "float"
  (defineParameter "threshold" "uThreshold" (f_lit 0.5) (f_lit 0) (f_lit 1) "float"
  (defineParameter "intensity" "uIntensity" (f_lit 0.5) (f_lit 0) (f_lit 1) "float"
  (set_kind KGlow (GPUEffect_new "Glow" LIGHT None)))).

Definition ChromaticAberrationEffect_new : GPUEffect :=
  defineParameter "direction" "uDirection" (f_lit 0) (f_lit 0) (f_lit 360) "float"
  (defineParameter "amount" "uAmount" (f_lit 0.3) (f_lit 0) (f_lit 1) "float"
  (defineParameter "intensity" "uIntensity" (f_lit 0.5) (f_lit 0) (f_lit 1) "float"
  (set_kind KChromaticAberration (GPUEffect_new "ChromaticAberration" DISTORTION None)))).

Definition GlitchEffect_new : GPUEffect :=
  defineParameter "frequency" "uFrequency" (f_lit 0.5) (f_lit 0) (f_lit 1) "float"
  (defineParameter "amount" "uAmount" (f_lit 0.3) (f_lit 0) (f_lit 1) "float"
  (defineParameter "intensity" "uIntensity" (f_lit 0.5) (f_lit 0) (f_lit 1) "float"
  (set_kind (KGlitch (f_lit 0)) (GPUEffect_new "Glitch" DISTORTION None)))).

Definition PosterizeEffect_new : GPUEffect :=
  defineParameter "levels" "uLevels" (f_lit 128) (f_lit 2) (f_lit 256) "float"
  (defineParameter "intensity" "uIntensity" (f_lit 1) (f_lit 0) (f_lit 1) "float"
  (set_kind KPosterize (GPUEffect_new "Posterize" ARTISTIC None))).

Definition InvertEffect_new : GPUEffect :=
  defineParameter "intensity" "uIntensity" (f_lit 1) (f_lit 0) (f_lit 1) "float"
  (set_kind KInvert (GPUEffect_new "Invert" ARTISTIC None)).

Definition GrayscaleEffect_new : GPUEffect :=
  defineParameter "intensity" "uIntensity" (f_lit 1) (f_lit 0) (f_lit 1) "float"
  (set_kind KGrayscale (GPUEffect_new "Grayscale" ARTISTIC None)).

(** *** Custom-uniform hooks

    A hook runs on the effect object and the driver state; it returns the
    object because [setUniform] fills the location cache of its shader.
    [eff_setUniform] is [m_shader->setUniform(name, value)]; the hooks and
    [apply] only reach it behind a null check of [m_shader]. *)
Definition eff_setUniform (name : string) (value : UniformValue) (e : GPUEffect) (gl : GLState)
  : GPUEffect * GLState :=
  match m_shader e with
  | Some sp => let '(sp, gl) := setUniform sp name value gl in (set_shader (Some sp) e, gl)
  | None => (e, gl)
  end.

Definition GPUEffect_applyCustomUniforms (e : GPUEffect) (inputTexture : GLuint)
  (width height : Z) (gl : GLState) : GPUEffect * GLState :=
  (e, gl).

Definition ColorGradeEffect_applyCustomUniforms (m_lutTexture : GLuint) (e : GPUEffect)
  (inputTexture : GLuint) (width height : Z) (gl : GLState) : GPUEffect * GLState :=
  match m_shader e with
  | None => (e, gl)
  | Some _ =>
      let '(e, gl) :=
        if negb (m_lutTexture =? 0)%N
        then eff_setUniform "uLUT" (U1i 1) e (glBindTexture m_lutTexture (glActiveTexture 1 gl))
        else (e, gl) in
      let '(e, gl) := eff_setUniform "uTemperature" (U1f (getParameter e "temperature")) e gl in
      eff_setUniform "uTint" (U1f (getParameter e "tint")) e gl
  end.

Definition CurvesEffect_applyCustomUniforms (m_curveTexture : GLuint) (e : GPUEffect)
  (inputTexture : GLuint) (width height : Z) (gl : GLState) : GPUEffect * GLState :=
  match m_shader e with
  | None => (e, gl)
  | Some _ =>
      let '(e, gl) :=
        if negb (m_curveTexture =? 0)%N
        then eff_setUniform "uCurveTexture" (U1i 1) e
               (glBindTexture m_curveTexture (glActiveTexture 1 gl))
        else (e, gl) in
      let '(e, gl) := eff_setUniform "uRedMidtone" (U1f (getParameter e "redMidtone")) e gl in
      let '(e, gl) := eff_setUniform "uGreenMidtone" (U1f (getParameter e "greenMidtone")) e gl in
      let '(e, gl) := eff_setUniform "uBlueMidtone" (U1f (getParameter e "blueMidtone")) e gl in
      eff_setUniform "uLuminanceMidtone" (U1f (getParameter e "luminanceMidtone")) e gl
  end.

Definition HSLEffect_applyCustomUniforms (e : GPUEffect)
  (inputTexture : GLuint) (width height : Z) (gl : GLState) : GPUEffect * GLState :=
  match m_shader e with
  | None => (e, gl)
  | Some _ =>
      let hueParam := getParameter e "hue" in
      let saturationParam := getParameter e "saturation" in
      let lightnessParam := getParameter e "lightness" in
      let hue := f_mul (f_sub (f_mul hueParam (f_lit 2)) (f_lit 1)) (f_lit 180) in
      let saturation := f_sub (f_mul saturationParam (f_lit 2)) (f_lit 1) in
      let lightness := f_sub (f_mul lightnessParam (f_lit 2)) (f_lit 1) in
      let '(e, gl) := eff_setUniform "uHue" (U1f hue) e gl in
      let '(e, gl) := eff_setUniform "uSaturation" (U1f saturation) e gl in
      eff_setUniform "uLightness" (U1f lightness) e gl
  end.

Definition GaussianBlurEffect_applyCustomUniforms (e : GPUEffect)
  (inputTexture : GLuint) (width height : Z) (gl : GLState) : GPUEffect * GLState :=
  match m_shader e with
  | None => (e, gl)
  | Some _ =>
      let texelWidth := f_div (f_lit 1) (f_of_int width) in
      let texelHeight := f_div (f_lit 1) (f_of_int height) in
      let '(e, gl) := eff_setUniform "uTexelSize" (U2f texelWidth texelHeight) e gl in
      eff_setUniform "uRadius" (U1f (getParameter e "radius")) e gl
  end.

Definition VignetteEffect_applyCustomUniforms (e : GPUEffect)
  (inputTexture : GLuint) (width height : Z) (gl : GLState) : GPUEffect * GLState :=
  match m_shader e with
  | None => (e, gl)
  | Some _ =>
      let '(e, gl) := eff_setUniform "uRadius" (U1f (getParameter e "radius")) e gl in
      let softness := getParameter e "softness" in
      eff_setUniform "uIntensity" (U1f (f_mul (m_intensity e) softness)) e gl
  end.

Definition GlowEffect_applyCustomUniforms (e : GPUEffect)
  (inputTexture : GLuint) (width height : Z) (gl : GLState) : GPUEffect * GLState :=
  match m_shader e with
  | None => (e, gl)
  | Some _ =>
      let threshold := getParameter e "threshold" in
      let spread := getParameter e "spread" in
      let '(e, gl) := eff_setUniform "uThreshold" (U1f threshold) e gl in
      eff_setUniform "uIntensity"
        (U1f (f_mul (m_intensity e) (f_add (f_lit 1) (f_mul spread (f_lit 2))))) e gl
  end.

Definition ChromaticAberrationEffect_applyCustomUniforms (e : GPUEffect)
  (inputTexture : GLuint) (width height : Z) (gl : GLState) : GPUEffect * GLState :=
  match m_shader e with
  | None => (e, gl)
  | Some _ =>
      let amount := getParameter e "amount" in
      let direction := f_div (f_mul (getParameter e "direction") (f_lit 3.14159)) (f_lit 180) in
      let offset_x := f_mul (f_mul (f_cos direction) amount) (f_lit 0.02) in
      let offset_y := f_mul (f_mul (f_sin direction) amount) (f_lit 0.02) in
      eff_setUniform "uOffset" (U2f offset_x offset_y) e gl
  end.

Definition GlitchEffect_applyCustomUniforms (m_time : F) (e : GPUEffect)
  (inputTexture : GLuint) (width height : Z) (gl : GLState) : GPUEffect * GLState :=
  match m_shader e with
  | None => (e, gl)
  | Some _ =>
      let '(e, gl) := eff_setUniform "uAmount" (U1f (getParameter e "amount")) e gl in
      let '(e, gl) := eff_setUniform "uFrequency" (U1f (getParameter e "frequency")) e gl in
      eff_setUniform "uTime" (U1f m_time) e gl
  end.

Definition PosterizeEffect_applyCustomUniforms (e : GPUEffect)
  (inputTexture : GLuint) (width height : Z) (gl : GLState) : GPUEffect * GLState :=
  match m_shader e with
  | None => (e, gl)
  | Some _ =>
      let levels := getParameter e "levels" in
      eff_setUniform "uLevels" (U1f levels) e gl
  end.

Definition InvertEffect_applyCustomUniforms (e : GPUEffect)
  (inputTexture : GLuint) (width height : Z) (gl : GLState) : GPUEffect * GLState :=
  (e, gl).

Definition GrayscaleEffect_applyCustomUniforms (e : GPUEffect)
  (inputTexture : GLuint) (width height : Z) (gl : GLState) : GPUEffect * GLState :=
  (e, gl).

(** Virtual dispatch of [applyCustomUniforms] on the dynamic type. *)
Definition applyCustomUniforms (e : GPUEffect) (inputTexture : GLuint) (width height : Z)
  (gl : GLState) : GPUEffect * GLState :=
  match m_kind e with
  | KBase => GPUEffect_applyCustomUniforms e inputTexture width height gl
  | KColorGrade lut => ColorGradeEffect_applyCustomUniforms lut e inputTexture width height gl
  | KCurves curve => CurvesEffect_applyCustomUniforms curve e inputTexture width height gl
  | KHSL => HSLEffect_applyCustomUniforms e inputTexture width height gl
  | KGaussianBlur => GaussianBlurEffect_applyCustomUniforms e inputTexture width height gl
  | KVignette => VignetteEffect_applyCustomUniforms e inputTexture width height gl
  | KGlow => GlowEffect_applyCustomUniforms e inputTexture width height gl
  | KChromaticAberration =>
      ChromaticAberrationEffect_applyCustomUniforms e inputTexture width height gl
  | KGlitch time => GlitchEffect_applyCustomUniforms time e inputTexture width height gl
  | KPosterize => PosterizeEffect_applyCustomUniforms e inputTexture width height gl
  | KInvert => InvertEffect_applyCustomUniforms e inputTexture width height gl
  | KGrayscale => GrayscaleEffect_applyCustomUniforms e inputTexture width height gl
  end.

(** ** Process state outside the objects

    [World] gathers what the methods reach besides their object: the driver
    state, the static quad members of [GPUEffect], and the EGL surface and
    context current on the calling thread ([0] = none).

    [w_apply_log] is a ghost trace and no code reads it: [GPUEffect::apply]
    records each of its calls there (effect name, input texture, output
    framebuffer), most recent first, so that statements can speak about
    what was passed to [apply]. *)
Record QuadStatics := {
  s_quadVAO : GLuint;
  s_quadVBO : GLuint;
  s_quadInitialized : bool;
}.

Record World := {
  w_gl : GLState;
  w_quad : QuadStatics;
  w_current : N * N;          (* EGL surface, EGL context *)
  w_apply_log : list (string * GLuint * GLuint);
}.

Definition on_gl (f : GLState -> GLState) (w : World) : World :=
  {| w_gl := f (w_gl w); w_quad := w_quad w; w_current := w_current w;
     w_apply_log := w_apply_log w |}.

Definition log_apply (name : string) (inputTexture outputFramebuffer : GLuint) (w : World)
  : World :=
  {| w_gl := w_gl w; w_quad := w_quad w; w_current := w_current w;
     w_apply_log := (name, inputTexture, outputFramebuffer) :: w_apply_log w |}.

Definition set_gl (gl : GLState) (w : World) : World := on_gl (fun _ => gl) w.

(** [GPUEffect::initializeQuad]: one vertex array and two buffers; the
    vertex data and attribute layout are not modelled. *)
Definition initializeQuad (w : World) : World :=
  if s_quadInitialized (w_quad w) then w else
  let '(vao, gl) := glGenVertexArrays (w_gl w) in
  let '(vbo, gl) := glGenBuffers gl in
  let '(quadEBO, gl) := glGenBuffers gl in
  let gl := glBindVertexArray vao gl in
  let gl := glBindVertexArray 0 gl in
  {| w_gl := gl;
     w_quad := {| s_quadVAO := vao; s_quadVBO := vbo; s_quadInitialized := true |};
     w_current := w_current w; w_apply_log := w_apply_log w |}.

Definition renderFullscreenQuad (width height : Z) (gl : GLState) : GLState :=
  glDrawArrays gl.

(** [GPUEffect::apply]: the [bool] result, the effect object afterwards and
    the world afterwards. *)
Definition apply (e : GPUEffect) (inputTexture outputFramebuffer : GLuint) (width height : Z)
  (w : World) : bool * GPUEffect * World :=
  let w := log_apply (m_name e) inputTexture outputFramebuffer w in
  if negb (isAvailable e) then (false, e, w)
  else if negb (m_enabled e) then (true, e, w)
  else
    let w := if negb (s_quadInitialized (w_quad w)) then initializeQuad w else w in
    let gl := w_gl w in
    let gl := match m_shader e with Some sp => use sp gl | None => gl end in
    let gl := glBindFramebuffer outputFramebuffer gl in
    let gl := glViewport 0 0 width height gl in
    let gl := glActiveTexture 0 gl in
    let gl := glBindTexture inputTexture gl in
    let '(e, gl) := eff_setUniform "uTexture" (U1i 0) e gl in
    let gl := glBindVertexArray (s_quadVAO (w_quad w)) gl in
    let '(e, gl) := applyCustomUniforms e inputTexture width height gl in
    let '(e, gl) := eff_setUniform "uIntensity" (U1f (m_intensity e)) e gl in
    let gl := renderFullscreenQuad width height gl in
    let gl := glBindVertexArray 0 gl in
    let gl := glBindFramebuffer 0 gl in
    let gl := glBindTexture 0 gl in
    (true, e, set_gl gl w).

(** ** OpenGLContext (opengl_context.{h,cpp})

    [m_eglContext] is the member the source calls [m_context]; it is renamed
    because [GPURenderer] has a member of that name too.  [0] stands for
    EGL_NO_DISPLAY, EGL_NO_CONTEXT and EGL_NO_SURFACE. *)
Record OpenGLContext := {
  m_display : N;
  m_eglContext : N;
  m_surface : N;
  m_width : Z;
  m_height : Z;
}.

Definition ctx_isInitialized (c : OpenGLContext) : bool :=
  negb (m_display c =? 0)%N && negb (m_eglContext c =? 0)%N.

(** [eglMakeCurrent(display, draw, read, context)] with [draw = read]:
    succeeds for a live display with a surface and a context, or with
    neither (release). *)
Definition eglMakeCurrent (display surface context : N) (w : World) : bool * World :=
  if negb (display =? 0)%N
     && (negb (surface =? 0)%N && negb (context =? 0)%N
         || (surface =? 0)%N && (context =? 0)%N)
  then (true, {| w_gl := w_gl w; w_quad := w_quad w; w_current := (surface, context);
                 w_apply_log := w_apply_log w |})
  else (false, w).

Definition makeCurrent (c : OpenGLContext) (w : World) : bool * World :=
  let '(ok, w) := eglMakeCurrent (m_display c) (m_surface c) (m_eglContext c) w in
  if negb ok then (false, w) else (true, w).

Definition releaseContext (c : OpenGLContext) (w : World) : bool * World :=
  let '(ok, w) := eglMakeCurrent (m_display c) 0 0 w in
  if negb ok then (false, w) else (true, w).

Definition createFramebuffer (width height : Z) (colorFormat : N) (gl : GLState)
  : GLuint * GLState :=
  let '(fbo, gl) := glGenFramebuffers gl in
  let gl := glBindFramebuffer fbo gl in
  let '(colorTexture, gl) := glGenTextures gl in
  let gl := glBindTexture colorTexture gl in
  let gl := glTexImage2D width height gl in
  let gl := glFramebufferTexture2D colorTexture gl in
  let '(depthRenderBuffer, gl) := glGenRenderbuffers gl in
  let gl := glBindRenderbuffer depthRenderBuffer gl in
  let gl := glRenderbufferStorage width height gl in
  let gl := glFramebufferRenderbuffer depthRenderBuffer gl in
  let status := glCheckFramebufferStatus gl in
  if negb (is_complete status) then
    let gl := glDeleteFramebuffers fbo gl in
    let gl := glDeleteTextures colorTexture gl in
    let gl := glDeleteRenderbuffers depthRenderBuffer gl in
    (0%N, gl)
  else
    let gl := glBindFramebuffer 0 gl in
    (fbo, gl).

Definition deleteFramebuffer (fbo : GLuint) (gl : GLState) : GLState :=
  if negb (fbo =? 0)%N then glDeleteFramebuffers fbo gl else gl.

(** The [bool] of [bindFramebuffer] reports [glGetError]; the error flag is
    not modelled and the caller modelled here discards the result. *)
Definition bindFramebuffer (fbo : GLuint) (gl : GLState) : GLState :=
  glBindFramebuffer fbo gl.

(** The local [texture] is left uninitialised when the query fails, which
    only happens on the default framebuffer; [0] stands for that value. *)
Definition getFramebufferTexture (fbo : GLuint) (gl : GLState) : GLuint * GLState :=
  let gl := glBindFramebuffer fbo gl in
  let texture := default 0%N (glGetFramebufferAttachmentObjectName gl) in
  let gl := glBindFramebuffer 0 gl in
  (texture, gl).

(** [clearScreen()] with its default arguments r = g = b = 0, a = 1. *)
Definition clearScreen (r g b a : F) (gl : GLState) : GLState :=
  glClear (glClearColor r g b a gl).

(** ** GPURenderer (gpu_renderer.{h,cpp})

    [m_effects] holds [shared_ptr<GPUEffect>]s, kept by value: an effect
    mutated by [apply] is written back under its name.  A null pointer is
    never stored by [addEffect]; it can only appear through
    [m_effects[name]] on a missing name, which the chain dereferences at
    once: that is the [None] result of [applyEffectChain]. *)
Record RenderConfig := {
  renderWidth : Z;
  renderHeight : Z;
  outputWidth : Z;
  outputHeight : Z;
  useMultisampling : bool;
  sampleCount : Z;
  enableCache : bool;
  enableProfiling : bool;
}.

Record RenderStats := {
  gpuTimeMs : F;
  cpuTimeMs : F;
  totalTimeMs : F;
  framesPerSecond : Z;
  gpuMemoryUsedMB : F;
  textureCount : Z;
  framebufferCount : Z;
}.

Record GPURenderer := {
  m_context : option OpenGLContext;
  m_config : RenderConfig;
  m_stats : RenderStats;
  m_effects : gmap string GPUEffect;
  m_effectOrder : list string;
  m_intermediateFramebuffers : list GLuint;
  m_profilingEnabled : bool;
  m_gpuTimeHistory : list F;
  m_cpuTimeHistory : list F;
  m_fpsHistory : list Z;
}.

Definition set_effects (f : gmap string GPUEffect -> gmap string GPUEffect) (r : GPURenderer)
  : GPURenderer :=
  {| m_context := m_context r; m_config := m_config r; m_stats := m_stats r;
     m_effects := f (m_effects r); m_effectOrder := m_effectOrder r;
     m_intermediateFramebuffers := m_intermediateFramebuffers r;
     m_profilingEnabled := m_profilingEnabled r; m_gpuTimeHistory := m_gpuTimeHistory r;
     m_cpuTimeHistory := m_cpuTimeHistory r; m_fpsHistory := m_fpsHistory r |}.

Definition set_effectOrder (f : list string -> list string) (r : GPURenderer) : GPURenderer :=
  {| m_context := m_context r; m_config := m_config r; m_stats := m_stats r;
     m_effects := m_effects r; m_effectOrder := f (m_effectOrder r);
     m_intermediateFramebuffers := m_intermediateFramebuffers r;
     m_profilingEnabled := m_profilingEnabled r; m_gpuTimeHistory := m_gpuTimeHistory r;
     m_cpuTimeHistory := m_cpuTimeHistory r; m_fpsHistory := m_fpsHistory r |}.

Definition set_intermediateFramebuffers (f : list GLuint -> list GLuint) (r : GPURenderer)
  : GPURenderer :=
  {| m_context := m_context r; m_config := m_config r; m_stats := m_stats r;
     m_effects := m_effects r; m_effectOrder := m_effectOrder r;
     m_intermediateFramebuffers := f (m_intermediateFramebuffers r);
     m_profilingEnabled := m_profilingEnabled r; m_gpuTimeHistory := m_gpuTimeHistory r;
     m_cpuTimeHistory := m_cpuTimeHistory r; m_fpsHistory := m_fpsHistory r |}.

Definition set_stats (st : RenderStats) (r : GPURenderer) : GPURenderer :=
  {| m_context := m_context r; m_config := m_config r; m_stats := st;
     m_effects := m_effects r; m_effectOrder := m_effectOrder r;
     m_intermediateFramebuffers := m_intermediateFramebuffers r;
     m_profilingEnabled := m_profilingEnabled r; m_gpuTimeHistory := m_gpuTimeHistory r;
     m_cpuTimeHistory := m_cpuTimeHistory r; m_fpsHistory := m_fpsHistory r |}.

Definition GL_RGBA : N := 6408.

Definition isInitialized (r : GPURenderer) : bool :=
  match m_context r with
  | Some c => ctx_isInitialized c
  | None => false
  end.

(** [effect] is the [shared_ptr] argument, [None] when null. *)
Definition addEffect (effect : option GPUEffect) (r : GPURenderer) : bool * GPURenderer :=
  match effect with
  | None => (false, r)
  | Some e =>
      if negb (String.eqb (getName e) EmptyString) then (false, r)
      else
        let name := getName e in
        match m_effects r !! name with
        | Some _ => (false, r)
        | None => (true, set_effectOrder (fun order => order ++ [name])
                           (set_effects <[name := e]> r))
        end
  end.

(** [std::find] followed by [erase]: drops the first occurrence. *)
Fixpoint erase_first (name : string) (order : list string) : list string :=
  match order with
  | [] => []
  | x :: rest => if String.eqb x name then rest else x :: erase_first name rest
  end.

Definition removeEffect (effectName : string) (r : GPURenderer) : bool * GPURenderer :=
  match m_effects r !! effectName with
  | None => (false, r)
  | Some _ =>
      (true, set_effectOrder (erase_first effectName) (set_effects (delete effectName) r))
  end.

Definition getEffect (r : GPURenderer) (effectName : string) : option GPUEffect :=
  m_effects r !! effectName.

Definition hasEffect (r : GPURenderer) (effectName : string) : bool :=
  bool_decide (is_Some (m_effects r !! effectName)).

Definition getEffectNames (r : GPURenderer) : list string := m_effectOrder r.

Definition clearEffects (r : GPURenderer) : GPURenderer :=
  set_effectOrder (fun _ => []) (set_effects (fun _ => ∅) r).

Definition setEffectEnabled (effectName : string) (enabled : bool) (r : GPURenderer)
  : bool * GPURenderer :=
  match getEffect r effectName with
  | None => (false, r)
  | Some effect => (true, set_effects <[effectName := setEnabled enabled effect]> r)
  end.

Definition createIntermediateFramebuffer (r : GPURenderer) (w : World)
  : GLuint * GPURenderer * World :=
  let '(fbo, gl) := createFramebuffer (renderWidth (m_config r)) (renderHeight (m_config r))
                                      GL_RGBA (w_gl w) in
  let r := if negb (fbo =? 0)%N
           then set_intermediateFramebuffers (fun l => l ++ [fbo]) r else r in
  (fbo, r, set_gl gl w).

(** The body of the [for] loop of [applyEffectChain], by recursion on the
    names still to visit; every [continue] is a recursive call with the
    current texture unchanged. *)
Fixpoint applyEffectChain_loop (names : list string) (currentTexture : GLuint)
  (r : GPURenderer) (w : World) : option (GLuint * GPURenderer * World) :=
  match names with
  | [] => Some (currentTexture, r, w)
  | effectName :: rest =>
      match m_effects r !! effectName with
      | None => None
      | Some effect =>
          if negb (isEnabled effect) then applyEffectChain_loop rest currentTexture r w
          else
            let '(fbo, r, w) := createIntermediateFramebuffer r w in
            if (fbo =? 0)%N then applyEffectChain_loop rest currentTexture r w
            else
              let '(ok, effect, w) :=
                apply effect currentTexture fbo (renderWidth (m_config r))
                      (renderHeight (m_config r)) w in
              let r := set_effects <[effectName := effect]> r in
              if negb ok then
                let w := on_gl (deleteFramebuffer fbo) w in
                applyEffectChain_loop rest currentTexture r w
              else
                let '(texture, gl) := getFramebufferTexture fbo (w_gl w) in
                applyEffectChain_loop rest texture r (set_gl gl w)
      end
  end.

Definition applyEffectChain (r : GPURenderer) (inputTexture : GLuint) (w : World)
  : option (GLuint * GPURenderer * World) :=
  applyEffectChain_loop (m_effectOrder r) inputTexture r w.

Definition beginProfiling (r : GPURenderer) : GPURenderer := r.

Definition f_sum (l : list F) : F := fold_left f_add l (f_lit 0).

Definition updateStatistics (r : GPURenderer) : GPURenderer :=
  let st := m_stats r in
  let gpu := match m_gpuTimeHistory r with
             | [] => gpuTimeMs st
             | h => f_div (f_sum h) (f_of_int (Z.of_nat (length h)))
             end in
  let cpu := match m_cpuTimeHistory r with
             | [] => cpuTimeMs st
             | h => f_div (f_sum h) (f_of_int (Z.of_nat (length h)))
             end in
  let total := f_add gpu cpu in
  let fps := if f_ltb (f_lit 0) total then f_to_int (f_div (f_lit 1000) total)
             else framesPerSecond st in
  set_stats {| gpuTimeMs := gpu; cpuTimeMs := cpu; totalTimeMs := total;
               framesPerSecond := fps; gpuMemoryUsedMB := gpuMemoryUsedMB st;
               textureCount := Z.of_nat (length (m_intermediateFramebuffers r));
               framebufferCount := Z.of_nat (length (m_intermediateFramebuffers r)) |} r.

Definition endProfiling (r : GPURenderer) : GPURenderer := updateStatistics r.

(** [renderFrame]: [None] only when the chain dereferences a null effect. *)
Definition renderFrame (r : GPURenderer) (inputTexture outputFramebuffer : GLuint) (w : World)
  : option (bool * GPURenderer * World) :=
  match m_context r with
  | None => Some (false, r, w)
  | Some c =>
      if negb (isInitialized r) then Some (false, r, w) else
      let r := if m_profilingEnabled r then beginProfiling r else r in
      let '(ok, w) := makeCurrent c w in
      if negb ok then Some (false, r, w) else
      match applyEffectChain r inputTexture w with
      | None => None
      | Some (outputTexture, r, w) =>
          let w := if negb (outputFramebuffer =? 0)%N
                   then on_gl (fun gl => clearScreen (f_lit 0) (f_lit 0) (f_lit 0) (f_lit 1)
                                           (bindFramebuffer outputFramebuffer gl)) w
                   else w in
          let '(_, w) := releaseContext c w in
          let r := if m_profilingEnabled r then endProfiling r else r in
          Some (true, r, w)
      end
  end.

Definition renderToTexture (r : GPURenderer) (inputTexture : GLuint) (w : World)
  : option (GLuint * GPURenderer * World) :=
  match m_context r with
  | None => Some (0%N, r, w)
  | Some c =>
      if negb (isInitialized r) then Some (0%N, r, w) else
      let '(ok, w) := makeCurrent c w in
      if negb ok then Some (0%N, r, w) else
      let '(fbo, r, w) := createIntermediateFramebuffer r w in
      if (fbo =? 0)%N then Some (0%N, r, w) else
      match applyEffectChain r inputTexture w with
      | None => None
      | Some (_, r, w) =>
          let '(outputTexture, gl) := getFramebufferTexture fbo (w_gl w) in
          let w := set_gl gl w in
          let '(_, w) := releaseContext c w in
          Some (outputTexture, r, w)
      end
  end.

(** ** Initial states and reference states used in the statements *)

(** A context right after creation: no objects, nothing bound. *)
Definition gl_fresh_context : GLState :=
  {| gl_framebuffers := ∅; gl_textures := ∅; gl_renderbuffers := ∅; gl_programs := ∅;
     gl_vertex_arrays := ∅; gl_buffers := ∅; gl_framebuffer_binding := 0;
     gl_active_texture := 0; gl_texture_binding := ∅; gl_renderbuffer_binding := 0;
     gl_current_program := 0; gl_vertex_array_binding := 0; gl_viewport := (0, 0, 0, 0);
     gl_clear_color := (f_lit 0, f_lit 0, f_lit 0, f_lit 0); gl_events := [] |}.

Definition world_of (gl : GLState) : World :=
  {| w_gl := gl;
     w_quad := {| s_quadVAO := 0; s_quadVBO := 0; s_quadInitialized := false |};
     w_current := (0%N, 0%N); w_apply_log := [] |}.

(** A linked program with one active [float] uniform, at location 0, and a
    context that holds it under the name [pid]. *)
Definition single_uniform_program (name : string) : GLProgram :=
  {| prog_locations := {[name := 0]}; prog_uniforms := {[0 := U1f (f_lit 0)]} |}.

Definition gl_with_program (pid : GLuint) (pr : GLProgram) : GLState :=
  set_programs (fun _ => {[pid := pr]}) gl_fresh_context.

(** A shader object whose link produced the program [pid]. *)
Definition ShaderProgram_linked (pid : GLuint) : ShaderProgram :=
  {| m_programId := pid; m_uniformLocations := ∅ |}.

(** [GPURenderer::GPURenderer()] with the default member initialisers. *)
Definition GPURenderer_new : GPURenderer :=
  {| m_context := None;
     m_config := {| renderWidth := 1920; renderHeight := 1080; outputWidth := 1920;
                    outputHeight := 1080; useMultisampling := true; sampleCount := 4;
                    enableCache := true; enableProfiling := false |};
     m_stats := {| gpuTimeMs := f_lit 0; cpuTimeMs := f_lit 0; totalTimeMs := f_lit 0;
                   framesPerSecond := 0; gpuMemoryUsedMB := f_lit 0; textureCount := 0;
                   framebufferCount := 0 |};
     m_effects := ∅; m_effectOrder := []; m_intermediateFramebuffers := [];
     m_profilingEnabled := false; m_gpuTimeHistory := []; m_cpuTimeHistory := [];
     m_fpsHistory := [] |}.

(** The driver state after a successful [createFramebuffer]: one new
    framebuffer with a new colour texture and a new depth renderbuffer. *)
Definition framebuffer_created (width height : Z) (gl : GLState) : GLState :=
  let fbo := gen_name (dom (gl_framebuffers gl)) in
  let tex := gen_name (dom (gl_textures gl)) in
  let rb := gen_name (dom (gl_renderbuffers gl)) in
  {| gl_framebuffers := <[fbo := {| fb_color := tex; fb_depth := rb |}]> (gl_framebuffers gl);
     gl_textures := <[tex := {| tex_size := Some (width, height) |}]> (gl_textures gl);
     gl_renderbuffers := <[rb := {| rb_size := Some (width, height) |}]> (gl_renderbuffers gl);
     gl_programs := gl_programs gl;
     gl_vertex_arrays := gl_vertex_arrays gl; gl_buffers := gl_buffers gl;
     gl_framebuffer_binding := 0; gl_active_texture := gl_active_texture gl;
     gl_texture_binding := <[gl_active_texture gl := tex]> (gl_texture_binding gl);
     gl_renderbuffer_binding := rb;
     gl_current_program := gl_current_program gl;
     gl_vertex_array_binding := gl_vertex_array_binding gl;
     gl_viewport := gl_viewport gl; gl_clear_color := gl_clear_color gl;
     gl_events := gl_events gl |}.

(** The driver state after a failed [createFramebuffer]: the object tables
    are those of the start, only bindings moved. *)
Definition framebuffer_rolled_back (gl : GLState) : GLState :=
  let tex := gen_name (dom (gl_textures gl)) in
  {| gl_framebuffers := gl_framebuffers gl;
     gl_textures := gl_textures gl;
     gl_renderbuffers := gl_renderbuffers gl;
     gl_programs := gl_programs gl;
     gl_vertex_arrays := gl_vertex_arrays gl; gl_buffers := gl_buffers gl;
     gl_framebuffer_binding := 0; gl_active_texture := gl_active_texture gl;
     gl_texture_binding :=
       (fun b => if decide (b = tex) then 0%N else b)
         <$> <[gl_active_texture gl := tex]> (gl_texture_binding gl);
     gl_renderbuffer_binding := 0;
     gl_current_program := gl_current_program gl;
     gl_vertex_array_binding := gl_vertex_array_binding gl;
     gl_viewport := gl_viewport gl; gl_clear_color := gl_clear_color gl;
     gl_events := gl_events gl |}.

(** ** Relations used in the statements about the uniform phase *)

(** Two program objects with the same active uniforms. *)
Definition same_shape (a b : GLProgram) : Prop :=
  prog_locations a = prog_locations b ∧ dom (prog_uniforms a) = dom (prog_uniforms b).

Definition same_shape_opt (a b : option GLProgram) : Prop :=
  match a, b with
  | Some x, Some y => same_shape x y
  | None, None => True
  | _, _ => False
  end.

(** What the uniform phase of [apply] (the [setUniform] calls and the hooks)
    leaves alone in the driver. *)
Record hook_frame (s s' : GLState) : Prop := {
  hf_framebuffers : gl_framebuffers s' = gl_framebuffers s;
  hf_renderbuffers : gl_renderbuffers s' = gl_renderbuffers s;
  hf_textures : gl_textures s ⊆ gl_textures s';
  hf_framebuffer_binding : gl_framebuffer_binding s' = gl_framebuffer_binding s;
  hf_current_program : gl_current_program s' = gl_current_program s;
  hf_unit0 : gl_texture_binding s' !! 0%N = gl_texture_binding s !! 0%N;
  hf_vertex_arrays : gl_vertex_arrays s' = gl_vertex_arrays s;
  hf_viewport : gl_viewport s' = gl_viewport s;
  hf_events : gl_events s' = gl_events s;
  hf_programs : forall p, same_shape_opt (gl_programs s !! p) (gl_programs s' !! p);
}.

(** The location cache only holds what the driver answered. *)
Definition cache_sound (gl : GLState) (sp : ShaderProgram) : Prop :=
  forall name l, m_uniformLocations sp !! name = Some l ->
                 l = glGetUniformLocation gl (m_programId sp) name.

(** [e'] is [e] up to the location cache of its shader. *)
Definition effect_frame (e e' : GPUEffect) : Prop :=
  e' = set_shader (m_shader e') e ∧
  m_programId <$> m_shader e' = m_programId <$> m_shader e.

Definition effect_cache_sound (gl : GLState) (e : GPUEffect) : Prop :=
  forall sp, m_shader e = Some sp -> cache_sound gl sp.

(** One step of the uniform phase, on the effect object and the driver. *)
Definition uniform_step (st st' : GPUEffect * GLState) : Prop :=
  effect_frame st.1 st'.1 ∧ hook_frame st.2 st'.2 ∧
  (effect_cache_sound st.2 st.1 -> effect_cache_sound st'.2 st'.1).

(** The value bound to the uniform [name] of program [p], if the program
    has an active uniform of that name. *)
Definition uniform_bound (gl : GLState) (p : GLuint) (name : string)
  : option UniformValue :=
  match gl_programs gl !! p with
  | Some pr =>
      match prog_locations pr !! name with
      | Some loc => prog_uniforms pr !! loc
      | None => None
      end
  | None => None
  end.

(** A linked program: every active uniform has a location of its own,
    different from -1, with storage behind it. *)
Definition program_wf (pr : GLProgram) : Prop :=
  (forall n l, prog_locations pr !! n = Some l -> l ≠ -1 ∧ is_Some (prog_uniforms pr !! l)) ∧
  (forall n1 n2 l, prog_locations pr !! n1 = Some l -> prog_locations pr !! n2 = Some l ->
                   n1 = n2).

(** The effect's shader is the linked program [pid], in use, with a sound
    location cache. *)
Definition render_ready (gl : GLState) (e : GPUEffect) (pid : GLuint) : Prop :=
  exists sp pr, m_shader e = Some sp ∧ m_programId sp = pid ∧
                gl_current_program gl = pid ∧ gl_programs gl !! pid = Some pr ∧
                program_wf pr ∧ cache_sound gl sp.

(** What every command of [apply] leaves alone in the object tables. *)
Record table_frame (s s' : GLState) : Prop := {
  tf_framebuffers : gl_framebuffers s' = gl_framebuffers s;
  tf_renderbuffers : gl_renderbuffers s' = gl_renderbuffers s;
  tf_textures : gl_textures s ⊆ gl_textures s';
  tf_programs : forall p, same_shape_opt (gl_programs s !! p) (gl_programs s' !! p);
}.

(** The effect's shader is a linked program of the driver, with a sound
    location cache. *)
Definition shader_linked (gl : GLState) (e : GPUEffect) (pid : GLuint) : Prop :=
  exists sp pr, m_shader e = Some sp ∧ m_programId sp = pid ∧
                gl_programs gl !! pid = Some pr ∧ program_wf pr ∧ cache_sound gl sp.

(** The colour attachment of framebuffer [fbo], [0] for the surface. *)
Definition color_of (gl : GLState) (fbo : GLuint) : GLuint :=
  match gl_framebuffers gl !! fbo with
  | Some fb => fb_color fb
  | None => 0%N
  end.

(** The world [apply] renders in: the quad exists. *)
Definition with_quad (w : World) : World :=
  if negb (s_quadInitialized (w_quad w)) then initializeQuad w else w.

(** The commands of [apply] before the first uniform is set. *)
Definition apply_prefix (sp : ShaderProgram) (inputTexture outputFramebuffer : GLuint)
  (width height : Z) (gl : GLState) : GLState :=
  glBindTexture inputTexture
    (glActiveTexture 0
       (glViewport 0 0 width height
          (glBindFramebuffer outputFramebuffer (use sp gl)))).

(** The commands of [apply] after the draw. *)
Definition apply_suffix (gl : GLState) : GLState :=
  glBindTexture 0 (glBindFramebuffer 0 (glBindVertexArray 0 gl)).

(** ** What a texture holds, read off the event log

    [ImgSource t] stands for the pixels texture [t] had before the first
    logged command.  A draw replaces the colour attachment it targets by the
    image its program computes from the texture on unit 0; a clear replaces
    it by the clear colour. *)
Inductive Image :=
| ImgSource (t : GLuint)
| ImgCleared (color : F * F * F * F)
| ImgDrawn (program : GLuint) (input : Image).

Fixpoint content (events : list GLEvent) (t : GLuint) : Image :=
  match events with
  | [] => ImgSource t
  | EvDraw d :: earlier =>
      if decide (dc_color d = t)
      then ImgDrawn (dc_program d) (content earlier (default 0%N (dc_textures d !! 0%N)))
      else content earlier t
  | EvClear _ attachment color :: earlier =>
      if decide (attachment = t) then ImgCleared color else content earlier t
  end.

(** ** The effect chain as the specification words it: a fold over the
    effects that are applied successfully, in insertion order *)

Definition effect_program (e : GPUEffect) : GLuint :=
  match m_shader e with
  | Some sp => m_programId sp
  | None => 0%N
  end.

(** The stage of [name] renders: the effect is enabled, its shader
    compiled, and the stage framebuffer can be created. *)
Definition successfully_applied (r : GPURenderer) (name : string) : bool :=
  match m_effects r !! name with
  | Some e =>
      isEnabled e && isAvailable e
      && bool_decide (0 < renderWidth (m_config r))
      && bool_decide (0 < renderHeight (m_config r))
  | None => false
  end.

Definition render_image (r : GPURenderer) (img : Image) (name : string) : Image :=
  match m_effects r !! name with
  | Some e => ImgDrawn (effect_program e) img
  | None => img
  end.

Definition chain_fold (r : GPURenderer) (names : list string) (img : Image) : Image :=
  fold_left (render_image r) (filter (fun name => successfully_applied r name = true) names) img.

(** Every name in the execution order is registered. *)
Definition chain_names_registered (r : GPURenderer) : Prop :=
  forall name, name ∈ m_effectOrder r -> is_Some (m_effects r !! name).

(** Every registered effect with a compiled shader holds a linked program. *)
Definition chain_linked (r : GPURenderer) (gl : GLState) : Prop :=
  forall name e, m_effects r !! name = Some e -> isAvailable e = true ->
                 shader_linked gl e (effect_program e).

(** An initialised context with a window surface, and a renderer holding
    it with the given render size and effects, registered in list order. *)
Definition context_initialized : OpenGLContext :=
  {| m_display := 1; m_eglContext := 1; m_surface := 1; m_width := 64; m_height := 64 |}.

Definition GPURenderer_with (c : OpenGLContext) (width height : Z)
  (effects : list (string * GPUEffect)) : GPURenderer :=
  {| m_context := Some c;
     m_config := {| renderWidth := width; renderHeight := height; outputWidth := width;
                    outputHeight := height; useMultisampling := true; sampleCount := 4;
                    enableCache := true; enableProfiling := false |};
     m_stats := m_stats GPURenderer_new;
     m_effects := list_to_map effects; m_effectOrder := effects.*1;
     m_intermediateFramebuffers := [];
     m_profilingEnabled := false; m_gpuTimeHistory := []; m_cpuTimeHistory := [];
     m_fpsHistory := [] |}.

(** ** What the effect chain leaves alone

    From the state before a run of chain stages to the state after it: the
    renderer keeps its configuration and its effects up to location caches;
    the driver only gains objects; every [apply] of the run targeted a
    framebuffer that did not exist before, and every command logged by the
    run is a draw into a texture that did not exist before. *)
Record chain_frame (r : GPURenderer) (w : World) (r' : GPURenderer) (w' : World)
  : Prop := {
  cf_config : m_config r' = m_config r;
  cf_context : m_context r' = m_context r;
  cf_order : m_effectOrder r' = m_effectOrder r;
  cf_profiling : m_profilingEnabled r' = m_profilingEnabled r;
  cf_effects : forall name,
    match m_effects r !! name, m_effects r' !! name with
    | Some e, Some e' => effect_frame e e'
    | None, None => True
    | _, _ => False
    end;
  cf_framebuffers : gl_framebuffers (w_gl w) ⊆ gl_framebuffers (w_gl w');
  cf_textures : gl_textures (w_gl w) ⊆ gl_textures (w_gl w');
  cf_renderbuffers : gl_renderbuffers (w_gl w) ⊆ gl_renderbuffers (w_gl w');
  cf_programs : forall p, same_shape_opt (gl_programs (w_gl w) !! p)
                                         (gl_programs (w_gl w') !! p);
  cf_current : w_current w' = w_current w;
  cf_log : exists new,
    w_apply_log w' = new ++ w_apply_log w /\
    Forall (fun entry : string * GLuint * GLuint =>
              entry.2 ∉ dom (gl_framebuffers (w_gl w))) new;
  cf_events : exists new,
    gl_events (w_gl w') = new ++ gl_events (w_gl w) /\
    Forall (fun ev => exists d, ev = EvDraw d /\ dc_color d ∉ dom (gl_textures (w_gl w))) new;
}.

(** ** Members outside the rendering path *)

(** *** ShaderProgram: compilation (shader_program.cpp)

    The GLSL compiler and linker belong to the driver: whether a source
    of a shader type compiles, and the program object that linking the
    compiled shaders yields ([None] when the link fails).  Shader objects
    are created and deleted inside [compileFromSources] and are not part of
    the driver state; [m_lastError] is not modelled. *)
Record GLSLDriver := {
  glsl_compiles : N -> string -> bool;
  glsl_links : string -> string -> string -> option GLProgram;
}.

Definition GL_FRAGMENT_SHADER : N := 35632.   (* 0x8B30 *)
Definition GL_VERTEX_SHADER : N := 35633.     (* 0x8B31 *)
Definition GL_GEOMETRY_SHADER : N := 36313.   (* 0x8DD9 *)

(** [ShaderProgram::ShaderProgram()]: [m_programId = 0], empty cache. *)
Definition ShaderProgram_new : ShaderProgram :=
  {| m_programId := 0; m_uniformLocations := ∅ |}.

(** A new program object has no active uniform until it is linked. *)
Definition glCreateProgram (s : GLState) : GLuint * GLState :=
  let n := gen_name (dom (gl_programs s)) in
  (n, set_programs <[n := {| prog_locations := ∅; prog_uniforms := ∅ |}]> s).

(** [glLinkProgram] with the driver's answer for the attached shaders. *)
Definition glLinkProgram (p : GLuint) (linked : option GLProgram) (s : GLState) : GLState :=
  match linked with
  | Some pr => set_programs (alter (fun _ => pr) p) s
  | None => s
  end.

(** A program in use is only flagged for deletion. *)
Definition glDeleteProgram (p : GLuint) (s : GLState) : GLState :=
  set_programs (fun ps => if decide (gl_current_program s = p) then ps else delete p ps) s.

(** [compileShader]: the name returned is non-zero exactly when the driver
    compiled the source. *)
Definition compileShader (drv : GLSLDriver) (type : N) (source : string) : bool :=
  glsl_compiles drv type source.

(** [linkProgram(vertexId, fragmentId, geometryId)], given what linking
    those shaders yields.  [m_programId] is assigned first; the location
    cache is not touched. *)
Definition linkProgram (linked : option GLProgram) (sp : ShaderProgram) (gl : GLState)
  : bool * ShaderProgram * GLState :=
  let '(p, gl) := glCreateProgram gl in
  let sp := {| m_programId := p; m_uniformLocations := m_uniformLocations sp |} in
  let gl := glLinkProgram p linked gl in
  match linked with
  | None =>
      let gl := glDeleteProgram (m_programId sp) gl in
      (false, {| m_programId := 0; m_uniformLocations := m_uniformLocations sp |}, gl)
  | Some _ => (true, sp, gl)
  end.

Definition compileFromSources (drv : GLSLDriver) (vertexSrc fragmentSrc geometrySrc : string)
  (sp : ShaderProgram) (gl : GLState) : bool * ShaderProgram * GLState :=
  if negb (compileShader drv GL_VERTEX_SHADER vertexSrc) then (false, sp, gl) else
  if negb (compileShader drv GL_FRAGMENT_SHADER fragmentSrc) then (false, sp, gl) else
  if negb (String.eqb geometrySrc EmptyString)
     && negb (compileShader drv GL_GEOMETRY_SHADER geometrySrc)
  then (false, sp, gl)
  else linkProgram (glsl_links drv vertexSrc fragmentSrc geometrySrc) sp gl.

(** A driver that compiles every source and links to the program with
    the one uniform [name]. *)
Definition GLSLDriver_single_uniform (name : string) : GLSLDriver :=
  {| glsl_compiles := fun _ _ => true;
     glsl_links := fun _ _ _ => Some (single_uniform_program name) |}.

Record ShaderSource := {
  vertexSource : string;
  fragmentSource : string;
  geometrySource : string;    (* optional: empty when absent *)
  shaderName : string;        (* the member [name] *)
}.

Definition compile (drv : GLSLDriver) (source : ShaderSource) (sp : ShaderProgram)
  (gl : GLState) : bool * ShaderProgram * GLState :=
  compileFromSources drv (vertexSource source) (fragmentSource source)
                     (geometrySource source) sp gl.

(** [operator<] is a strict total order up to equivalence: the case of the
    reals, and of IEEE values when no NaN is involved. *)
Definition ltb_strict_order : Prop :=
  (forall x : F, f_ltb x x = false) ∧
  (forall x y z : F, f_ltb x y = true -> f_ltb y z = true -> f_ltb x z = true) ∧
  (forall x y z : F, f_ltb x y = true -> f_ltb x z = true ∨ f_ltb z y = true).

(** *** GPUEffect and its subclasses *)

Definition getParameterRange (e : GPUEffect) (paramName : string) : F * F * F :=
  match m_parameterDefinitions e !! paramName with
  | Some def => (ep_minValue def, ep_maxValue def, ep_defaultValue def)
  | None => (f_lit 0, f_lit 1, f_lit 0.5)
  end.

(** The inline setters of the subclasses (effects/*.h).  They return
    [void]: the [bool] of [setParameter] is dropped.  A setter of a member
    the subclass adds is the identity on objects of another dynamic type,
    where C++ has no such call. *)
Definition ColorGradeEffect_setLUT (lutTexture : GLuint) (e : GPUEffect) : GPUEffect :=
  match m_kind e with
  | KColorGrade _ => set_kind (KColorGrade lutTexture) e
  | _ => e
  end.

Definition ColorGradeEffect_setTemperature (temp : F) (e : GPUEffect) : GPUEffect :=
  (setParameter "temperature" (f_div (f_add temp (f_lit 100)) (f_lit 200)) e).2.

Definition ColorGradeEffect_setTint (tint : F) (e : GPUEffect) : GPUEffect :=
  (setParameter "tint" (f_div (f_add tint (f_lit 100)) (f_lit 200)) e).2.

Definition CurvesEffect_setCurveTexture (curveTexture : GLuint) (e : GPUEffect) : GPUEffect :=
  match m_kind e with
  | KCurves _ => set_kind (KCurves curveTexture) e
  | _ => e
  end.

Definition HSLEffect_setHue (hue : F) (e : GPUEffect) : GPUEffect :=
  (setParameter "hue" (f_div (f_add hue (f_lit 180)) (f_lit 360)) e).2.

Definition HSLEffect_setSaturation (saturation : F) (e : GPUEffect) : GPUEffect :=
  (setParameter "saturation" (f_div (f_add saturation (f_lit 1)) (f_lit 2)) e).2.

Definition HSLEffect_setLightness (lightness : F) (e : GPUEffect) : GPUEffect :=
  (setParameter "lightness" (f_div (f_add lightness (f_lit 1)) (f_lit 2)) e).2.

Definition GlitchEffect_setTime (time : F) (e : GPUEffect) : GPUEffect :=
  match m_kind e with
  | KGlitch _ => set_kind (KGlitch time) e
  | _ => e
  end.

(** One call of a public member that can change an effect object or what
    it reaches.  The remaining inline setters ([setRadius], [setAmount],
    ...) are [setParameter] under a fixed name. *)
Inductive EffectCall :=
| CallSetParameter (paramName : string) (value : F)
| CallResetParameters
| CallSetIntensity (intensity : F)
| CallSetEnabled (enabled : bool)
| CallSetLUT (lutTexture : GLuint)
| CallSetTemperature (temp : F)
| CallSetTint (tint : F)
| CallSetCurveTexture (curveTexture : GLuint)
| CallSetHue (hue : F)
| CallSetSaturation (saturation : F)
| CallSetLightness (lightness : F)
| CallSetTime (time : F)
| CallApplyCustomUniforms (inputTexture : GLuint) (width height : Z)
| CallApply (inputTexture outputFramebuffer : GLuint) (width height : Z).

Definition call_effect (st : GPUEffect * World) (c : EffectCall) : GPUEffect * World :=
  let '(e, w) := st in
  match c with
  | CallSetParameter paramName value => ((setParameter paramName value e).2, w)
  | CallResetParameters => (resetParameters e, w)
  | CallSetIntensity intensity => (setIntensity intensity e, w)
  | CallSetEnabled enabled => (setEnabled enabled e, w)
  | CallSetLUT lutTexture => (ColorGradeEffect_setLUT lutTexture e, w)
  | CallSetTemperature temp => (ColorGradeEffect_setTemperature temp e, w)
  | CallSetTint tint => (ColorGradeEffect_setTint tint e, w)
  | CallSetCurveTexture curveTexture => (CurvesEffect_setCurveTexture curveTexture e, w)
  | CallSetHue hue => (HSLEffect_setHue hue e, w)
  | CallSetSaturation saturation => (HSLEffect_setSaturation saturation e, w)
  | CallSetLightness lightness => (HSLEffect_setLightness lightness e, w)
  | CallSetTime time => (GlitchEffect_setTime time e, w)
  | CallApplyCustomUniforms inputTexture width height =>
      let '(e, gl) := applyCustomUniforms e inputTexture width height (w_gl w) in
      (e, set_gl gl w)
  | CallApply inputTexture outputFramebuffer width height =>
      let '(_, e, w) := apply e inputTexture outputFramebuffer width height w in (e, w)
  end.

Definition call_effects (calls : list EffectCall) (st : GPUEffect * World)
  : GPUEffect * World :=
  fold_left call_effect calls st.

(** The objects the eleven constructors build. *)
Definition concrete_effects : list GPUEffect :=
  [ColorGradeEffect_new; CurvesEffect_new; HSLEffect_new; GaussianBlurEffect_new;
   VignetteEffect_new; GlowEffect_new; ChromaticAberrationEffect_new; GlitchEffect_new;
   PosterizeEffect_new; InvertEffect_new; GrayscaleEffect_new].

(** *** OpenGLContext *)

(** [shutdown()]: the three handles are destroyed if set and reset to
    their null values.  The EGL objects live in the driver; what destroying
    them does there is not modelled. *)
Definition ctx_shutdown (c : OpenGLContext) : OpenGLContext :=
  let eglContext := if negb (m_eglContext c =? 0)%N then 0%N else m_eglContext c in
  let surface := if negb (m_surface c =? 0)%N then 0%N else m_surface c in
  let display := if negb (m_display c =? 0)%N then 0%N else m_display c in
  {| m_display := display; m_eglContext := eglContext; m_surface := surface;
     m_width := m_width c; m_height := m_height c |}.

Definition GL_TEXTURE0 : Z := 33984.         (* 0x84C0 *)
Definition MAX_TEXTURE_UNITS : Z := 16.

(** [getNextTextureUnit()], on the member [m_currentTextureUnit] it reads
    and writes: the unit handed out and the new value of the member. *)
Definition getNextTextureUnit (m_currentTextureUnit : Z) : Z * Z :=
  let unit := GL_TEXTURE0 + m_currentTextureUnit in
  let m_currentTextureUnit := m_currentTextureUnit + 1 in
  let m_currentTextureUnit :=
    if MAX_TEXTURE_UNITS <=? m_currentTextureUnit then 0 else m_currentTextureUnit in
  (unit, m_currentTextureUnit).

Definition resetTextureUnits (m_currentTextureUnit : Z) : Z := 0.

(** The units handed out by [n] successive calls, and the member after them. *)
Fixpoint getNextTextureUnit_calls (n : nat) (m_currentTextureUnit : Z) : list Z * Z :=
  match n with
  | O => ([], m_currentTextureUnit)
  | S n =>
      let '(unit, m) := getNextTextureUnit m_currentTextureUnit in
      let '(units, m) := getNextTextureUnit_calls n m in
      (unit :: units, m)
  end.




(** *** GPURenderer *)

Definition getEffectCount (r : GPURenderer) : nat := size (m_effects r).

(** [applyEffect]: [None] when [m_context] is null at
    [m_context->makeCurrent()], which the function reaches without testing
    [isInitialized()]. *)
Definition applyEffect (r : GPURenderer) (inputTexture : GLuint) (effectName : string)
  (outputFramebuffer : GLuint) (w : World) : option (bool * GPURenderer * World) :=
  match getEffect r effectName with
  | None => Some (false, r, w)
  | Some effect =>
      match m_context r with
      | None => None
      | Some c =>
          let '(ok, w) := makeCurrent c w in
          if negb ok then Some (false, r, w) else
          let '(outputFramebuffer, r, w) :=
            if (outputFramebuffer =? 0)%N then createIntermediateFramebuffer r w
            else (outputFramebuffer, r, w) in
          if (outputFramebuffer =? 0)%N then Some (false, r, w) else
          let '(result, effect, w) :=
            apply effect inputTexture outputFramebuffer (renderWidth (m_config r))
                  (renderHeight (m_config r)) w in
          let r := set_effects <[effectName := effect]> r in
          let '(_, w) := releaseContext c w in
          Some (result, r, w)
      end
  end.

(** The members of the registry a sequence of [addEffect] calls builds. *)
Definition addEffects (effects : list (option GPUEffect)) (r : GPURenderer) : GPURenderer :=
  fold_left (fun r effect => (addEffect effect r).2) effects r.

(** The registry as its operations keep it: the execution order has no
    duplicates and holds exactly the registered names. *)
Definition registry_wf (r : GPURenderer) : Prop :=
  NoDup (m_effectOrder r) ∧
  forall name, name ∈ m_effectOrder r <-> is_Some (m_effects r !! name).

(** The stage of [name] is attempted: the effect is registered and
    enabled, so the loop creates a framebuffer for it. *)
Definition stage_attempted (r : GPURenderer) (name : string) : bool :=
  match m_effects r !! name with
  | Some e => isEnabled e
  | None => false
  end.

(** A registry that holds nothing, or one effect with the empty name. *)
Definition registry_small (r : GPURenderer) : Prop :=
  (m_effectOrder r = [] ∧ m_effects r = ∅) ∨
  (m_effectOrder r = [EmptyString] ∧
   exists e, m_effects r = {[EmptyString := e]} ∧ getName e = EmptyString).

(** *** GPUBridge (jni_bridge/gpu_bridge.cpp)

    The static map from handles to renderers and the handle counter.  The
    renderers are [shared_ptr]s: a member called through [getRenderer] acts
    on the stored object. *)
Record GPUBridge := {
  s_renderers : gmap Z GPURenderer;
  g_nextRendererPtr : Z;
}.

Definition GPUBridge_new : GPUBridge := {| s_renderers := ∅; g_nextRendererPtr := 1000 |}.

Definition getRenderer (b : GPUBridge) (rendererPtr : Z) : option GPURenderer :=
  s_renderers b !! rendererPtr.

Definition storeRenderer (renderer : GPURenderer) (b : GPUBridge) : Z * GPUBridge :=
  let ptr := g_nextRendererPtr b in
  (ptr, {| s_renderers := <[ptr := renderer]> (s_renderers b);
           g_nextRendererPtr := ptr + 1 |}).

(** Every handle in use was handed out by [storeRenderer]. *)
Definition bridge_wf (b : GPUBridge) : Prop :=
  forall ptr, is_Some (s_renderers b !! ptr) -> ptr < g_nextRendererPtr b.

Definition set_renderer (rendererPtr : Z) (renderer : GPURenderer) (b : GPUBridge)
  : GPUBridge :=
  {| s_renderers := <[rendererPtr := renderer]> (s_renderers b);
     g_nextRendererPtr := g_nextRendererPtr b |}.

(** The [addEffect] calls of [createRenderer], which follow a successful
    [initialize]; their results are dropped. *)
Definition createRenderer_addEffects (renderer : GPURenderer) : GPURenderer :=
  addEffects (Some <$> concrete_effects) renderer.

Definition GPUBridge_applyEffect (rendererPtr : Z) (effectName : string) (b : GPUBridge)
  : bool * GPUBridge :=
  match getRenderer b rendererPtr with
  | None => (false, b)
  | Some renderer =>
      if negb (hasEffect renderer effectName) then (false, b)
      else match getEffect renderer effectName with
           | Some effect =>
               (true, set_renderer rendererPtr
                        (set_effects <[effectName := setEnabled true effect]> renderer) b)
           | None => (false, b)
           end
  end.

Definition GPUBridge_removeEffect (rendererPtr : Z) (effectName : string) (b : GPUBridge)
  : bool * GPUBridge :=
  match getRenderer b rendererPtr with
  | None => (false, b)
  | Some renderer =>
      match getEffect renderer effectName with
      | Some effect =>
          (true, set_renderer rendererPtr
                   (set_effects <[effectName := setEnabled false effect]> renderer) b)
      | None => (false, b)
      end
  end.

Definition GPUBridge_setEffectParameter (rendererPtr : Z) (effectName paramName : string)
  (value : F) (b : GPUBridge) : bool * GPUBridge :=
  match getRenderer b rendererPtr with
  | None => (false, b)
  | Some renderer =>
      match getEffect renderer effectName with
      | None => (false, b)
      | Some effect =>
          let '(ok, effect) := setParameter paramName value effect in
          (ok, set_renderer rendererPtr (set_effects <[effectName := effect]> renderer) b)
      end
  end.

(** The loop of [clearEffects] over a copy of the name list. *)
Definition GPUBridge_clearEffects_loop (names : list string) (renderer : GPURenderer)
  : GPURenderer :=
  fold_left (fun renderer effectName =>
               match getEffect renderer effectName with
               | Some effect =>
                   set_effects <[effectName := setEnabled false effect]> renderer
               | None => renderer
               end) names renderer.

Definition GPUBridge_clearEffects (rendererPtr : Z) (b : GPUBridge) : GPUBridge :=
  match getRenderer b rendererPtr with
  | None => b
  | Some renderer =>
      set_renderer rendererPtr
        (GPUBridge_clearEffects_loop (getEffectNames renderer) renderer) b
  end.

(** [GPUBridge::renderToTexture]: [jint] and [GLuint] conversions are the
    identity on the handles in use. *)
Definition GPUBridge_renderToTexture (rendererPtr : Z) (inputTexture : GLuint)
  (b : GPUBridge) (w : World) : option (GLuint * GPUBridge * World) :=
  match getRenderer b rendererPtr with
  | None => Some (0%N, b, w)
  | Some renderer =>
      if negb (isInitialized renderer) then Some (0%N, b, w) else
      match renderToTexture renderer inputTexture w with
      | None => None
      | Some (outputTexture, renderer, w) =>
          Some (outputTexture, set_renderer rendererPtr renderer b, w)
      end
  end.

End Model.

Arguments UniformValue F : clear implicits.
Arguments Image F : clear implicits.
Arguments GLProgram F : clear implicits.
Arguments DrawCall F : clear implicits.
Arguments GLEvent F : clear implicits.
Arguments GLState F : clear implicits.
Arguments EffectParameter F : clear implicits.
Arguments EffectKind F : clear implicits.
Arguments GPUEffect F : clear implicits.
Arguments World F : clear implicits.
Arguments RenderStats F : clear implicits.
Arguments GPURenderer F : clear implicits.
Arguments EffectCall F : clear implicits.
Arguments GLSLDriver F : clear implicits.
Arguments GPUBridge F : clear implicits.

(** * Verification *)

(** ** The driver model *)

(** Computes with the driver commands on a state given by its fields. *)
Ltac gl_cbv :=
  cbv beta iota zeta delta [set_framebuffers set_textures set_renderbuffers set_programs
       set_vertex_arrays
       set_buffers set_framebuffer_binding set_active_texture set_texture_binding
       set_renderbuffer_binding set_current_program set_vertex_array_binding set_viewport
       set_clear_color set_events
       gl_framebuffers gl_textures gl_renderbuffers gl_programs gl_vertex_arrays gl_buffers
       gl_framebuffer_binding gl_active_texture gl_texture_binding gl_renderbuffer_binding
       gl_current_program gl_vertex_array_binding gl_viewport gl_clear_color gl_events
       glGenFramebuffers glGenTextures glGenRenderbuffers glGenVertexArrays glGenBuffers
       glBindFramebuffer glActiveTexture glBindTexture glBindRenderbuffer glBindVertexArray
       bound_texture glTexImage2D glRenderbufferStorage glFramebufferTexture2D
       glFramebufferRenderbuffer glDeleteFramebuffers glDeleteTextures glDeleteRenderbuffers
       alter_bound_framebuffer color_attachment
       glUseProgram glUniform glViewport glClearColor glClear glDrawArrays
       glCheckFramebufferStatus glGetFramebufferAttachmentObjectName].

Section DriverFacts.
Context {F : Type} {fops : FloatOps F}.

Lemma gen_name_fresh (used : gset N) : (gen_name used ∉ used) ∧ (gen_name used ≠ 0%N).
Proof.
  unfold gen_name.
  pose proof (is_fresh (({[0%N]} : gset N) ∪ used)) as H. set_solver.
Qed.

Lemma gen_name_lookup {A} (m : gmap N A) : m !! gen_name (dom m) = None.
Proof. apply not_elem_of_dom. apply gen_name_fresh. Qed.

Lemma gen_name_nonzero (used : gset N) : gen_name used ≠ 0%N.
Proof. apply gen_name_fresh. Qed.

Lemma ensure_object_existing {A} (name : N) (o x : A) (m : gmap N A) :
  m !! name = Some x -> ensure_object name o m = m.
Proof. intros H. unfold ensure_object. case_decide; [done|]. by rewrite H. Qed.

Lemma ensure_object_zero {A} (o : A) (m : gmap N A) : ensure_object 0%N o m = m.
Proof. unfold ensure_object. by rewrite decide_True. Qed.

Lemma ensure_object_subseteq {A} (name : N) (o : A) (m : gmap N A) :
  m ⊆ ensure_object name o m.
Proof.
  unfold ensure_object. case_decide; [done|].
  destruct (m !! name) eqn:E; [done|]. by apply insert_subseteq.
Qed.

Lemma createFramebuffer_cases (width height : Z) (fmt : N) (gl : GLState F) :
  createFramebuffer width height fmt gl =
  if bool_decide (0 < width) && bool_decide (0 < height)
  then (gen_name (dom (gl_framebuffers gl)), framebuffer_created width height gl)
  else (0%N, framebuffer_rolled_back gl).
Proof.
  pose proof (gen_name_fresh (dom (gl_framebuffers gl))) as [Hf Hf0].
  pose proof (gen_name_fresh (dom (gl_textures gl))) as [Ht Ht0].
  pose proof (gen_name_fresh (dom (gl_renderbuffers gl))) as [Hr Hr0].
  apply not_elem_of_dom in Hf, Ht, Hr.
  destruct gl as [fbs texs rbs progs vaos bufs fbb act tb rbb cur vab vp cc evs].
  unfold createFramebuffer, framebuffer_created, framebuffer_rolled_back.
  gl_cbv.
  cbv beta iota zeta delta [gl_framebuffers gl_textures gl_renderbuffers] in Hf, Ht, Hr, Hf0, Ht0, Hr0.
  set (fbo := gen_name (dom fbs)) in *.
  set (tex := gen_name (dom texs)) in *.
  set (rb := gen_name (dom rbs)) in *.
  rewrite !lookup_insert_eq. cbn [default].
  rewrite !(ensure_object_existing _ _ _ _ (lookup_insert_eq _ _ _)).
  assert (Htex : is_Some ((if decide (width < 0 ∨ height < 0) then <[tex := {| tex_size := None |}]> texs
                          else alter (fun _ => {| tex_size := Some (width, height) |}) tex
                                 (<[tex := {| tex_size := None |}]> texs)) !! tex)).
  { case_decide; [rewrite lookup_insert_eq | rewrite lookup_alter_eq, lookup_insert_eq]; eauto. }
  assert (Hrb : is_Some ((if decide (width < 0 ∨ height < 0) then <[rb := {| rb_size := None |}]> rbs
                          else alter (fun _ => {| rb_size := Some (width, height) |}) rb
                                 (<[rb := {| rb_size := None |}]> rbs)) !! rb)).
  { case_decide; [rewrite lookup_insert_eq | rewrite lookup_alter_eq, lookup_insert_eq]; eauto. }
  rewrite !(decide_True (P := rb = 0%N ∨ _)) by (right; exact Hrb).
  rewrite !(decide_True (P := tex = 0%N ∨ _)) by (right; exact Htex).
  clear Htex Hrb.
  rewrite !alter_insert_eq. cbn [fb_color fb_depth].
  rewrite !(decide_True (P := fbo = fbo)) by done.
  rewrite !(decide_True (P := rb = rb)) by done.
  rewrite !(decide_True (P := 0%N = 0%N)) by done.
  rewrite ensure_object_zero.
  rewrite (delete_insert_id fbs fbo) by done.
  unfold framebuffer_status. gl_cbv.
  rewrite (decide_False (P := fbo = 0%N)) by done.
  rewrite lookup_insert_eq. cbn [fb_color fb_depth].
  rewrite (decide_False (P := tex = 0%N)) by done.
  rewrite (decide_False (P := rb = 0%N)) by done.
  rewrite (decide_False (P := tex = 0%N ∧ rb = 0%N)) by tauto.
  destruct (bool_decide (0 < width) && bool_decide (0 < height)) eqn:Hok.
  - apply andb_prop in Hok as [Hw Hh]. apply bool_decide_eq_true in Hw, Hh.
    rewrite !(decide_False (P := width < 0 ∨ height < 0)) by lia.
    rewrite !lookup_insert_eq. cbn [tex_size rb_size positive_size].
    rewrite !bool_decide_eq_true_2 by done. cbn [andb negb is_complete].
    reflexivity.
  - assert (Hbad : negb (is_complete
              (if negb (match (if decide (width < 0 ∨ height < 0) then <[tex:={| tex_size := None |}]> texs
                               else <[tex:={| tex_size := Some (width, height) |}]> texs) !! tex with
                        | Some t => positive_size (tex_size t) | None => false end &&
                        match (if decide (width < 0 ∨ height < 0) then <[rb:={| rb_size := None |}]> rbs
                               else <[rb:={| rb_size := Some (width, height) |}]> rbs) !! rb with
                        | Some r => positive_size (rb_size r) | None => false end)
               then GL_FRAMEBUFFER_INCOMPLETE_ATTACHMENT else GL_FRAMEBUFFER_COMPLETE)) = true).
    { destruct (decide (width < 0 ∨ height < 0));
        rewrite !lookup_insert_eq; cbn [tex_size rb_size positive_size]; [reflexivity|].
      rewrite Hok. reflexivity. }
    rewrite Hbad.
    f_equal. f_equal.
    + destruct (decide (width < 0 ∨ height < 0)); by rewrite delete_insert_id.
    + destruct (decide (width < 0 ∨ height < 0)); by rewrite delete_insert_id.
Qed.
End DriverFacts.

Section ParameterModel.
Context {F : Type} {fops : FloatOps F}.

Lemma getParameter_set_parameters_eq (e : GPUEffect F) (name : string) (x : F) :
  getParameter (set_parameters <[name := x]> e) name = x.
Proof. unfold getParameter; simpl. by rewrite lookup_insert_eq. Qed.

Lemma getParameter_set_parameters_ne (e : GPUEffect F) (name other : string) (x : F) :
  name ≠ other ->
  getParameter (set_parameters <[name := x]> e) other = getParameter e other.
Proof. intros Hne. unfold getParameter; simpl. by rewrite lookup_insert_ne. Qed.

(** [defineParameter] initialises the current value to the default. *)
Lemma getParameter_defineParameter (e : GPUEffect F) name uniformName d lo hi ty :
  getParameter (defineParameter name uniformName d lo hi ty e) name = d.
Proof. unfold defineParameter. apply getParameter_set_parameters_eq. Qed.

(** [setParameter] never changes the definitions. *)
Lemma setParameter_definitions (e : GPUEffect F) name v :
  m_parameterDefinitions (setParameter name v e).2 = m_parameterDefinitions e.
Proof. unfold setParameter. by destruct (m_parameterDefinitions e !! name). Qed.


(** The other parameters keep their values. *)
Lemma setParameter_getParameter_other (e : GPUEffect F) (name other : string) (v : F) :
  name ≠ other ->
  getParameter (setParameter name v e).2 other = getParameter e other.
Proof.
  intros Hne. unfold setParameter.
  destruct (m_parameterDefinitions e !! name); simpl; [|reflexivity].
  by apply getParameter_set_parameters_ne.
Qed.

(** C9: on a name without a definition, [setParameter] returns false and the
    effect, hence its whole parameter map, is left as it was. *)
Theorem setParameter_undefined_noop (e : GPUEffect F) (name : string) (v : F) :
  m_parameterDefinitions e !! name = None ->
  (setParameter name v e).1 = false /\
  m_parameters (setParameter name v e).2 = m_parameters e /\
  (forall q, getParameter (setParameter name v e).2 q = getParameter e q).
Proof.
  intros Hdef. unfold setParameter. rewrite Hdef. simpl. auto.
Qed.

End ParameterModel.

(** Over the reals, [glm_clamp] is the usual clamp: it lands in the range
    whenever the range is not empty. *)
Lemma glm_clamp_real_bounds (v lo hi : R) :
  (lo <= hi)%R -> (lo <= glm_clamp v lo hi <= hi)%R.
Proof.
  intros Hle. unfold glm_clamp, glm_min, glm_max; simpl. unfold Rltb.
  repeat destruct (Rlt_dec _ _); lra.
Qed.

Lemma glm_clamp_real_inside (v lo hi : R) :
  (lo <= v <= hi)%R -> glm_clamp v lo hi = v.
Proof.
  intros Hin. unfold glm_clamp, glm_min, glm_max; simpl. unfold Rltb.
  repeat destruct (Rlt_dec _ _); lra.
Qed.

Lemma Rltb_strict_order : ltb_strict_order (F:=R).
Proof.
  unfold ltb_strict_order. cbn [f_ltb real_float]. unfold Rltb.
  split; [|split].
  - intros x. destruct (Rlt_dec x x); [lra|done].
  - intros x y z. destruct (Rlt_dec x y), (Rlt_dec y z), (Rlt_dec x z); try done. lra.
  - intros x y z. destruct (Rlt_dec x y), (Rlt_dec x z), (Rlt_dec z y); auto; try done.
    lra.
Defined.

Lemma Rltb_one_zero : f_ltb (f_lit (F:=R) 1) (f_lit 0) = false.
Proof.
  cbn [f_ltb f_lit real_float]. unfold Rltb, Q2R. simpl.
  destruct (Rlt_dec _ _); [lra|done].
Defined.



Lemma setParameter_undefined_noop_witness :
  m_parameterDefinitions (HSLEffect_new (F:=R)) !! "gamma" = None /\
  (setParameter "gamma" 2%R HSLEffect_new).1 = false /\
  m_parameters (setParameter "gamma" 2%R HSLEffect_new).2 = m_parameters (HSLEffect_new (F:=R)) /\
  (forall q, getParameter (setParameter "gamma" 2%R HSLEffect_new).2 q
             = getParameter (HSLEffect_new (F:=R)) q).
Proof.
  split; [reflexivity|].
  exact (setParameter_undefined_noop HSLEffect_new "gamma" 2%R eq_refl).
Defined.

(** ** The uniform phase: [setUniform] and the custom-uniform hooks *)

Section UniformPhase.
Context {F : Type} {fops : FloatOps F}.

Lemma same_shape_opt_refl (o : option (GLProgram F)) : same_shape_opt o o.
Proof. destruct o; simpl; [split|]; done. Qed.

Lemma same_shape_opt_trans (a b c : option (GLProgram F)) :
  same_shape_opt a b -> same_shape_opt b c -> same_shape_opt a c.
Proof.
  destruct a, b, c; simpl; try done. intros [? ?] [? ?]. split; congruence.
Qed.

Lemma hook_frame_refl (s : GLState F) : hook_frame s s.
Proof. split; auto using same_shape_opt_refl. Qed.

Lemma hook_frame_trans (s1 s2 s3 : GLState F) : hook_frame s1 s2 -> hook_frame s2 s3 -> hook_frame s1 s3.
Proof.
  intros [] []. split; [congruence|congruence| |congruence..|].
  - etrans; eassumption.
  - intros p. eapply same_shape_opt_trans; eauto.
Qed.

Lemma write_uniform_same_shape location v (pr : GLProgram F) :
  same_shape pr (write_uniform location v pr).
Proof.
  unfold same_shape, write_uniform; simpl. split; [done|].
  case_decide; [done|]. destruct (prog_uniforms pr !! location) eqn:E; [|done].
  rewrite dom_insert_L. apply elem_of_dom_2 in E.
  symmetry. apply subseteq_union_1_L. by apply singleton_subseteq_l.
Qed.

Lemma glUniform_frame location v (s : GLState F) : hook_frame s (glUniform location v s).
Proof.
  split; try reflexivity.
  intros p. unfold glUniform. cbn [gl_programs set_programs].
  destruct (decide (p = gl_current_program s)) as [->|Hne].
  - rewrite lookup_alter_eq. destruct (gl_programs s !! gl_current_program s); simpl; [|done].
    apply write_uniform_same_shape.
  - rewrite lookup_alter_ne by done. apply same_shape_opt_refl.
Qed.

Lemma glUniform_written location v (s : GLState F) pr :
  gl_programs s !! gl_current_program s = Some pr ->
  location ≠ -1 -> is_Some (prog_uniforms pr !! location) ->
  exists pr', gl_programs (glUniform location v s) !! gl_current_program s = Some pr' /\
              prog_locations pr' = prog_locations pr /\
              prog_uniforms pr' !! location = Some v.
Proof.
  intros Hpr Hloc [x Hx]. unfold glUniform. cbn [gl_programs set_programs].
  rewrite lookup_alter_eq, Hpr. simpl. eexists. split; [reflexivity|].
  unfold write_uniform; simpl. split; [done|].
  rewrite decide_False by done. rewrite Hx. apply lookup_insert_eq.
Qed.

Lemma glGetUniformLocation_frame (s s' : GLState F) p name :
  hook_frame s s' -> glGetUniformLocation s' p name = glGetUniformLocation s p name.
Proof.
  intros Hf. pose proof (hf_programs _ _ Hf p) as Hp. unfold glGetUniformLocation.
  destruct (gl_programs s !! p), (gl_programs s' !! p); simpl in Hp; try done.
  destruct Hp as [-> _]. done.
Qed.

Lemma cache_sound_frame (s s' : GLState F) sp :
  hook_frame s s' -> cache_sound s sp -> cache_sound s' sp.
Proof.
  intros Hf Hc name l Hl. rewrite (glGetUniformLocation_frame _ _ _ _ Hf). by apply Hc.
Qed.

Lemma getCachedUniformLocation_spec sp (gl : GLState F) name :
  cache_sound gl sp ->
  (getCachedUniformLocation sp gl name).1 = glGetUniformLocation gl (m_programId sp) name /\
  m_programId (getCachedUniformLocation sp gl name).2 = m_programId sp /\
  cache_sound gl (getCachedUniformLocation sp gl name).2.
Proof.
  intros Hc. unfold getCachedUniformLocation.
  destruct (m_uniformLocations sp !! name) as [l|] eqn:E; simpl.
  - split; [by apply Hc|]. done.
  - split; [done|]. split; [done|].
    intros n l. unfold cacheUniformLocation; simpl.
    destruct (decide (name = n)) as [->|Hne].
    + rewrite lookup_insert_eq. by intros [= <-].
    + rewrite lookup_insert_ne by done. apply Hc.
Qed.

Lemma setUniform_frame sp name v (gl : GLState F) :
  hook_frame gl (setUniform sp name v gl).2 /\
  m_programId (setUniform sp name v gl).1 = m_programId sp /\
  (cache_sound gl sp -> cache_sound (setUniform sp name v gl).2 (setUniform sp name v gl).1).
Proof.
  unfold setUniform.
  destruct (getCachedUniformLocation sp gl name) as [location sp'] eqn:E.
  assert (Hid : m_programId sp' = m_programId sp).
  { unfold getCachedUniformLocation in E.
    destruct (m_uniformLocations sp !! name); inversion E; done. }
  assert (Hcs : cache_sound gl sp -> cache_sound gl sp').
  { intros Hc. pose proof (getCachedUniformLocation_spec sp gl name Hc) as (_ & _ & H).
    by rewrite E in H. }
  case_decide; simpl.
  - split; [apply glUniform_frame|]. split; [done|].
    intros Hc. eapply cache_sound_frame; [apply glUniform_frame|]. auto.
  - split; [apply hook_frame_refl|]. auto.
Qed.
Lemma effect_frame_refl (e : GPUEffect F) : effect_frame e e.
Proof. split; [by destruct e|done]. Qed.

Lemma effect_frame_trans (e1 e2 e3 : GPUEffect F) :
  effect_frame e1 e2 -> effect_frame e2 e3 -> effect_frame e1 e3.
Proof.
  intros [H1 H1'] [H2 H2']. split; [|congruence].
  rewrite H2 at 1. rewrite H1. by destruct e1.
Qed.

Lemma uniform_step_refl (st : GPUEffect F * GLState F) : uniform_step st st.
Proof. split; [apply effect_frame_refl|]. split; [apply hook_frame_refl|auto]. Qed.

Lemma uniform_step_trans (st1 st2 st3 : GPUEffect F * GLState F) :
  uniform_step st1 st2 -> uniform_step st2 st3 -> uniform_step st1 st3.
Proof.
  intros (? & ? & ?) (? & ? & ?). split; [eauto using effect_frame_trans|].
  split; [eauto using hook_frame_trans|auto].
Qed.

Lemma eff_setUniform_step name v (e : GPUEffect F) (gl : GLState F) :
  uniform_step (e, gl) (eff_setUniform name v e gl).
Proof.
  unfold eff_setUniform. destruct (m_shader e) as [sp|] eqn:Hsp; [|apply uniform_step_refl].
  pose proof (setUniform_frame sp name v gl) as (Hf & Hid & Hc).
  destruct (setUniform sp name v gl) as [sp' gl'] eqn:E. simpl in *.
  split; [|split]; simpl.
  - split; simpl; [done|]. by rewrite Hsp, Hid.
  - done.
  - intros Hs sp0 [= <-]. apply Hc. by apply Hs.
Qed.

(** Binding an auxiliary texture on unit 1, as the LUT hooks do. *)
Lemma bind_unit1_frame tex (gl : GLState F) :
  hook_frame gl (glBindTexture tex (glActiveTexture 1 gl)).
Proof.
  split; try reflexivity.
  - cbn. apply ensure_object_subseteq.
  - cbn. by rewrite lookup_insert_ne.
  - intros p. apply same_shape_opt_refl.
Qed.

Lemma hook_frame_step (e : GPUEffect F) (gl gl' : GLState F) :
  hook_frame gl gl' -> uniform_step (e, gl) (e, gl').
Proof.
  intros Hf. split; [apply effect_frame_refl|]. split; [done|].
  intros Hs sp Hsp. eapply cache_sound_frame; eauto.
Qed.

Ltac step_uniforms :=
  repeat match goal with
  | |- uniform_step _ (let '(_, _) := eff_setUniform ?n ?v ?e ?g in _) =>
      let H := fresh "Hstep" in
      pose proof (eff_setUniform_step n v e g) as H;
      destruct (eff_setUniform n v e g) as [? ?];
      eapply uniform_step_trans; [exact H|]; clear H
  | |- uniform_step _ (eff_setUniform ?n ?v ?e ?g) => apply eff_setUniform_step
  | |- uniform_step ?st ?st => apply uniform_step_refl
  end.

Lemma applyCustomUniforms_step (e : GPUEffect F) inputTexture width height (gl : GLState F) :
  uniform_step (e, gl) (applyCustomUniforms e inputTexture width height gl).
Proof.
  unfold applyCustomUniforms.
  destruct (m_kind e) as [|lut|curve| | | | | |time| | |];
    unfold GPUEffect_applyCustomUniforms, ColorGradeEffect_applyCustomUniforms,
      CurvesEffect_applyCustomUniforms, HSLEffect_applyCustomUniforms,
      GaussianBlurEffect_applyCustomUniforms, VignetteEffect_applyCustomUniforms,
      GlowEffect_applyCustomUniforms, ChromaticAberrationEffect_applyCustomUniforms,
      GlitchEffect_applyCustomUniforms, PosterizeEffect_applyCustomUniforms,
      InvertEffect_applyCustomUniforms, GrayscaleEffect_applyCustomUniforms;
    try apply uniform_step_refl;
    (destruct (m_shader e) eqn:Hsh; [|apply uniform_step_refl]);
    cbv zeta; try (step_uniforms; fail).
  - destruct (negb (lut =? 0)%N); [|step_uniforms].
    eapply uniform_step_trans; [apply (hook_frame_step e), (bind_unit1_frame lut)|].
    step_uniforms.
  - destruct (negb (curve =? 0)%N); [|step_uniforms].
    eapply uniform_step_trans; [apply (hook_frame_step e), (bind_unit1_frame curve)|].
    step_uniforms.
Qed.

Lemma program_wf_same_shape (a b : GLProgram F) : same_shape a b -> program_wf a -> program_wf b.
Proof.
  intros [Hl Hd] [H1 H2]. split.
  - intros n l Hn. rewrite <- Hl in Hn. destruct (H1 n l Hn) as [? Hs]. split; [done|].
    apply elem_of_dom. rewrite <- Hd. by apply elem_of_dom.
  - intros n1 n2 l. rewrite <- Hl. apply H2.
Qed.

Lemma render_ready_step (e e' : GPUEffect F) (gl gl' : GLState F) pid :
  uniform_step (e, gl) (e', gl') -> render_ready gl e pid -> render_ready gl' e' pid.
Proof.
  intros ([He1 He2] & Hf & Hc) (sp & pr & Hsp & Hid & Hcur & Hpr & Hwf & Hcs). simpl in *.
  rewrite Hsp in He2. destruct (m_shader e') as [sp'|] eqn:Hsp'; [|done].
  simpl in He2. injection He2 as He2.
  pose proof (hf_programs _ _ Hf pid) as Hp. rewrite Hpr in Hp.
  destruct (gl_programs gl' !! pid) as [pr'|] eqn:Hpr'; [|done]. simpl in Hp.
  exists sp', pr'. split; [done|]. split; [congruence|].
  split; [by rewrite (hf_current_program _ _ Hf)|]. split; [done|].
  split; [by eapply program_wf_same_shape|].
  apply Hc; [|done]. intros sp0 Hsp0. rewrite Hsp in Hsp0. injection Hsp0 as <-. done.
Qed.

Lemma eff_setUniform_bound name v (e : GPUEffect F) (gl : GLState F) pid :
  render_ready gl e pid ->
  forall n, uniform_bound (eff_setUniform name v e gl).2 pid n
            = if decide (n = name) then (fun _ => v) <$> uniform_bound gl pid name
              else uniform_bound gl pid n.
Proof.
  intros (sp & pr & Hsp & Hid & Hcur & Hpr & [Hwf1 Hwf2] & Hcs) n.
  unfold eff_setUniform. rewrite Hsp. unfold setUniform.
  pose proof (getCachedUniformLocation_spec sp gl name Hcs) as (Hloc & _ & _).
  destruct (getCachedUniformLocation sp gl name) as [location sp'] eqn:E. simpl in Hloc.
  unfold glGetUniformLocation in Hloc. rewrite Hid, Hpr in Hloc.
  unfold uniform_bound at 2 3. rewrite Hpr.
  destruct (prog_locations pr !! name) as [loc|] eqn:Hname; simpl in Hloc; subst location.
  - destruct (Hwf1 _ _ Hname) as [Hne [x Hx]].
    rewrite decide_True by done. simpl.
    unfold uniform_bound, glUniform. cbn [gl_programs set_programs].
    rewrite Hcur, lookup_alter_eq, Hpr. simpl.
    rewrite decide_False by done. rewrite Hx.
    destruct (prog_locations pr !! n) as [l|] eqn:Hn.
    + destruct (decide (n = name)) as [->|Hnn].
      * rewrite Hname in Hn. injection Hn as <-. by rewrite lookup_insert_eq.
      * rewrite lookup_insert_ne; [done|]. intros <-. apply Hnn. eauto.
    + case_decide; [subst; congruence|done].
  - rewrite decide_False by (intros Hn; by apply Hn). simpl.
    unfold uniform_bound. rewrite Hpr.
    case_decide; [subst; by rewrite Hname|done].
Qed.

Lemma bind_unit1_bound tex (gl : GLState F) pid n :
  uniform_bound (glBindTexture tex (glActiveTexture 1 gl)) pid n = uniform_bound gl pid n.
Proof. reflexivity. Qed.


Lemma effect_frame_getParameter (e e' : GPUEffect F) q :
  effect_frame e e' -> getParameter e' q = getParameter e q.
Proof. intros [H _]. rewrite H. reflexivity. Qed.

Lemma effect_frame_intensity (e e' : GPUEffect F) :
  effect_frame e e' -> m_intensity e' = m_intensity e.
Proof. intros [H _]. rewrite H. reflexivity. Qed.

Lemma effect_frame_enabled (e e' : GPUEffect F) :
  effect_frame e e' -> m_enabled e' = m_enabled e.
Proof. intros [H _]. rewrite H. reflexivity. Qed.

Lemma effect_frame_name (e e' : GPUEffect F) :
  effect_frame e e' -> m_name e' = m_name e.
Proof. intros [H _]. rewrite H. reflexivity. Qed.

Lemma effect_frame_kind (e e' : GPUEffect F) :
  effect_frame e e' -> m_kind e' = m_kind e.
Proof. intros [H _]. rewrite H. reflexivity. Qed.

Lemma effect_frame_available (e e' : GPUEffect F) :
  effect_frame e e' -> isAvailable e' = isAvailable e.
Proof.
  intros [_ H]. unfold isAvailable, isValid.
  destruct (m_shader e), (m_shader e'); simpl in H; try done. by injection H as ->.
Qed.

(** Runs one [setUniform] of a hook: names the result and records what it
    bound and that the effect is still ready to render. *)
Ltac run_setUniform Hready :=
  match goal with
  | |- context [eff_setUniform ?n ?v ?e ?g] =>
      let Hs := fresh "Hstep" in
      let Hb := fresh "Hbound" in
      let Hr := fresh "Hready" in
      pose proof (eff_setUniform_step n v e g) as Hs;
      pose proof (eff_setUniform_bound n v e g _ Hready) as Hb;
      destruct (eff_setUniform n v e g) as [? ?];
      pose proof (render_ready_step _ _ _ _ _ Hs Hready) as Hr;
      cbn [fst snd] in Hb
  end.

Lemma HSLEffect_hue_bound (e : GPUEffect F) (gl : GLState F) pid inputTexture width height :
  render_ready gl e pid ->
  uniform_bound (HSLEffect_applyCustomUniforms e inputTexture width height gl).2 pid "uHue"
  = (fun _ => U1f (f_mul (f_sub (f_mul (getParameter e "hue") (f_lit 2)) (f_lit 1))
                         (f_lit 180))) <$> uniform_bound gl pid "uHue".
Proof.
  intros Hready. unfold HSLEffect_applyCustomUniforms.
  assert (Hsh : is_Some (m_shader e)) by (destruct Hready as (sp & pr & -> & _); eauto).
  destruct Hsh as [sp ->].
  cbv zeta.
  run_setUniform Hready. run_setUniform Hready0.
  rewrite eff_setUniform_bound by done. rewrite decide_False by done.
  rewrite Hbound0, decide_False by done. rewrite Hbound, decide_True by done. done.
Qed.
Lemma ColorGradeEffect_bound (e : GPUEffect F) (gl : GLState F) pid lut inputTexture
  width height :
  render_ready gl e pid ->
  uniform_bound (ColorGradeEffect_applyCustomUniforms lut e inputTexture width height gl).2
                pid "uTemperature"
  = (fun _ => U1f (getParameter e "temperature")) <$> uniform_bound gl pid "uTemperature" /\
  uniform_bound (ColorGradeEffect_applyCustomUniforms lut e inputTexture width height gl).2
                pid "uTint"
  = (fun _ => U1f (getParameter e "tint")) <$> uniform_bound gl pid "uTint".
Proof.
  intros Hready. unfold ColorGradeEffect_applyCustomUniforms.
  assert (Hsh : is_Some (m_shader e)) by (destruct Hready as (sp & pr & -> & _); eauto).
  destruct Hsh as [sp ->].
  assert (Hlut : exists e1 gl1,
    (if negb (lut =? 0)%N
     then eff_setUniform "uLUT" (U1i 1) e (glBindTexture lut (glActiveTexture 1 gl))
     else (e, gl)) = (e1, gl1) /\ render_ready gl1 e1 pid /\
    (forall q, getParameter e1 q = getParameter e q) /\
    uniform_bound gl1 pid "uTemperature" = uniform_bound gl pid "uTemperature" /\
    uniform_bound gl1 pid "uTint" = uniform_bound gl pid "uTint").
  { destruct (negb (lut =? 0)%N); [|by exists e, gl].
    assert (Hr1 : render_ready (glBindTexture lut (glActiveTexture 1 gl)) e pid).
    { eapply render_ready_step; [|exact Hready]. apply hook_frame_step, bind_unit1_frame. }
    run_setUniform Hr1. eexists _, _. split; [reflexivity|]. split; [done|].
    split; [|by rewrite !Hbound, !decide_False by done].
    intros q. apply effect_frame_getParameter, Hstep. }
  destruct Hlut as (e1 & gl1 & -> & Hr1 & Hpar & Ht & Hi).
  run_setUniform Hr1.
  rewrite !eff_setUniform_bound by done.
  rewrite decide_False, decide_True by done. rewrite !Hbound.
  rewrite decide_True, decide_False by done. rewrite Ht, Hi, Hpar.
  split; [reflexivity|].
  by rewrite (effect_frame_getParameter _ _ _ (proj1 Hstep)), Hpar.
Qed.

Lemma ChromaticAberrationEffect_offset_bound (e : GPUEffect F) (gl : GLState F) pid
  inputTexture width height :
  render_ready gl e pid ->
  uniform_bound (ChromaticAberrationEffect_applyCustomUniforms e inputTexture width height gl).2
                pid "uOffset"
  = (fun _ =>
       let amount := getParameter e "amount" in
       let direction := f_div (f_mul (getParameter e "direction") (f_lit 3.14159)) (f_lit 180) in
       U2f (f_mul (f_mul (f_cos direction) amount) (f_lit 0.02))
           (f_mul (f_mul (f_sin direction) amount) (f_lit 0.02)))
    <$> uniform_bound gl pid "uOffset".
Proof.
  intros Hready. unfold ChromaticAberrationEffect_applyCustomUniforms.
  assert (Hsh : is_Some (m_shader e)) by (destruct Hready as (sp & pr & -> & _); eauto).
  destruct Hsh as [sp ->]. cbv zeta.
  rewrite eff_setUniform_bound by done. by rewrite decide_True.
Qed.
End UniformPhase.

(** ** [GPUEffect::apply] *)

Section ApplyFacts.
Context {F : Type} {fops : FloatOps F}.

Lemma table_frame_refl (s : GLState F) : table_frame s s.
Proof. split; auto using same_shape_opt_refl. Qed.

Lemma table_frame_trans (s1 s2 s3 : GLState F) :
  table_frame s1 s2 -> table_frame s2 s3 -> table_frame s1 s3.
Proof.
  intros [] []. split; [congruence|congruence| |].
  - etrans; eassumption.
  - intros p. eapply same_shape_opt_trans; eauto.
Qed.

Lemma hook_frame_table (s s' : GLState F) : hook_frame s s' -> table_frame s s'.
Proof. intros []. by split. Qed.

Lemma table_frame_eq (s s' : GLState F) :
  gl_framebuffers s' = gl_framebuffers s -> gl_renderbuffers s' = gl_renderbuffers s ->
  gl_textures s' = gl_textures s -> gl_programs s' = gl_programs s -> table_frame s s'.
Proof.
  intros H1 H2 H3 H4. split; [done|done|by rewrite H3|].
  intros p. rewrite H4. apply same_shape_opt_refl.
Qed.

Lemma framebuffer_status_frame (s s' : GLState F) fbo :
  table_frame s s' ->
  framebuffer_status s fbo = GL_FRAMEBUFFER_COMPLETE ->
  framebuffer_status s' fbo = GL_FRAMEBUFFER_COMPLETE.
Proof.
  intros [Hf Hr Ht _]. unfold framebuffer_status. rewrite Hf, Hr.
  case_decide; [done|].
  destruct (gl_framebuffers s !! fbo) as [fb|]; [|done].
  assert (Hc : (if decide (fb_color fb = 0%N) then true
                else match gl_textures s !! fb_color fb with
                     | Some t => positive_size (tex_size t) | None => false end) = true ->
               (if decide (fb_color fb = 0%N) then true
                else match gl_textures s' !! fb_color fb with
                     | Some t => positive_size (tex_size t) | None => false end) = true).
  { case_decide; [done|].
    destruct (gl_textures s !! fb_color fb) as [t|] eqn:E; [|done].
    by rewrite (lookup_weaken _ _ _ _ E Ht). }
  destruct (if decide (fb_color fb = 0%N) then true
            else match gl_textures s !! fb_color fb with
                 | Some t => positive_size (tex_size t) | None => false end) eqn:E1.
  - rewrite (Hc eq_refl). done.
  - simpl. done.
Qed.

Lemma cache_sound_shape (s s' : GLState F) sp :
  (forall p, same_shape_opt (gl_programs s !! p) (gl_programs s' !! p)) ->
  cache_sound s sp -> cache_sound s' sp.
Proof.
  intros Hp Hc name l Hl. rewrite (Hc name l Hl). unfold glGetUniformLocation.
  specialize (Hp (m_programId sp)).
  destruct (gl_programs s !! m_programId sp), (gl_programs s' !! m_programId sp);
    simpl in Hp; try done.
  destruct Hp as [-> _]. done.
Qed.

Lemma shader_linked_frame (s s' : GLState F) e pid :
  table_frame s s' -> shader_linked s e pid -> shader_linked s' e pid.
Proof.
  intros [_ _ _ Hp] (sp & pr & Hsp & Hid & Hpr & Hwf & Hcs).
  pose proof (Hp pid) as Hpp. rewrite Hpr in Hpp.
  destruct (gl_programs s' !! pid) as [pr'|] eqn:E; [|done]. simpl in Hpp.
  exists sp, pr'. split; [done|]. split; [done|]. split; [done|].
  split; [by eapply program_wf_same_shape|]. by eapply cache_sound_shape.
Qed.

Lemma with_quad_spec (w : World F) :
  gl_framebuffers (w_gl (with_quad w)) = gl_framebuffers (w_gl w) /\
  gl_renderbuffers (w_gl (with_quad w)) = gl_renderbuffers (w_gl w) /\
  gl_textures (w_gl (with_quad w)) = gl_textures (w_gl w) /\
  gl_programs (w_gl (with_quad w)) = gl_programs (w_gl w) /\
  gl_events (w_gl (with_quad w)) = gl_events (w_gl w) /\
  w_apply_log (with_quad w) = w_apply_log w /\
  w_current (with_quad w) = w_current w.
Proof.
  unfold with_quad, initializeQuad.
  destruct w as [gl [vao vbo init] cur log]. cbn [w_quad s_quadInitialized w_gl].
  destruct init; cbn [negb]; [done|].
  destruct gl as [fbs texs rbs progs vaos bufs fbb act tb rbb curp vab vp cc evs].
  gl_cbv. cbn [w_gl w_apply_log w_current]. done.
Qed.

Lemma apply_prefix_spec sp inputTexture outputFramebuffer width height (gl : GLState F) :
  isValid sp = true ->
  let g := apply_prefix sp inputTexture outputFramebuffer width height gl in
  gl_framebuffers g
    = ensure_object outputFramebuffer {| fb_color := 0; fb_depth := 0 |} (gl_framebuffers gl) /\
  gl_renderbuffers g = gl_renderbuffers gl /\
  gl_textures g = ensure_object inputTexture {| tex_size := None |} (gl_textures gl) /\
  gl_programs g = gl_programs gl /\
  gl_events g = gl_events gl /\
  gl_framebuffer_binding g = outputFramebuffer /\
  gl_texture_binding g !! 0%N = Some inputTexture /\
  (is_Some (gl_programs gl !! m_programId sp) -> gl_current_program g = m_programId sp).
Proof.
  intros Hv. unfold apply_prefix, use. unfold isValid in Hv. rewrite Hv.
  destruct gl as [fbs texs rbs progs vaos bufs fbb act tb rbb curp vab vp cc evs].
  gl_cbv. repeat (split; [try reflexivity|]).
  - apply lookup_insert_eq.
  - intros Hp. by rewrite decide_True by (by right).
Qed.

Lemma glBindVertexArray_frame vao (gl : GLState F) : hook_frame gl (glBindVertexArray vao gl).
Proof. split; try reflexivity. intros p. apply same_shape_opt_refl. Qed.

Lemma apply_suffix_spec (gl : GLState F) :
  gl_framebuffers (apply_suffix gl) = gl_framebuffers gl /\
  gl_renderbuffers (apply_suffix gl) = gl_renderbuffers gl /\
  gl_textures (apply_suffix gl) = gl_textures gl /\
  gl_programs (apply_suffix gl) = gl_programs gl /\
  gl_events (apply_suffix gl) = gl_events gl.
Proof.
  unfold apply_suffix.
  destruct gl as [fbs texs rbs progs vaos bufs fbb act tb rbb curp vab vp cc evs].
  gl_cbv. by rewrite !ensure_object_zero.
Qed.

Lemma glDrawArrays_tables (gl : GLState F) :
  gl_framebuffers (glDrawArrays gl) = gl_framebuffers gl /\
  gl_renderbuffers (glDrawArrays gl) = gl_renderbuffers gl /\
  gl_textures (glDrawArrays gl) = gl_textures gl /\
  gl_programs (glDrawArrays gl) = gl_programs gl.
Proof. done. Qed.

(** What the draw of a ready effect records. *)
Lemma glDrawArrays_event (gl : GLState F) pr :
  gl_programs gl !! gl_current_program gl = Some pr ->
  framebuffer_status gl (gl_framebuffer_binding gl) = GL_FRAMEBUFFER_COMPLETE ->
  gl_events (glDrawArrays gl)
  = EvDraw {| dc_program := gl_current_program gl;
              dc_uniforms := prog_uniforms pr;
              dc_textures := gl_texture_binding gl;
              dc_framebuffer := gl_framebuffer_binding gl;
              dc_color := color_of gl (gl_framebuffer_binding gl);
              dc_viewport := gl_viewport gl;
              dc_vertex_array := gl_vertex_array_binding gl |} :: gl_events gl.
Proof.
  intros Hpr Hst. unfold glDrawArrays, glCheckFramebufferStatus. cbn [gl_events set_events].
  by rewrite Hpr, Hst.
Qed.

Lemma glDrawArrays_events_cases (gl : GLState F) :
  gl_events (glDrawArrays gl) = gl_events gl \/
  exists d, gl_events (glDrawArrays gl) = EvDraw d :: gl_events gl /\
            dc_framebuffer d = gl_framebuffer_binding gl /\
            dc_color d = color_of gl (gl_framebuffer_binding gl).
Proof.
  unfold glDrawArrays. cbn [gl_events set_events].
  destruct (gl_programs gl !! gl_current_program gl); [|by left].
  destruct (is_complete _); [right|by left].
  eexists. split; [reflexivity|]. split; reflexivity.
Qed.

Lemma ensure_object_complete (gl : GLState F) fbo o :
  framebuffer_status gl fbo = GL_FRAMEBUFFER_COMPLETE ->
  ensure_object fbo o (gl_framebuffers gl) = gl_framebuffers gl.
Proof.
  unfold framebuffer_status, ensure_object. case_decide; [done|].
  by destruct (gl_framebuffers gl !! fbo).
Qed.

Lemma apply_unavailable (e : GPUEffect F) inputTexture outputFramebuffer width height
  (w : World F) :
  isAvailable e = false ->
  apply e inputTexture outputFramebuffer width height w
  = (false, e, log_apply (m_name e) inputTexture outputFramebuffer w).
Proof. intros H. unfold apply. by rewrite H. Qed.

Lemma apply_disabled (e : GPUEffect F) inputTexture outputFramebuffer width height
  (w : World F) :
  isAvailable e = true -> m_enabled e = false ->
  apply e inputTexture outputFramebuffer width height w
  = (true, e, log_apply (m_name e) inputTexture outputFramebuffer w).
Proof. intros H1 H2. unfold apply. by rewrite H1, H2. Qed.

(** [apply] on an enabled, available effect, with a complete target. *)
Lemma apply_enabled (e : GPUEffect F) inputTexture outputFramebuffer width height
  (w : World F) :
  isAvailable e = true -> m_enabled e = true ->
  framebuffer_status (w_gl w) outputFramebuffer = GL_FRAMEBUFFER_COMPLETE ->
  exists e' w',
    apply e inputTexture outputFramebuffer width height w = (true, e', w') /\
    effect_frame e e' /\
    table_frame (w_gl w) (w_gl w') /\
    w_apply_log w' = (m_name e, inputTexture, outputFramebuffer) :: w_apply_log w /\
    w_current w' = w_current w /\
    (gl_events (w_gl w') = gl_events (w_gl w) \/
     exists d, gl_events (w_gl w') = EvDraw d :: gl_events (w_gl w) /\
               dc_framebuffer d = outputFramebuffer /\
               dc_color d = color_of (w_gl w) outputFramebuffer) /\
    (forall pid, shader_linked (w_gl w) e pid ->
       shader_linked (w_gl w') e' pid /\
       exists d, gl_events (w_gl w') = EvDraw d :: gl_events (w_gl w) /\
                 dc_program d = pid /\
                 dc_framebuffer d = outputFramebuffer /\
                 dc_color d = color_of (w_gl w) outputFramebuffer /\
                 dc_textures d !! 0%N = Some inputTexture /\
                 (forall pr loc, gl_programs (w_gl w) !! pid = Some pr ->
                                 prog_locations pr !! "uIntensity" = Some loc ->
                                 dc_uniforms d !! loc = Some (U1f (m_intensity e)))).
Proof.
  intros Hav Hen Hst. unfold apply. rewrite Hav, Hen. cbn [negb].
  assert (Hsh : exists sp, m_shader e = Some sp /\ isValid sp = true).
  { unfold isAvailable in Hav. destruct (m_shader e); [eauto|done]. }
  destruct Hsh as (sp & Hsp & Hval). rewrite Hsp.
  fold (with_quad (log_apply (m_name e) inputTexture outputFramebuffer w)).
  set (w2 := with_quad (log_apply (m_name e) inputTexture outputFramebuffer w)).
  pose proof (with_quad_spec (log_apply (m_name e) inputTexture outputFramebuffer w))
    as (Hq1 & Hq2 & Hq3 & Hq4 & Hq5 & Hq6 & Hq7).
  fold w2 in Hq1, Hq2, Hq3, Hq4, Hq5, Hq6, Hq7.
  cbn [log_apply w_gl w_apply_log w_current] in Hq1, Hq2, Hq3, Hq4, Hq5, Hq6, Hq7.
  change (glBindTexture inputTexture
            (glActiveTexture 0
               (glViewport 0 0 width height
                  (glBindFramebuffer outputFramebuffer (use sp (w_gl w2))))))
    with (apply_prefix sp inputTexture outputFramebuffer width height (w_gl w2)).
  pose proof (apply_prefix_spec sp inputTexture outputFramebuffer width height (w_gl w2) Hval)
    as (Hp1 & Hp2 & Hp3 & Hp4 & Hp5 & Hp6 & Hp7 & Hp8).
  set (g5 := apply_prefix sp inputTexture outputFramebuffer width height (w_gl w2)) in *.
  clearbody g5.
  (* uniform phase *)
  pose proof (eff_setUniform_step "uTexture" (U1i 0) e g5) as S1.
  destruct (eff_setUniform "uTexture" (U1i 0) e g5) as [e1 g6] eqn:E1.
  pose proof (hook_frame_step e1 _ _ (glBindVertexArray_frame (s_quadVAO (w_quad w2)) g6)) as S2.
  set (g7 := glBindVertexArray (s_quadVAO (w_quad w2)) g6) in *. clearbody g7.
  pose proof (applyCustomUniforms_step e1 inputTexture width height g7) as S3.
  destruct (applyCustomUniforms e1 inputTexture width height g7) as [e2 g8] eqn:E3.
  pose proof (eff_setUniform_step "uIntensity" (U1f (m_intensity e2)) e2 g8) as S4.
  pose proof (eff_setUniform_bound "uIntensity" (U1f (m_intensity e2)) e2 g8) as B4.
  destruct (eff_setUniform "uIntensity" (U1f (m_intensity e2)) e2 g8) as [e3 g9] eqn:E4.
  cbn [fst snd] in B4.
  assert (S12 : uniform_step (e, g5) (e1, g7)) by (eapply uniform_step_trans; eassumption).
  assert (S13 : uniform_step (e, g5) (e2, g8)) by (eapply uniform_step_trans; eassumption).
  assert (S14 : uniform_step (e, g5) (e3, g9)) by (eapply uniform_step_trans; eassumption).
  destruct S14 as (Hef & Hhf & _). cbn [fst snd] in Hef, Hhf.
  unfold renderFullscreenQuad.
  change (glBindTexture 0 (glBindFramebuffer 0 (glBindVertexArray 0 (glDrawArrays g9))))
    with (apply_suffix (glDrawArrays g9)).
  pose proof (apply_suffix_spec (glDrawArrays g9)) as (Hs1 & Hs2 & Hs3 & Hs4 & Hs5).
  set (g' := apply_suffix (glDrawArrays g9)) in *. clearbody g'.
  cbn [gl_framebuffers gl_renderbuffers gl_textures gl_programs glDrawArrays set_events] in Hs1, Hs2, Hs3, Hs4.
  assert (Hfb5 : gl_framebuffers g5 = gl_framebuffers (w_gl w)).
  { rewrite Hp1, Hq1. rewrite <- Hq1. 
    apply (ensure_object_complete (w_gl w2)). 
    eapply framebuffer_status_frame; [|exact Hst]. by apply table_frame_eq. }
  assert (Htf5 : table_frame (w_gl w) g5).
  { split.
    - done.
    - by rewrite Hp2, Hq2.
    - rewrite Hp3, Hq3. apply ensure_object_subseteq.
    - intros p. rewrite Hp4, Hq4. apply same_shape_opt_refl. }
  assert (Htf9 : table_frame (w_gl w) g9).
  { eapply table_frame_trans; [exact Htf5|]. by apply hook_frame_table. }
  assert (Htf' : table_frame (w_gl w) g').
  { eapply table_frame_trans; [exact Htf9|]. by apply table_frame_eq. }
  assert (Hev9 : gl_events g9 = gl_events (w_gl w)).
  { by rewrite (hf_events _ _ Hhf), Hp5, Hq5. }
  exists e3, (set_gl g' w2). split; [reflexivity|]. split; [done|].
  cbn [set_gl on_gl w_gl w_apply_log w_current].
  split; [done|]. split; [done|]. split; [done|]. split.
  { rewrite Hs5, <- Hev9.
    destruct (glDrawArrays_events_cases g9) as [Hno|(d & Hd & Hdf & Hdc)]; [by left|right].
    exists d. split; [done|].
    rewrite (hf_framebuffer_binding _ _ Hhf), Hp6 in Hdf, Hdc. split; [done|].
    rewrite Hdc. unfold color_of. by rewrite (tf_framebuffers _ _ Htf9). }
  intros pid Hlink.
  destruct Hlink as (sp0 & pr & Hsp0 & Hid & Hpr & Hwf & Hcs).
  rewrite Hsp in Hsp0. injection Hsp0 as <-.
  (* the effect is ready to render in g5 *)
  assert (Hr5 : render_ready g5 e pid).
  { exists sp, pr. split; [done|]. split; [done|]. split.
    - rewrite <- Hid. apply Hp8. rewrite Hq4, Hid, Hpr. eauto.
    - split; [by rewrite Hp4, Hq4|]. split; [done|].
      eapply cache_sound_shape; [|exact Hcs]. apply Htf5. }
  assert (Hr8 : render_ready g8 e2 pid) by (eapply render_ready_step; eassumption).
  assert (Hr9 : render_ready g9 e3 pid).
  { eapply render_ready_step; [|exact Hr8]. exact S4. }
  specialize (B4 pid Hr8 "uIntensity"). rewrite decide_True in B4 by done.
  destruct Hr9 as (sp9 & pr9 & Hsp9 & Hid9 & Hcur9 & Hpr9 & Hwf9 & Hcs9).
  split.
  { exists sp9, pr9. split; [done|]. split; [done|]. split; [by rewrite Hs4|].
    split; [done|]. eapply cache_sound_shape; [|exact Hcs9].
    intros p. rewrite Hs4. apply same_shape_opt_refl. }
  assert (Hst9 : framebuffer_status g9 (gl_framebuffer_binding g9) = GL_FRAMEBUFFER_COMPLETE).
  { rewrite (hf_framebuffer_binding _ _ Hhf), Hp6.
    eapply framebuffer_status_frame; [exact Htf9|exact Hst]. }
  rewrite <- Hcur9 in Hpr9.
  pose proof (glDrawArrays_event g9 pr9 Hpr9 Hst9) as Hd.
  eexists. split; [rewrite Hs5, Hd, Hev9; reflexivity|].
  cbn [dc_program dc_framebuffer dc_color dc_textures dc_uniforms].
  split; [done|]. split; [by rewrite (hf_framebuffer_binding _ _ Hhf)|].
  split.
  { rewrite (hf_framebuffer_binding _ _ Hhf), Hp6. unfold color_of.
    by rewrite (tf_framebuffers _ _ Htf9). }
  split; [by rewrite (hf_unit0 _ _ Hhf)|].
  intros pr0 loc Hpr0 Hloc. rewrite Hpr in Hpr0. injection Hpr0 as <-.
  (* the program keeps its locations along the way *)
  pose proof (tf_programs _ _ Htf9 pid) as Hshape. rewrite Hpr in Hshape.
  rewrite Hcur9 in Hpr9. rewrite Hpr9 in Hshape. destruct Hshape as [Hlocs _].
  unfold uniform_bound in B4 at 1. rewrite Hpr9, <- Hlocs, Hloc in B4.
  rewrite B4.
  destruct Hr8 as (sp8 & pr8 & _ & _ & _ & Hpr8 & [Hwf8 _] & _).
  assert (Hl8 : prog_locations pr8 !! "uIntensity" = Some loc).
  { pose proof (hf_programs _ _ (proj1 (proj2 S4)) pid) as H89. cbn [fst snd] in H89.
    rewrite Hpr8, Hpr9 in H89. destruct H89 as [-> _]. by rewrite <- Hlocs. }
  destruct (Hwf8 _ _ Hl8) as [_ [x Hx]].
  unfold uniform_bound. rewrite Hpr8, Hl8, Hx. cbn.
  f_equal. f_equal. exact (effect_frame_intensity _ _ (proj1 S13)).
Qed.

End ApplyFacts.

(** ** Framebuffer creation *)

Section Framebuffers.
Context {F : Type} {fops : FloatOps F}.

(** A size that is not positive in both directions makes the call fail. *)
Lemma createFramebuffer_failure (gl : GLState F) (width height : Z) (colorFormat : N) :
  width <= 0 ∨ height <= 0 ->
  createFramebuffer width height colorFormat gl = (0%N, framebuffer_rolled_back gl).
Proof.
  intros Hbad. rewrite createFramebuffer_cases.
  destruct (bool_decide (0 < width) && bool_decide (0 < height)) eqn:Hok; [|reflexivity].
  apply andb_prop in Hok as [Hw Hh]. apply bool_decide_eq_true in Hw, Hh. lia.
Qed.

Lemma createFramebuffer_success (gl : GLState F) (width height : Z) (colorFormat : N) :
  0 < width -> 0 < height ->
  createFramebuffer width height colorFormat gl
  = (gen_name (dom (gl_framebuffers gl)), framebuffer_created width height gl).
Proof.
  intros Hw Hh. rewrite createFramebuffer_cases.
  by rewrite !bool_decide_eq_true_2.
Qed.

(** C10: with a zero width or height [createFramebuffer] returns 0, and the
    framebuffer, texture and renderbuffer tables are exactly those of the
    start: the three names generated by the call are unused again. *)
Theorem createFramebuffer_zero_size_no_leak (gl : GLState F) (width height : Z)
  (colorFormat : N) :
  width = 0 ∨ height = 0 ->
  (createFramebuffer width height colorFormat gl).1 = 0%N /\
  (let gl' := (createFramebuffer width height colorFormat gl).2 in
   gl_framebuffers gl' = gl_framebuffers gl /\
   gl_textures gl' = gl_textures gl /\
   gl_renderbuffers gl' = gl_renderbuffers gl /\
   gl_framebuffers gl' !! gen_name (dom (gl_framebuffers gl)) = None /\
   gl_textures gl' !! gen_name (dom (gl_textures gl)) = None /\
   gl_renderbuffers gl' !! gen_name (dom (gl_renderbuffers gl)) = None).
Proof.
  intros Hz. rewrite createFramebuffer_failure by lia.
  cbn [fst snd framebuffer_rolled_back gl_framebuffers gl_textures gl_renderbuffers].
  repeat split; apply gen_name_lookup.
Qed.

End Framebuffers.

Lemma createFramebuffer_zero_size_no_leak_witness :
  (0 = 0 ∨ 4 = 0) /\
  (createFramebuffer 0 4 GL_RGBA (gl_fresh_context (F:=R))).1 = 0%N /\
  (let gl' := (createFramebuffer 0 4 GL_RGBA (gl_fresh_context (F:=R))).2 in
   gl_framebuffers gl' = gl_framebuffers (gl_fresh_context (F:=R)) /\
   gl_textures gl' = gl_textures (gl_fresh_context (F:=R)) /\
   gl_renderbuffers gl' = gl_renderbuffers (gl_fresh_context (F:=R)) /\
   gl_framebuffers gl' !! gen_name (dom (gl_framebuffers (gl_fresh_context (F:=R)))) = None /\
   gl_textures gl' !! gen_name (dom (gl_textures (gl_fresh_context (F:=R)))) = None /\
   gl_renderbuffers gl' !! gen_name (dom (gl_renderbuffers (gl_fresh_context (F:=R)))) = None).
Proof.
  split; [left; reflexivity|].
  exact (createFramebuffer_zero_size_no_leak gl_fresh_context 0 4 GL_RGBA (or_introl eq_refl)).
Defined.

(** ** Claims about [GPUEffect::apply] and the hooks *)

Section EffectClaims.
Context {F : Type} {fops : FloatOps F}.

Lemma single_uniform_program_wf (name : string) :
  program_wf (single_uniform_program (F:=F) name).
Proof.
  unfold single_uniform_program. split; cbn [prog_locations prog_uniforms].
  - intros n l Hn. apply lookup_singleton_Some in Hn as [_ <-].
    split; [done|]. rewrite lookup_singleton_eq. eauto.
  - intros n1 n2 l H1 H2.
    apply lookup_singleton_Some in H1 as [<- _].
    apply lookup_singleton_Some in H2 as [<- _]. done.
Qed.

Lemma shader_linked_single (e : GPUEffect F) (pid : GLuint) (name : string) :
  m_shader e = Some (ShaderProgram_linked pid) ->
  shader_linked (gl_with_program pid (single_uniform_program name)) e pid.
Proof.
  intros Hsp. exists (ShaderProgram_linked pid), (single_uniform_program name).
  split; [done|]. split; [done|].
  split; [apply lookup_singleton_eq|]. split; [apply single_uniform_program_wf|].
  intros n l Hl. cbn [ShaderProgram_linked m_uniformLocations] in Hl.
  by rewrite lookup_empty in Hl.
Qed.

Lemma render_ready_single (e : GPUEffect F) (pid : GLuint) (name : string) :
  m_shader e = Some (ShaderProgram_linked pid) ->
  render_ready (set_current_program pid (gl_with_program pid (single_uniform_program name)))
               e pid.
Proof.
  intros Hsp. exists (ShaderProgram_linked pid), (single_uniform_program name).
  split; [done|]. split; [done|]. split; [done|].
  split; [apply lookup_singleton_eq|]. split; [apply single_uniform_program_wf|].
  intros n l Hl. cbn [ShaderProgram_linked m_uniformLocations] in Hl.
  by rewrite lookup_empty in Hl.
Qed.

(** C6 (amended): an effect whose shader never compiled makes [apply] return
    false whether it is enabled or not; a disabled effect with a compiled
    shader makes it return true.  In both cases no driver command is issued:
    the driver state and the quad statics are those of the start. *)
Theorem apply_unavailable_or_disabled (e : GPUEffect F) (inputTexture outputFramebuffer : GLuint)
  (width height : Z) (w : World F) :
  (isAvailable e = false ->
   (apply e inputTexture outputFramebuffer width height w).1 = (false, e) /\
   w_gl (apply e inputTexture outputFramebuffer width height w).2 = w_gl w /\
   w_quad (apply e inputTexture outputFramebuffer width height w).2 = w_quad w) /\
  (isAvailable e = true -> m_enabled e = false ->
   (apply e inputTexture outputFramebuffer width height w).1 = (true, e) /\
   w_gl (apply e inputTexture outputFramebuffer width height w).2 = w_gl w /\
   w_quad (apply e inputTexture outputFramebuffer width height w).2 = w_quad w).
Proof.
  split.
  - intros Hav. by rewrite apply_unavailable.
  - intros Hav Hen. by rewrite apply_disabled.
Qed.

Lemma VignetteEffect_intensity_bound (e : GPUEffect F) (gl : GLState F) pid inputTexture
  width height :
  render_ready gl e pid ->
  uniform_bound (VignetteEffect_applyCustomUniforms e inputTexture width height gl).2
                pid "uIntensity"
  = (fun _ => U1f (f_mul (m_intensity e) (getParameter e "softness")))
    <$> uniform_bound gl pid "uIntensity".
Proof.
  intros Hready. unfold VignetteEffect_applyCustomUniforms.
  assert (Hsh : is_Some (m_shader e)) by (destruct Hready as (sp & pr & -> & _); eauto).
  destruct Hsh as [sp ->]. cbv zeta.
  pose proof (eff_setUniform_step "uRadius" (U1f (getParameter e "radius")) e gl) as Hstep.
  pose proof (eff_setUniform_bound "uRadius" (U1f (getParameter e "radius")) e gl _ Hready)
    as Hbound.
  destruct (eff_setUniform "uRadius" (U1f (getParameter e "radius")) e gl) as [e1 gl1].
  pose proof (render_ready_step _ _ _ _ _ Hstep Hready) as Hready1.
  cbn [fst snd] in Hbound.
  rewrite eff_setUniform_bound by done. rewrite decide_True by done.
  rewrite Hbound, decide_False by done.
  destruct Hstep as (Hframe & _). cbn [fst snd] in Hframe.
  by rewrite (effect_frame_intensity _ _ Hframe),
             (effect_frame_getParameter _ _ _ Hframe).
Qed.

Lemma GlowEffect_intensity_bound (e : GPUEffect F) (gl : GLState F) pid inputTexture
  width height :
  render_ready gl e pid ->
  uniform_bound (GlowEffect_applyCustomUniforms e inputTexture width height gl).2
                pid "uIntensity"
  = (fun _ => U1f (f_mul (m_intensity e)
                         (f_add (f_lit 1) (f_mul (getParameter e "spread") (f_lit 2)))))
    <$> uniform_bound gl pid "uIntensity".
Proof.
  intros Hready. unfold GlowEffect_applyCustomUniforms.
  assert (Hsh : is_Some (m_shader e)) by (destruct Hready as (sp & pr & -> & _); eauto).
  destruct Hsh as [sp ->]. cbv zeta.
  pose proof (eff_setUniform_step "uThreshold" (U1f (getParameter e "threshold")) e gl)
    as Hstep.
  pose proof (eff_setUniform_bound "uThreshold" (U1f (getParameter e "threshold")) e gl _
                Hready) as Hbound.
  destruct (eff_setUniform "uThreshold" (U1f (getParameter e "threshold")) e gl) as [e1 gl1].
  pose proof (render_ready_step _ _ _ _ _ Hstep Hready) as Hready1.
  cbn [fst snd] in Hbound.
  rewrite eff_setUniform_bound by done. rewrite decide_True by done.
  rewrite Hbound, decide_False by done.
  destruct Hstep as (Hframe & _). cbn [fst snd] in Hframe.
  by rewrite (effect_frame_intensity _ _ Hframe).
Qed.

(** C7 (amended): in an [apply] that renders (effect available and
    enabled, complete target) on a shader that is a linked program whose
    location cache holds only that program's locations, the draw call sees
    the stored intensity [m_intensity] at the location of [uIntensity],
    whatever the dynamic type of the effect; this holds although the
    Vignette and Glow hooks bind that uniform to [m_intensity] scaled by
    softness or spread. *)
Theorem apply_binds_stored_intensity (e : GPUEffect F) (inputTexture outputFramebuffer : GLuint)
  (width height : Z) (w : World F) (pid : GLuint) (pr : GLProgram F) (loc : Z) :
  isAvailable e = true -> m_enabled e = true ->
  framebuffer_status (w_gl w) outputFramebuffer = GL_FRAMEBUFFER_COMPLETE ->
  shader_linked (w_gl w) e pid ->
  gl_programs (w_gl w) !! pid = Some pr ->
  prog_locations pr !! "uIntensity" = Some loc ->
  ((apply e inputTexture outputFramebuffer width height w).1.1 = true /\
   exists d,
     gl_events (w_gl (apply e inputTexture outputFramebuffer width height w).2)
       = EvDraw d :: gl_events (w_gl w) /\
     dc_program d = pid /\
     dc_uniforms d !! loc = Some (U1f (m_intensity e))) /\
  (forall gl, render_ready gl e pid ->
     uniform_bound (VignetteEffect_applyCustomUniforms e inputTexture width height gl).2
                   pid "uIntensity"
     = (fun _ => U1f (f_mul (m_intensity e) (getParameter e "softness")))
       <$> uniform_bound gl pid "uIntensity" /\
     uniform_bound (GlowEffect_applyCustomUniforms e inputTexture width height gl).2
                   pid "uIntensity"
     = (fun _ => U1f (f_mul (m_intensity e)
                            (f_add (f_lit 1) (f_mul (getParameter e "spread") (f_lit 2)))))
       <$> uniform_bound gl pid "uIntensity").
Proof.
  intros Hav Hen Hst Hlink Hpr Hloc. split.
  - destruct (apply_enabled e inputTexture outputFramebuffer width height w Hav Hen Hst)
      as (e' & w' & -> & _ & _ & _ & _ & _ & Hdraw).
    destruct (Hdraw pid Hlink) as (_ & d & Hev & Hp & _ & _ & _ & Hu).
    split; [done|]. exists d. split; [done|]. split; [done|]. by eapply Hu.
  - intros gl Hready. split.
    + by apply VignetteEffect_intensity_bound.
    + by apply GlowEffect_intensity_bound.
Qed.

(** C4 (amended): the value each hook binds when it runs as [apply] runs
    it: the effect's shader is the linked program in use, its location
    cache holds only that program's locations, and the program has the
    uniform.  HSL binds [uHue] to [(p*2 - 1) * 180] for the stored hue [p].
    ColorGrade binds [uTemperature] and [uTint] to the stored values as
    they are.  ChromaticAberration binds [uOffset] to the vector
    [(cos r * amount * 0.02, sin r * amount * 0.02)] with
    [r = direction * 3.14159 / 180]. *)
Theorem custom_uniform_translation (e : GPUEffect F) (gl : GLState F) (pid : GLuint)
  (inputTexture : GLuint) (width height : Z) :
  render_ready gl e pid ->
  uniform_bound (HSLEffect_applyCustomUniforms e inputTexture width height gl).2 pid "uHue"
    = (fun _ => U1f (f_mul (f_sub (f_mul (getParameter e "hue") (f_lit 2)) (f_lit 1))
                           (f_lit 180))) <$> uniform_bound gl pid "uHue" /\
  (forall lut,
     uniform_bound (ColorGradeEffect_applyCustomUniforms lut e inputTexture width height gl).2
                   pid "uTemperature"
       = (fun _ => U1f (getParameter e "temperature")) <$> uniform_bound gl pid "uTemperature" /\
     uniform_bound (ColorGradeEffect_applyCustomUniforms lut e inputTexture width height gl).2
                   pid "uTint"
       = (fun _ => U1f (getParameter e "tint")) <$> uniform_bound gl pid "uTint") /\
  uniform_bound (ChromaticAberrationEffect_applyCustomUniforms e inputTexture width height gl).2
                pid "uOffset"
    = (fun _ =>
         let amount := getParameter e "amount" in
         let direction :=
           f_div (f_mul (getParameter e "direction") (f_lit 3.14159)) (f_lit 180) in
         U2f (f_mul (f_mul (f_cos direction) amount) (f_lit 0.02))
             (f_mul (f_mul (f_sin direction) amount) (f_lit 0.02)))
      <$> uniform_bound gl pid "uOffset".
Proof.
  intros Hready. split; [by apply HSLEffect_hue_bound|]. split.
  - intros lut. by apply ColorGradeEffect_bound.
  - by apply ChromaticAberrationEffect_offset_bound.
Qed.

End EffectClaims.

(** *** Shader objects as [compile] leaves them *)

Section Compilation.
Context {F : Type} {fops : FloatOps F}.

Lemma compileFromSources_cache (drv : GLSLDriver F) v f g sp (gl : GLState F) :
  m_uniformLocations (compileFromSources drv v f g sp gl).1.2 = m_uniformLocations sp.
Proof.
  unfold compileFromSources, linkProgram.
  destruct (negb (compileShader drv GL_VERTEX_SHADER v)); [done|].
  destruct (negb (compileShader drv GL_FRAGMENT_SHADER f)); [done|].
  destruct (negb (String.eqb g EmptyString)
            && negb (compileShader drv GL_GEOMETRY_SHADER g)); [done|].
  by destruct (glsl_links drv v f g).
Qed.

Lemma compileFromSources_success (drv : GLSLDriver F) v f g sp (gl : GLState F) :
  (compileFromSources drv v f g sp gl).1.1 = true ->
  exists pr,
    glsl_links drv v f g = Some pr /\
    compileFromSources drv v f g sp gl
    = (true,
       {| m_programId := gen_name (dom (gl_programs gl));
          m_uniformLocations := m_uniformLocations sp |},
       set_programs <[gen_name (dom (gl_programs gl)) := pr]> gl).
Proof.
  unfold compileFromSources, linkProgram, glCreateProgram, glLinkProgram.
  destruct (negb (compileShader drv GL_VERTEX_SHADER v)); [done|].
  destruct (negb (compileShader drv GL_FRAGMENT_SHADER f)); [done|].
  destruct (negb (String.eqb g EmptyString)
            && negb (compileShader drv GL_GEOMETRY_SHADER g)); [done|].
  destruct (glsl_links drv v f g) as [pr|]; [|done]. intros _.
  exists pr. split; [done|]. f_equal.
  destruct gl as [fbs texs rbs progs vaos bufs fbb act tb rbb curp vab vp cc evs].
  unfold set_programs. cbn. by rewrite alter_insert_eq.
Qed.

(** A shader object compiled before any uniform was looked up on it is a
    linked program with a sound location cache. *)
Lemma compileFromSources_shader_linked (drv : GLSLDriver F) v f g sp (gl : GLState F)
  (e : GPUEffect F) :
  m_uniformLocations sp = ∅ ->
  (compileFromSources drv v f g sp gl).1.1 = true ->
  (forall pr, glsl_links drv v f g = Some pr -> program_wf pr) ->
  m_shader e = Some (compileFromSources drv v f g sp gl).1.2 ->
  isAvailable e = true /\
  shader_linked (compileFromSources drv v f g sp gl).2 e
                (m_programId (compileFromSources drv v f g sp gl).1.2).
Proof.
  intros Hcache Hok Hwf.
  destruct (compileFromSources_success drv v f g sp gl Hok) as (pr & Hpr & ->).
  cbn [fst snd]. intros Hsh.
  pose proof (gen_name_nonzero (dom (gl_programs gl))) as Hn0.
  split.
  - unfold isAvailable, isValid. rewrite Hsh. cbn [m_programId].
    by destruct (N.eqb_spec (gen_name (dom (gl_programs gl))) 0).
  - eexists _, pr. split; [exact Hsh|]. cbn [m_programId m_uniformLocations].
    split; [done|]. split; [cbn [set_programs gl_programs]; by rewrite lookup_insert_eq|].
    split; [by apply Hwf|].
    intros n l Hl. cbn [m_uniformLocations] in Hl. by rewrite Hcache, lookup_empty in Hl.
Qed.
End Compilation.

(** *** Concrete runs over the reals *)

Lemma apply_unavailable_or_disabled_witness :
  (isAvailable (HSLEffect_new (F:=R)) = false /\
   (apply (HSLEffect_new (F:=R)) 7 1 64 64 (world_of gl_fresh_context)).1
     = (false, HSLEffect_new) /\
   w_gl (apply (HSLEffect_new (F:=R)) 7 1 64 64 (world_of gl_fresh_context)).2
     = gl_fresh_context /\
   w_quad (apply (HSLEffect_new (F:=R)) 7 1 64 64 (world_of gl_fresh_context)).2
     = w_quad (world_of (gl_fresh_context (F:=R)))) /\
  (isAvailable (setEnabled false
                  (GPUEffect_new (F:=R) "Pass" COLOR (Some (ShaderProgram_linked 1)))) = true /\
   m_enabled (setEnabled false
                (GPUEffect_new (F:=R) "Pass" COLOR (Some (ShaderProgram_linked 1)))) = false /\
   (apply (setEnabled false (GPUEffect_new (F:=R) "Pass" COLOR (Some (ShaderProgram_linked 1))))
          7 1 64 64 (world_of gl_fresh_context)).1
     = (true, setEnabled false (GPUEffect_new "Pass" COLOR (Some (ShaderProgram_linked 1)))) /\
   w_gl (apply (setEnabled false
                  (GPUEffect_new (F:=R) "Pass" COLOR (Some (ShaderProgram_linked 1))))
               7 1 64 64 (world_of gl_fresh_context)).2 = gl_fresh_context /\
   w_quad (apply (setEnabled false
                    (GPUEffect_new (F:=R) "Pass" COLOR (Some (ShaderProgram_linked 1))))
                 7 1 64 64 (world_of gl_fresh_context)).2
     = w_quad (world_of (gl_fresh_context (F:=R)))).
Proof.
  split.
  - split; [reflexivity|].
    exact (proj1 (apply_unavailable_or_disabled HSLEffect_new 7 1 64 64
                    (world_of gl_fresh_context)) eq_refl).
  - split; [reflexivity|]. split; [reflexivity|].
    exact (proj2 (apply_unavailable_or_disabled
                    (setEnabled false (GPUEffect_new "Pass" COLOR (Some (ShaderProgram_linked 1))))
                    7 1 64 64 (world_of gl_fresh_context)) eq_refl eq_refl).
Defined.

(** A disabled effect whose shader never compiled: [apply] returns false. *)
Lemma apply_disabled_unavailable_counterexample :
  m_enabled (setEnabled false (HSLEffect_new (F:=R))) = false /\
  (apply (setEnabled false (HSLEffect_new (F:=R))) 7 1 64 64 (world_of gl_fresh_context)).1.1
    = false.
Proof. split; reflexivity. Qed.

Lemma apply_binds_stored_intensity_witness :
  let compiled := compileFromSources (GLSLDriver_single_uniform "uIntensity") "v" "f"
                                     EmptyString ShaderProgram_new
                                     (gl_fresh_context (F:=R)) in
  let e := GPUEffect_new "fx" LIGHT (Some compiled.1.2) in
  let w := world_of compiled.2 in
  isAvailable e = true /\ m_enabled e = true /\
  framebuffer_status (w_gl w) 0 = GL_FRAMEBUFFER_COMPLETE /\
  shader_linked (w_gl w) e 1 /\
  gl_programs (w_gl w) !! 1%N = Some (single_uniform_program "uIntensity") /\
  prog_locations (single_uniform_program (F:=R) "uIntensity") !! "uIntensity" = Some 0 /\
  ((apply e 7 0 64 64 w).1.1 = true /\
   exists d,
     gl_events (w_gl (apply e 7 0 64 64 w).2) = EvDraw d :: gl_events (w_gl w) /\
     dc_program d = 1%N /\
     dc_uniforms d !! 0 = Some (U1f (m_intensity e))) /\
  (forall gl, render_ready gl e 1 ->
     uniform_bound (VignetteEffect_applyCustomUniforms e 7 64 64 gl).2 1 "uIntensity"
     = (fun _ => U1f (f_mul (m_intensity e) (getParameter e "softness")))
       <$> uniform_bound gl 1 "uIntensity" /\
     uniform_bound (GlowEffect_applyCustomUniforms e 7 64 64 gl).2 1 "uIntensity"
     = (fun _ => U1f (f_mul (m_intensity e)
                            (f_add (f_lit 1) (f_mul (getParameter e "spread") (f_lit 2)))))
       <$> uniform_bound gl 1 "uIntensity").
Proof.
  intros compiled e w.
  assert (Hlink : shader_linked (w_gl w) e 1).
  { refine (proj2 (compileFromSources_shader_linked
                     (GLSLDriver_single_uniform "uIntensity") "v" "f" EmptyString
                     ShaderProgram_new gl_fresh_context e eq_refl eq_refl _ eq_refl)).
    intros pr [= <-]. apply single_uniform_program_wf. }
  assert (Hpr : gl_programs (w_gl w) !! 1%N = Some (single_uniform_program "uIntensity"))
    by (vm_compute; reflexivity).
  assert (Hloc : prog_locations (single_uniform_program (F:=R) "uIntensity") !! "uIntensity"
                 = Some 0) by apply lookup_singleton_eq.
  split; [reflexivity|]. split; [reflexivity|]. split; [reflexivity|].
  split; [exact Hlink|]. split; [exact Hpr|]. split; [exact Hloc|].
  exact (apply_binds_stored_intensity e 7 0 64 64 w 1 _ 0 eq_refl eq_refl eq_refl
           Hlink Hpr Hloc).
Defined.

(** The same shader object, after one [setUniform] for [uIntensity] before
    it was compiled: the location cached then is -1, [apply] returns true
    and draws, and the draw sees the initial value of the uniform instead
    of [m_intensity]. *)
Lemma apply_stale_location_counterexample :
  let sp0 := (setUniform ShaderProgram_new "uIntensity" (U1f (Q2R 0.5))
                         (gl_fresh_context (F:=R))).1 in
  let compiled := compileFromSources (GLSLDriver_single_uniform "uIntensity") "v" "f"
                                     EmptyString sp0 gl_fresh_context in
  let e := GPUEffect_new "fx" LIGHT (Some compiled.1.2) in
  let result := apply e 7 0 64 64 (world_of compiled.2) in
  compiled.1.1 = true /\
  isAvailable e = true /\ m_enabled e = true /\
  gl_programs compiled.2 !! 1%N = Some (single_uniform_program "uIntensity") /\
  result.1.1 = true /\
  exists d,
    gl_events (w_gl result.2) = [EvDraw d] /\
    dc_program d = 1%N /\
    dc_uniforms d !! 0 = Some (U1f (Q2R 0)) /\
    dc_uniforms d !! 0 <> Some (U1f (m_intensity e)).
Proof.
  intros sp0 compiled e result.
  split; [vm_compute; reflexivity|]. split; [vm_compute; reflexivity|].
  split; [vm_compute; reflexivity|]. split; [vm_compute; reflexivity|].
  split; [vm_compute; reflexivity|].
  vm_compute. eexists. split; [reflexivity|]. split; [reflexivity|]. split; [reflexivity|].
  intros H. injection H as H.
  change R1 with 1%R in H. change R0 with 0%R in H. lra.
Qed.

Lemma custom_uniform_translation_witness :
  let e := set_shader (Some (ShaderProgram_linked 1)) (HSLEffect_new (F:=R)) in
  let gl := set_current_program 1 (gl_with_program 1 (single_uniform_program "uHue")) in
  render_ready gl e 1 /\
  uniform_bound (HSLEffect_applyCustomUniforms e 7 64 64 gl).2 1 "uHue"
    = (fun _ => U1f (f_mul (f_sub (f_mul (getParameter e "hue") (f_lit 2)) (f_lit 1))
                           (f_lit 180))) <$> uniform_bound gl 1 "uHue" /\
  (forall lut,
     uniform_bound (ColorGradeEffect_applyCustomUniforms lut e 7 64 64 gl).2 1 "uTemperature"
       = (fun _ => U1f (getParameter e "temperature")) <$> uniform_bound gl 1 "uTemperature" /\
     uniform_bound (ColorGradeEffect_applyCustomUniforms lut e 7 64 64 gl).2 1 "uTint"
       = (fun _ => U1f (getParameter e "tint")) <$> uniform_bound gl 1 "uTint") /\
  uniform_bound (ChromaticAberrationEffect_applyCustomUniforms e 7 64 64 gl).2 1 "uOffset"
    = (fun _ =>
         let amount := getParameter e "amount" in
         let direction :=
           f_div (f_mul (getParameter e "direction") (f_lit 3.14159)) (f_lit 180) in
         U2f (f_mul (f_mul (f_cos direction) amount) (f_lit 0.02))
             (f_mul (f_mul (f_sin direction) amount) (f_lit 0.02)))
      <$> uniform_bound gl 1 "uOffset".
Proof.
  intros e gl.
  assert (Hready : render_ready gl e 1) by (by apply render_ready_single).
  split; [exact Hready|].
  exact (custom_uniform_translation e gl 1 7 64 64 Hready).
Defined.

(** The ColorGrade hook at the default temperature 0.5 binds 0.5, not
    [(2 * 0.5 - 1) * 100 = 0]. *)
Lemma colorgrade_temperature_counterexample :
  let e := set_shader (Some (ShaderProgram_linked 1)) (ColorGradeEffect_new (F:=R)) in
  let gl := set_current_program 1 (gl_with_program 1 (single_uniform_program "uTemperature")) in
  let p := getParameter e "temperature" in
  uniform_bound (ColorGradeEffect_applyCustomUniforms 0 e 7 64 64 gl).2 1 "uTemperature"
  <> Some (U1f (f_mul (f_sub (f_mul (f_lit 2) p) (f_lit 1)) (f_lit 100))).
Proof.
  intros e gl p.
  assert (Hready : render_ready gl e 1) by (by apply render_ready_single).
  rewrite (proj1 (ColorGradeEffect_bound e gl 1 0 7 64 64 Hready)).
  assert (Hp : p = Q2R 0.5) by reflexivity.
  assert (Hb : uniform_bound gl 1 "uTemperature" = Some (U1f (Q2R 0))) by reflexivity.
  rewrite Hb. fold p. rewrite Hp. cbn [fmap option_fmap option_map f_mul f_sub f_lit real_float].
  intros H. injection H as H. unfold Q2R in H. simpl in H. lra.
Qed.

(** ** The effect registry of the renderer *)

Section Registry.
Context {F : Type} {fops : FloatOps F}.

(** The guard of [addEffect] is [!effect || !effect->getName().empty()]:
    it lets through exactly the effects whose name is empty. *)
Lemma addEffect_named_rejected (e : GPUEffect F) (r : GPURenderer F) :
  getName e ≠ EmptyString -> addEffect (Some e) r = (false, r).
Proof.
  intros Hne. unfold addEffect.
  destruct (String.eqb (getName e) EmptyString) eqn:E; [|reflexivity].
  apply String.eqb_eq in E. done.
Qed.

Lemma addEffect_null_rejected (r : GPURenderer F) : addEffect None r = (false, r).
Proof. reflexivity. Qed.

Lemma addEffect_unnamed_accepted (e : GPUEffect F) (r : GPURenderer F) :
  getName e = EmptyString -> m_effects r !! EmptyString = None ->
  (addEffect (Some e) r).1 = true /\
  getEffectNames (addEffect (Some e) r).2 = getEffectNames r ++ [EmptyString].
Proof.
  intros Hname Hfree. unfold addEffect. rewrite Hname. cbn [String.eqb negb].
  by rewrite Hfree.
Qed.

(** The registry operations keep every name of the execution order
    registered, which is what the chain relies on when it looks an effect
    up by name. *)
Lemma chain_names_registered_new : chain_names_registered (GPURenderer_new (F:=F)).
Proof. intros name Hin. by apply elem_of_nil in Hin. Qed.

Lemma chain_names_registered_addEffect (effect : option (GPUEffect F)) (r : GPURenderer F) :
  chain_names_registered r -> chain_names_registered (addEffect effect r).2.
Proof.
  intros Hreg. unfold addEffect. destruct effect as [e|]; [|done].
  destruct (negb (String.eqb (getName e) EmptyString)); [done|].
  destruct (m_effects r !! getName e) eqn:E; [done|].
  intros name Hin. cbn [snd set_effectOrder set_effects m_effectOrder m_effects] in *.
  destruct (decide (name = getName e)) as [->|Hne].
  - rewrite lookup_insert_eq. eauto.
  - rewrite lookup_insert_ne by done. apply Hreg.
    apply elem_of_app in Hin as [Hin|Hin]; [done|].
    apply elem_of_cons in Hin as [->|Hin]; [done|]. by apply elem_of_nil in Hin.
Qed.

Lemma chain_names_registered_clearEffects (r : GPURenderer F) :
  chain_names_registered (clearEffects r).
Proof. intros name Hin. by apply elem_of_nil in Hin. Qed.

End Registry.

(** C1: the code at the input of the claim.  On a new renderer, adding
    effects named A, B and C fails three times and the name list stays
    empty, where the claim requires three successes and the list [A; B; C]. *)
Theorem addEffect_rejects_named_effects :
  let r0 := GPURenderer_new (F:=R) in
  let A := GPUEffect_new "A" COLOR None in
  let B := GPUEffect_new "B" COLOR None in
  let C := GPUEffect_new "C" COLOR None in
  (addEffect (Some A) r0).1 = false /\
  (addEffect (Some B) (addEffect (Some A) r0).2).1 = false /\
  (addEffect (Some C) (addEffect (Some B) (addEffect (Some A) r0).2).2).1 = false /\
  getEffectNames (addEffect (Some C) (addEffect (Some B) (addEffect (Some A) r0).2).2).2 = [].
Proof. repeat split. Qed.

(** ** The effect chain *)

Section ChainFacts.
Context {F : Type} {fops : FloatOps F}.

Lemma shader_linked_shape (s s' : GLState F) e pid :
  (forall p, same_shape_opt (gl_programs s !! p) (gl_programs s' !! p)) ->
  shader_linked s e pid -> shader_linked s' e pid.
Proof.
  intros Hp (sp & pr & Hsp & Hid & Hpr & Hwf & Hcs).
  pose proof (Hp pid) as Hpp. rewrite Hpr in Hpp.
  destruct (gl_programs s' !! pid) as [pr'|] eqn:E; [|done]. simpl in Hpp.
  exists sp, pr'. split; [done|]. split; [done|]. split; [done|].
  split; [by eapply program_wf_same_shape|]. by eapply cache_sound_shape.
Qed.

Lemma framebuffer_created_status (width height : Z) (gl : GLState F) :
  0 < width -> 0 < height ->
  framebuffer_status (framebuffer_created width height gl)
                     (gen_name (dom (gl_framebuffers gl))) = GL_FRAMEBUFFER_COMPLETE.
Proof.
  intros Hw Hh.
  pose proof (gen_name_nonzero (dom (gl_framebuffers gl))) as Hf0.
  pose proof (gen_name_nonzero (dom (gl_textures gl))) as Ht0.
  pose proof (gen_name_nonzero (dom (gl_renderbuffers gl))) as Hr0.
  unfold framebuffer_status, framebuffer_created.
  cbn [gl_framebuffers gl_textures gl_renderbuffers].
  rewrite decide_False by done. rewrite lookup_insert_eq. cbn [fb_color fb_depth].
  rewrite !decide_False by tauto. rewrite !lookup_insert_eq.
  cbn [tex_size rb_size positive_size]. by rewrite !bool_decide_eq_true_2.
Qed.

Lemma createIntermediateFramebuffer_success (r : GPURenderer F) (w : World F) :
  0 < renderWidth (m_config r) -> 0 < renderHeight (m_config r) ->
  createIntermediateFramebuffer r w
  = (gen_name (dom (gl_framebuffers (w_gl w))),
     set_intermediateFramebuffers
       (fun l => l ++ [gen_name (dom (gl_framebuffers (w_gl w)))]) r,
     set_gl (framebuffer_created (renderWidth (m_config r)) (renderHeight (m_config r))
                                 (w_gl w)) w).
Proof.
  intros Hw Hh. unfold createIntermediateFramebuffer.
  rewrite createFramebuffer_success by done.
  pose proof (gen_name_nonzero (dom (gl_framebuffers (w_gl w)))) as Hf0.
  destruct (N.eqb_spec (gen_name (dom (gl_framebuffers (w_gl w)))) 0); [done|].
  reflexivity.
Qed.

Lemma createIntermediateFramebuffer_failure (r : GPURenderer F) (w : World F) :
  renderWidth (m_config r) <= 0 ∨ renderHeight (m_config r) <= 0 ->
  createIntermediateFramebuffer r w = (0%N, r, set_gl (framebuffer_rolled_back (w_gl w)) w).
Proof.
  intros Hbad. unfold createIntermediateFramebuffer.
  by rewrite createFramebuffer_failure.
Qed.

Lemma getFramebufferTexture_spec (gl : GLState F) fbo fb :
  gl_framebuffers gl !! fbo = Some fb ->
  (getFramebufferTexture fbo gl).1 = fb_color fb /\
  gl_framebuffers (getFramebufferTexture fbo gl).2 = gl_framebuffers gl /\
  gl_renderbuffers (getFramebufferTexture fbo gl).2 = gl_renderbuffers gl /\
  gl_textures (getFramebufferTexture fbo gl).2 = gl_textures gl /\
  gl_programs (getFramebufferTexture fbo gl).2 = gl_programs gl /\
  gl_events (getFramebufferTexture fbo gl).2 = gl_events gl.
Proof.
  intros Hfb. unfold getFramebufferTexture, glGetFramebufferAttachmentObjectName.
  destruct gl as [fbs texs rbs progs vaos bufs fbb act tb rbb curp vab vp cc evs].
  cbn [gl_framebuffers] in Hfb.
  cbv beta iota zeta delta [glBindFramebuffer set_framebuffer_binding set_framebuffers
    gl_framebuffers gl_textures gl_renderbuffers gl_programs gl_vertex_arrays gl_buffers
    gl_framebuffer_binding gl_active_texture gl_texture_binding gl_renderbuffer_binding
    gl_current_program gl_vertex_array_binding gl_viewport gl_clear_color gl_events fst snd].
  rewrite (ensure_object_existing _ _ _ _ Hfb), ensure_object_zero, Hfb. done.
Qed.

Lemma deleteFramebuffer_spec (gl : GLState F) fbo :
  gl_framebuffers (deleteFramebuffer fbo gl)
    = (if (fbo =? 0)%N then gl_framebuffers gl else delete fbo (gl_framebuffers gl)) /\
  gl_renderbuffers (deleteFramebuffer fbo gl) = gl_renderbuffers gl /\
  gl_textures (deleteFramebuffer fbo gl) = gl_textures gl /\
  gl_programs (deleteFramebuffer fbo gl) = gl_programs gl /\
  gl_events (deleteFramebuffer fbo gl) = gl_events gl.
Proof. unfold deleteFramebuffer. by destruct (fbo =? 0)%N. Qed.

Lemma chain_frame_refl (r : GPURenderer F) (w : World F) : chain_frame r w r w.
Proof.
  split; try done.
  - intros name. destruct (m_effects r !! name); [apply effect_frame_refl|done].
  - intros p. apply same_shape_opt_refl.
  - by exists [].
  - by exists [].
Qed.

Lemma chain_frame_trans (r1 : GPURenderer F) (w1 : World F) r2 w2 r3 w3 :
  chain_frame r1 w1 r2 w2 -> chain_frame r2 w2 r3 w3 -> chain_frame r1 w1 r3 w3.
Proof.
  intros [A1 A2 A3 A4 A5 A6 A7 AR A8 A9 A10 A11] [B1 B2 B3 B4 B5 B6 B7 BR B8 B9 B10 B11].
  split; try congruence.
  - intros name. specialize (A5 name). specialize (B5 name).
    destruct (m_effects r1 !! name), (m_effects r2 !! name), (m_effects r3 !! name);
      try done. by eapply effect_frame_trans.
  - by etrans.
  - by etrans.
  - by etrans.
  - intros p. by eapply same_shape_opt_trans.
  - destruct A10 as (n1 & E1 & F1), B10 as (n2 & E2 & F2).
    exists (n2 ++ n1). split; [by rewrite E2, E1, app_assoc|].
    apply Forall_app. split; [|done].
    eapply Forall_impl; [exact F2|]. intros entry Hn Hin. apply Hn.
    apply elem_of_dom. apply elem_of_dom in Hin as [fb Hfb].
    exists fb. by eapply lookup_weaken.
  - destruct A11 as (n1 & E1 & F1), B11 as (n2 & E2 & F2).
    exists (n2 ++ n1). split; [by rewrite E2, E1, app_assoc|].
    apply Forall_app. split; [|done].
    eapply Forall_impl; [exact F2|]. intros ev (d & -> & Hn). exists d. split; [done|].
    intros Hin. apply Hn.
    apply elem_of_dom. apply elem_of_dom in Hin as [fb Hfb].
    exists fb. by eapply lookup_weaken.
Qed.

Lemma effect_frame_program (e e' : GPUEffect F) :
  effect_frame e e' -> effect_program e' = effect_program e.
Proof.
  intros [_ H]. unfold effect_program.
  destruct (m_shader e), (m_shader e'); simpl in H; try done. by injection H.
Qed.

Lemma stage_effects (r : GPURenderer F) name e e' f :
  m_effects r !! name = Some e -> effect_frame e e' ->
  forall n,
    match m_effects r !! n,
          m_effects (set_effects <[name := e']> (set_intermediateFramebuffers f r)) !! n with
    | Some a, Some b => effect_frame a b
    | None, None => True
    | _, _ => False
    end.
Proof.
  intros Hl Hf n. cbn [set_effects set_intermediateFramebuffers m_effects].
  destruct (decide (n = name)) as [->|Hne].
  - by rewrite lookup_insert_eq, Hl.
  - rewrite lookup_insert_ne by done.
    destruct (m_effects r !! n); [apply effect_frame_refl|done].
Qed.

Lemma successfully_applied_frame (r : GPURenderer F) (w : World F) r' w' name :
  chain_frame r w r' w' -> successfully_applied r' name = successfully_applied r name.
Proof.
  intros Hcf. unfold successfully_applied. rewrite (cf_config _ _ _ _ Hcf).
  pose proof (cf_effects _ _ _ _ Hcf name) as He.
  destruct (m_effects r !! name) as [e|], (m_effects r' !! name) as [e'|]; try done.
  unfold isEnabled.
  by rewrite (effect_frame_enabled _ _ He), (effect_frame_available _ _ He).
Qed.

Lemma render_image_frame (r : GPURenderer F) (w : World F) r' w' img name :
  chain_frame r w r' w' -> render_image r' img name = render_image r img name.
Proof.
  intros Hcf. unfold render_image.
  pose proof (cf_effects _ _ _ _ Hcf name) as He.
  destruct (m_effects r !! name) as [e|], (m_effects r' !! name) as [e'|]; try done.
  by rewrite (effect_frame_program _ _ He).
Qed.

Lemma chain_fold_frame (r : GPURenderer F) (w : World F) r' w' names img :
  chain_frame r w r' w' -> chain_fold r' names img = chain_fold r names img.
Proof.
  intros Hcf. unfold chain_fold. revert img.
  induction names as [|n names IH]; intros img; [done|].
  destruct (successfully_applied r n) eqn:E.
  - rewrite !filter_cons_True
      by (by rewrite ?(successfully_applied_frame _ _ _ _ _ Hcf)).
    cbn [fold_left]. rewrite (render_image_frame _ _ _ _ _ _ Hcf). apply IH.
  - rewrite !filter_cons_False
      by (rewrite ?(successfully_applied_frame _ _ _ _ _ Hcf); congruence).
    apply IH.
Qed.

Lemma chain_linked_other (r : GPURenderer F) (gl gl' : GLState F) name e e' f :
  m_effects r !! name = Some e ->
  (forall p, same_shape_opt (gl_programs gl !! p) (gl_programs gl' !! p)) ->
  (isAvailable e = true -> shader_linked gl e (effect_program e) ->
   shader_linked gl' e' (effect_program e')) ->
  effect_frame e e' ->
  chain_linked r gl ->
  chain_linked (set_effects <[name := e']> (set_intermediateFramebuffers f r)) gl'.
Proof.
  intros Hl Hp Hname Hfr Hcl n x.
  cbn [set_effects set_intermediateFramebuffers m_effects].
  destruct (decide (n = name)) as [->|Hne].
  - rewrite lookup_insert_eq. intros [= <-] Hav.
    rewrite (effect_frame_available _ _ Hfr) in Hav. apply Hname; [done|].
    by eapply Hcl.
  - rewrite lookup_insert_ne by done. intros Hx Hav.
    eapply shader_linked_shape; [exact Hp|]. by eapply Hcl.
Qed.

Lemma content_new_draws (new evs : list (GLEvent F)) t :
  Forall (fun ev => exists d, ev = EvDraw d /\ dc_color d <> t) new ->
  content (new ++ evs) t = content evs t.
Proof.
  induction 1 as [|ev new (d & -> & Hne) _ IH]; [done|].
  cbn [app content]. by rewrite decide_False.
Qed.

(** One position of the chain. *)
Lemma chain_stage name rest cur (r : GPURenderer F) (w : World F) e :
  m_effects r !! name = Some e ->
  exists cur1 r1 w1,
    applyEffectChain_loop (name :: rest) cur r w = applyEffectChain_loop rest cur1 r1 w1 /\
    chain_frame r w r1 w1 /\
    (successfully_applied r name = false ->
       cur1 = cur /\ gl_events (w_gl w1) = gl_events (w_gl w) /\
       gl_framebuffers (w_gl w1) = gl_framebuffers (w_gl w)) /\
    (chain_linked r (w_gl w) ->
       chain_linked r1 (w_gl w1) /\
       (successfully_applied r name = true ->
          content (gl_events (w_gl w1)) cur1
          = ImgDrawn (effect_program e) (content (gl_events (w_gl w)) cur))).
Proof.
  intros Hl. cbn [applyEffectChain_loop]. rewrite Hl.
  unfold successfully_applied. rewrite Hl.
  destruct (isEnabled e) eqn:Hen; cbn [negb andb].
  2:{ exists cur, r, w. split; [done|]. split; [apply chain_frame_refl|]. done. }
  destruct (decide (0 < renderWidth (m_config r) /\ 0 < renderHeight (m_config r)))
    as [[Hw Hh]|Hbad].
  2:{ rewrite createIntermediateFramebuffer_failure by lia.
      cbv beta iota zeta. cbn [N.eqb].
      exists cur, r, (set_gl (framebuffer_rolled_back (w_gl w)) w).
      split; [done|]. split.
      { split; try done.
        - intros n. destruct (m_effects r !! n); [apply effect_frame_refl|done].
        - intros p. apply same_shape_opt_refl.
        - by exists [].
        - by exists []. }
      split; [done|]. intros Hcl. split.
      { intros n x Hx Hav. eapply shader_linked_shape; [|by eapply Hcl].
        intros p. apply same_shape_opt_refl. }
      intros Hs. exfalso.
      apply andb_prop in Hs as [Hs H2]. apply andb_prop in Hs as [_ H1].
      apply bool_decide_eq_true in H1, H2. tauto. }
  rewrite createIntermediateFramebuffer_success by done.
  cbv beta iota zeta.
  set (fbo := gen_name (dom (gl_framebuffers (w_gl w)))).
  set (W := renderWidth (m_config r)) in *. set (H := renderHeight (m_config r)) in *.
  change (renderWidth (m_config (set_intermediateFramebuffers (fun l => l ++ [fbo]) r)))
    with W.
  change (renderHeight (m_config (set_intermediateFramebuffers (fun l => l ++ [fbo]) r)))
    with H.
  pose proof (gen_name_nonzero (dom (gl_framebuffers (w_gl w)))) as Hf0. fold fbo in Hf0.
  pose proof (gen_name_lookup (gl_framebuffers (w_gl w))) as Hfl. fold fbo in Hfl.
  pose proof (gen_name_lookup (gl_textures (w_gl w))) as Htl.
  destruct (N.eqb_spec fbo 0) as [|_]; [done|].
  rewrite !bool_decide_eq_true_2 by done. rewrite !andb_true_r.
  set (w1 := set_gl (framebuffer_created W H (w_gl w)) w).
  assert (Hfbs1 : gl_framebuffers (w_gl w1)
                  = <[fbo := {| fb_color := gen_name (dom (gl_textures (w_gl w)));
                                fb_depth := gen_name (dom (gl_renderbuffers (w_gl w))) |}]>
                      (gl_framebuffers (w_gl w))) by reflexivity.
  assert (Htex1 : gl_textures (w_gl w1)
                  = <[gen_name (dom (gl_textures (w_gl w)))
                      := {| tex_size := Some (W, H) |}]> (gl_textures (w_gl w)))
    by reflexivity.
  assert (Hrb1 : gl_renderbuffers (w_gl w1)
                 = <[gen_name (dom (gl_renderbuffers (w_gl w)))
                     := {| rb_size := Some (W, H) |}]> (gl_renderbuffers (w_gl w)))
    by reflexivity.
  assert (Hprog1 : gl_programs (w_gl w1) = gl_programs (w_gl w)) by reflexivity.
  assert (Hev1 : gl_events (w_gl w1) = gl_events (w_gl w)) by reflexivity.
  assert (Hlog1 : w_apply_log w1 = w_apply_log w) by reflexivity.
  assert (Hcur1 : w_current w1 = w_current w) by reflexivity.
  assert (Hst1 : framebuffer_status (w_gl w1) fbo = GL_FRAMEBUFFER_COMPLETE)
    by (by apply framebuffer_created_status).
  assert (Hcol1 : color_of (w_gl w1) fbo = gen_name (dom (gl_textures (w_gl w)))).
  { unfold color_of. rewrite Hfbs1, lookup_insert_eq. reflexivity. }
  clearbody w1.
  destruct (isAvailable e) eqn:Hav.
  - (* the effect renders *)
    destruct (apply_enabled e cur fbo W H w1 Hav Hen Hst1)
      as (e' & w2 & Happ & Hef & Htf & Hlog2 & Hcur2 & Hev2 & Hlinked).
    rewrite Happ. cbv beta iota zeta. cbn [negb].
    destruct Htf as [T1 T2 T3 T4].
    assert (Hfb2 : gl_framebuffers (w_gl w2) !! fbo
                   = Some {| fb_color := gen_name (dom (gl_textures (w_gl w)));
                             fb_depth := gen_name (dom (gl_renderbuffers (w_gl w))) |}).
    { by rewrite T1, Hfbs1, lookup_insert_eq. }
    pose proof (getFramebufferTexture_spec (w_gl w2) fbo _ Hfb2)
      as (G1 & G2 & G3 & G4 & G5 & G6).
    destruct (getFramebufferTexture fbo (w_gl w2)) as [tex gl3].
    cbn [fst snd fb_color] in G1, G2, G3, G4, G5, G6. subst tex.
    eexists _, _, _. split; [reflexivity|].
    split.
    { split.
      - reflexivity.
      - reflexivity.
      - reflexivity.
      - reflexivity.
      - eapply stage_effects; [exact Hl|exact Hef].
      - cbn [set_gl on_gl w_gl]. rewrite G2, T1, Hfbs1. by apply insert_subseteq.
      - cbn [set_gl on_gl w_gl]. rewrite G4. etrans; [|exact T3].
        rewrite Htex1. by apply insert_subseteq.
      - cbn [set_gl on_gl w_gl]. rewrite G3, T2, Hrb1. apply insert_subseteq.
        apply gen_name_lookup.
      - cbn [set_gl on_gl w_gl]. rewrite G5. intros p. rewrite <- Hprog1. apply T4.
      - cbn [set_gl on_gl w_current]. congruence.
      - exists [(m_name e, cur, fbo)]. cbn [set_gl on_gl w_apply_log].
        split; [by rewrite Hlog2, Hlog1|].
        apply Forall_singleton. cbn [snd]. by apply not_elem_of_dom.
      - cbn [set_gl on_gl w_gl]. rewrite G6.
        destruct Hev2 as [Hsame|(d & Hd & _ & Hc)].
        + exists []. split; [by rewrite Hsame, Hev1|]. constructor.
        + exists [EvDraw d]. split; [by rewrite Hd, Hev1|].
          apply Forall_singleton. exists d. split; [done|].
          rewrite Hc, Hcol1. by apply not_elem_of_dom. }
    split; [done|].
    intros Hcl. cbn [set_gl on_gl w_gl].
    assert (Hl1 : shader_linked (w_gl w1) e (effect_program e)).
    { eapply shader_linked_shape; [|by eapply Hcl].
      intros p. rewrite Hprog1. apply same_shape_opt_refl. }
    destruct (Hlinked _ Hl1) as (Hl2 & d & Hd & Hdp & _ & Hdc & Hdt & _).
    split.
    { eapply chain_linked_other; [exact Hl| |intros _ _|exact Hef|exact Hcl].
      - intros p. rewrite G5, <- Hprog1. apply T4.
      - rewrite (effect_frame_program _ _ Hef).
        eapply shader_linked_shape; [|exact Hl2].
        intros p. rewrite G5. apply same_shape_opt_refl. }
    intros _. rewrite G6, Hd, Hev1. cbn [content].
    rewrite decide_True by (by rewrite Hdc, Hcol1).
    by rewrite Hdp, Hdt.
  - (* apply fails: the stage framebuffer is deleted *)
    rewrite apply_unavailable by done. cbv beta iota zeta. cbn [negb].
    pose proof (deleteFramebuffer_spec (w_gl w1) fbo) as (D1 & D2 & D3 & D4 & D5).
    destruct (N.eqb_spec fbo 0) as [|_]; [done|].
    assert (Hfbs3 : gl_framebuffers (deleteFramebuffer fbo (w_gl w1))
                    = gl_framebuffers (w_gl w)).
    { rewrite D1, Hfbs1. by apply delete_insert_id. }
    eexists _, _, _. split; [reflexivity|].
    cbn [on_gl log_apply w_gl w_apply_log w_current].
    split.
    { split.
      - reflexivity.
      - reflexivity.
      - reflexivity.
      - reflexivity.
      - eapply stage_effects; [exact Hl|apply effect_frame_refl].
      - cbn [on_gl log_apply w_gl]. by rewrite Hfbs3.
      - cbn [on_gl log_apply w_gl]. rewrite D3, Htex1. by apply insert_subseteq.
      - cbn [on_gl log_apply w_gl]. rewrite D2, Hrb1. apply insert_subseteq.
        apply gen_name_lookup.
      - cbn [on_gl log_apply w_gl]. rewrite D4, Hprog1. intros p. apply same_shape_opt_refl.
      - cbn [on_gl log_apply w_current]. done.
      - exists [(m_name e, cur, fbo)]. cbn [on_gl log_apply w_apply_log].
        split; [by rewrite Hlog1|].
        apply Forall_singleton. cbn [snd]. by apply not_elem_of_dom.
      - exists []. cbn [on_gl log_apply w_gl]. split; [by rewrite D5, Hev1|]. constructor. }
    split.
    { intros _. split; [done|]. split; [by rewrite D5, Hev1|done]. }
    intros Hcl. split; [|done].
    eapply chain_linked_other; [exact Hl| |intros Hx; congruence|apply effect_frame_refl|exact Hcl].
    intros p. rewrite D4, Hprog1. apply same_shape_opt_refl.
Qed.

Lemma chain_run names : forall cur (r : GPURenderer F) (w : World F),
  (forall n, n ∈ names -> is_Some (m_effects r !! n)) ->
  exists out r' w',
    applyEffectChain_loop names cur r w = Some (out, r', w') /\
    chain_frame r w r' w' /\
    (chain_linked r (w_gl w) ->
       chain_linked r' (w_gl w') /\
       content (gl_events (w_gl w')) out
       = chain_fold r names (content (gl_events (w_gl w)) cur)).
Proof.
  induction names as [|name rest IH]; intros cur r w Hreg.
  - exists cur, r, w. split; [done|]. split; [apply chain_frame_refl|]. done.
  - destruct (Hreg name) as [e He]; [by left|].
    destruct (chain_stage name rest cur r w e He)
      as (cur1 & r1 & w1 & Hloop & Hcf1 & Hfail & Hlink).
    destruct (IH cur1 r1 w1) as (out & r' & w' & Hrest & Hcf2 & Hlink2).
    { intros n Hn. pose proof (cf_effects _ _ _ _ Hcf1 n) as Hn'.
      destruct (Hreg n) as [x Hx]; [by right|]. rewrite Hx in Hn'.
      destruct (m_effects r1 !! n); [eauto|done]. }
    exists out, r', w'. split; [by rewrite Hloop|].
    split; [by eapply chain_frame_trans|].
    intros Hcl. destruct (Hlink Hcl) as [Hcl1 Hcontent].
    destruct (Hlink2 Hcl1) as [Hcl2 Hfold]. split; [done|].
    rewrite Hfold, (chain_fold_frame _ _ _ _ _ _ Hcf1). unfold chain_fold.
    destruct (successfully_applied r name) eqn:E.
    + rewrite filter_cons_True by exact E. cbn [fold_left].
      rewrite (Hcontent eq_refl). unfold render_image at 3. by rewrite He.
    + rewrite filter_cons_False by congruence.
      destruct (Hfail eq_refl) as (-> & -> & _). done.
Qed.

(** Whether the stage of [name] renders is what the loop observes: the
    stage framebuffer was created and [apply] returned [true]. *)
Lemma stage_outcome name cur (r : GPURenderer F) (w : World F) e :
  m_effects r !! name = Some e ->
  successfully_applied r name
  = isEnabled e &&
    (let '(fbo, r1, w1) := createIntermediateFramebuffer r w in
     negb (fbo =? 0)%N &&
     (apply e cur fbo (renderWidth (m_config r1)) (renderHeight (m_config r1)) w1).1.1).
Proof.
  intros Hl. unfold successfully_applied. rewrite Hl.
  destruct (isEnabled e) eqn:Hen; cbn [andb]; [|done].
  destruct (decide (0 < renderWidth (m_config r) /\ 0 < renderHeight (m_config r)))
    as [[Hw Hh]|Hbad].
  - rewrite createIntermediateFramebuffer_success by done. cbv beta iota zeta.
    rewrite !bool_decide_eq_true_2 by done. rewrite !andb_true_r.
    pose proof (gen_name_nonzero (dom (gl_framebuffers (w_gl w)))) as Hf0.
    destruct (N.eqb_spec (gen_name (dom (gl_framebuffers (w_gl w)))) 0) as [|_]; [done|].
    cbn [negb andb].
    change (renderWidth (m_config (set_intermediateFramebuffers _ r)))
      with (renderWidth (m_config r)).
    change (renderHeight (m_config (set_intermediateFramebuffers _ r)))
      with (renderHeight (m_config r)).
    destruct (isAvailable e) eqn:Hav.
    + destruct (apply_enabled e cur (gen_name (dom (gl_framebuffers (w_gl w))))
                  (renderWidth (m_config r)) (renderHeight (m_config r))
                  (set_gl (framebuffer_created (renderWidth (m_config r))
                                               (renderHeight (m_config r)) (w_gl w)) w)
                  Hav Hen (framebuffer_created_status _ _ (w_gl w) Hw Hh))
        as (e' & w2 & Happ & _).
      by rewrite Happ.
    + by rewrite apply_unavailable.
  - rewrite createIntermediateFramebuffer_failure by lia. cbv beta iota zeta.
    cbn [N.eqb negb andb].
    destruct (isAvailable e); cbn [andb]; [|done].
    destruct (bool_decide (0 < renderWidth (m_config r))) eqn:E1; cbn [andb]; [|done].
    apply bool_decide_eq_true in E1. apply bool_decide_eq_false. lia.
Qed.

Lemma makeCurrent_frame (c : OpenGLContext) (w : World F) :
  w_gl (makeCurrent c w).2 = w_gl w /\ w_apply_log (makeCurrent c w).2 = w_apply_log w.
Proof.
  unfold makeCurrent, eglMakeCurrent.
  by destruct (negb (m_display c =? 0)%N
               && (negb (m_surface c =? 0)%N && negb (m_eglContext c =? 0)%N
                   || (m_surface c =? 0)%N && (m_eglContext c =? 0)%N)).
Qed.

Lemma releaseContext_frame (c : OpenGLContext) (w : World F) :
  w_gl (releaseContext c w).2 = w_gl w /\ w_apply_log (releaseContext c w).2 = w_apply_log w.
Proof.
  unfold releaseContext, eglMakeCurrent.
  by destruct (negb (m_display c =? 0)%N
               && (negb (0 =? 0)%N && negb (0 =? 0)%N || (0 =? 0)%N && (0 =? 0)%N)).
Qed.

Lemma framebuffer_status_weaken (s s' : GLState F) fbo fb :
  gl_framebuffers s ⊆ gl_framebuffers s' ->
  gl_textures s ⊆ gl_textures s' ->
  gl_renderbuffers s ⊆ gl_renderbuffers s' ->
  gl_framebuffers s !! fbo = Some fb ->
  framebuffer_status s fbo = GL_FRAMEBUFFER_COMPLETE ->
  framebuffer_status s' fbo = GL_FRAMEBUFFER_COMPLETE.
Proof.
  intros Hf Ht Hr Hfb. unfold framebuffer_status.
  rewrite Hfb, (lookup_weaken _ _ _ _ Hfb Hf).
  destruct (decide (fbo = 0%N)); [done|].
  destruct (decide (fb_color fb = 0%N)), (decide (fb_depth fb = 0%N)).
  - done.
  - destruct (gl_renderbuffers s !! fb_depth fb) as [x|] eqn:E; [|done].
    by rewrite (lookup_weaken _ _ _ _ E Hr).
  - destruct (gl_textures s !! fb_color fb) as [x|] eqn:E; [|done].
    by rewrite (lookup_weaken _ _ _ _ E Ht).
  - destruct (gl_textures s !! fb_color fb) as [x|] eqn:E; [|done].
    rewrite (lookup_weaken _ _ _ _ E Ht).
    destruct (gl_renderbuffers s !! fb_depth fb) as [y|] eqn:E'.
    + by rewrite (lookup_weaken _ _ _ _ E' Hr).
    + by rewrite andb_false_r.
Qed.

Lemma clearScreen_event (gl : GLState F) fbo fb cr cg cb ca :
  gl_framebuffers gl !! fbo = Some fb ->
  framebuffer_status gl fbo = GL_FRAMEBUFFER_COMPLETE ->
  gl_events (clearScreen cr cg cb ca (bindFramebuffer fbo gl))
  = EvClear fbo (fb_color fb) (cr, cg, cb, ca) :: gl_events gl.
Proof.
  intros Hfb Hst.
  unfold clearScreen, glClear, glClearColor, bindFramebuffer, glBindFramebuffer,
    glCheckFramebufferStatus, color_attachment.
  destruct gl as [fbs texs rbs progs vaos bufs fbb act tb rbb curp vab vp cc evs].
  cbn [gl_framebuffers] in Hfb.
  cbv beta iota zeta delta [set_framebuffer_binding set_framebuffers set_clear_color
    set_events
    gl_framebuffers gl_textures gl_renderbuffers gl_programs gl_vertex_arrays gl_buffers
    gl_framebuffer_binding gl_active_texture gl_texture_binding gl_renderbuffer_binding
    gl_current_program gl_vertex_array_binding gl_viewport gl_clear_color gl_events].
  rewrite (ensure_object_existing _ _ _ _ Hfb), Hfb.
  unfold framebuffer_status in *.
  cbv beta iota zeta delta [
    gl_framebuffers gl_textures gl_renderbuffers gl_programs gl_vertex_arrays gl_buffers
    gl_framebuffer_binding gl_active_texture gl_texture_binding gl_renderbuffer_binding
    gl_current_program gl_vertex_array_binding gl_viewport gl_clear_color gl_events] in *.
  by rewrite Hst.
Qed.

End ChainFacts.

Section ChainClaims.
Context {F : Type} {fops : FloatOps F}.

(** C5: at every position of the chain, a disabled effect is skipped with
    the current texture unchanged; when [apply] of an enabled effect returns
    false, the stage framebuffer is deleted and the loop goes on with the
    same current texture, nothing having been drawn.  The chain always runs
    to its end, and the image held by its result is the fold, in execution
    order, of the effects whose stage rendered, a stage rendering exactly
    when the effect is enabled, its framebuffer was created and [apply]
    returned true. *)
Theorem applyEffectChain_isolates_failures (r : GPURenderer F) (w : World F)
  (inputTexture : GLuint) :
  chain_names_registered r ->
  chain_linked r (w_gl w) ->
  (forall name rest cur (r0 : GPURenderer F) (w0 : World F) e,
     m_effects r0 !! name = Some e ->
     (isEnabled e = false ->
        applyEffectChain_loop (name :: rest) cur r0 w0
        = applyEffectChain_loop rest cur r0 w0) /\
     (forall fbo r1 w1,
        isEnabled e = true ->
        createIntermediateFramebuffer r0 w0 = (fbo, r1, w1) -> fbo <> 0%N ->
        (apply e cur fbo (renderWidth (m_config r1)) (renderHeight (m_config r1)) w1).1.1
        = false ->
        exists r2 w2,
          applyEffectChain_loop (name :: rest) cur r0 w0
          = applyEffectChain_loop rest cur r2 w2 /\
          gl_framebuffers (w_gl w1) !! fbo <> None /\
          gl_framebuffers (w_gl w2) !! fbo = None /\
          gl_framebuffers (w_gl w2) = gl_framebuffers (w_gl w0) /\
          gl_events (w_gl w2) = gl_events (w_gl w0)) /\
     successfully_applied r0 name
     = isEnabled e &&
       (let '(fbo, r1, w1) := createIntermediateFramebuffer r0 w0 in
        negb (fbo =? 0)%N &&
        (apply e cur fbo (renderWidth (m_config r1)) (renderHeight (m_config r1)) w1).1.1)) /\
  exists out r' w',
    applyEffectChain r inputTexture w = Some (out, r', w') /\
    content (gl_events (w_gl w')) out
    = chain_fold r (m_effectOrder r) (content (gl_events (w_gl w)) inputTexture).
Proof.
  intros Hreg Hcl. split.
  - intros name rest cur r0 w0 e He. split; [|split].
    + intros Hen. cbn [applyEffectChain_loop]. by rewrite He, Hen.
    + intros fbo r1 w1 Hen Hcreate Hfbo Hfalse.
      pose proof (stage_outcome name cur r0 w0 e He) as Hout.
      rewrite Hcreate, Hen, Hfalse in Hout.
      rewrite andb_false_r in Hout. cbn [andb] in Hout.
      destruct (decide (0 < renderWidth (m_config r0) /\ 0 < renderHeight (m_config r0)))
        as [[Hw Hh]|Hbad].
      2:{ rewrite createIntermediateFramebuffer_failure in Hcreate by lia. congruence. }
      rewrite createIntermediateFramebuffer_success in Hcreate by done.
      injection Hcreate as <- <- <-.
      destruct (chain_stage name rest cur r0 w0 e He)
        as (cur1 & r2 & w2 & Hloop & _ & Hfail & _).
      destruct (Hfail Hout) as (-> & Hev & Hfb).
      exists r2, w2. split; [done|]. split.
      { cbn [set_gl on_gl w_gl framebuffer_created gl_framebuffers].
        by rewrite lookup_insert_eq. }
      split; [|done]. rewrite Hfb. apply gen_name_lookup.
    + by apply stage_outcome.
  - destruct (chain_run (m_effectOrder r) inputTexture r w Hreg)
      as (out & r' & w' & Hrun & _ & Hfold).
    exists out, r', w'. split; [done|]. by apply Hfold.
Qed.

(** C3: [renderToTexture] on an initialised renderer returns 0 when the
    context cannot be made current or the framebuffer cannot be created, and
    otherwise the colour attachment of the framebuffer it generated before
    the chain ran: both names are the first unused ones of the state at
    entry, the framebuffer still carries that attachment at exit, no
    [apply] of the call had it as its target, and the image held by the
    returned texture is the one it held at entry, whatever the chain
    produced. *)
Theorem renderToTexture_returns_own_attachment (r : GPURenderer F) (inputTexture : GLuint)
  (w : World F) :
  isInitialized r = true ->
  chain_names_registered r ->
  exists c r' w',
    m_context r = Some c /\
    let fbo := gen_name (dom (gl_framebuffers (w_gl w))) in
    let tex := gen_name (dom (gl_textures (w_gl w))) in
    if (makeCurrent c w).1 && bool_decide (0 < renderWidth (m_config r))
       && bool_decide (0 < renderHeight (m_config r))
    then
      renderToTexture r inputTexture w = Some (tex, r', w') /\
      gl_framebuffers (w_gl w) !! fbo = None /\
      gl_textures (w_gl w) !! tex = None /\
      (exists fb, gl_framebuffers (w_gl w') !! fbo = Some fb /\ fb_color fb = tex) /\
      (exists new, w_apply_log w' = new ++ w_apply_log w /\
                   Forall (fun entry : string * GLuint * GLuint => entry.2 <> fbo) new) /\
      content (gl_events (w_gl w')) tex = content (gl_events (w_gl w)) tex
    else
      renderToTexture r inputTexture w = Some (0%N, r', w') /\
      w_apply_log w' = w_apply_log w /\
      gl_events (w_gl w') = gl_events (w_gl w).
Proof.
  intros Hinit Hreg. unfold renderToTexture.
  destruct (m_context r) as [c|] eqn:Hctx.
  2:{ unfold isInitialized in Hinit. by rewrite Hctx in Hinit. }
  rewrite Hinit. cbn [negb].
  pose proof (makeCurrent_frame c w) as [M1 M2].
  destruct (makeCurrent c w) as [ok w0] eqn:Hmc. cbn [fst snd] in M1, M2 |- *.
  destruct ok; cbn [negb andb].
  2:{ exists c, r, w0. split; [done|]. rewrite Hmc. cbv zeta. cbn [fst andb].
      split; [done|]. by rewrite M1, M2. }
  destruct (decide (0 < renderWidth (m_config r) /\ 0 < renderHeight (m_config r)))
    as [[Hw Hh]|Hbad].
  2:{ rewrite createIntermediateFramebuffer_failure by lia. cbv beta iota zeta.
      cbn [N.eqb].
      exists c, r, (set_gl (framebuffer_rolled_back (w_gl w0)) w0).
      split; [done|]. rewrite Hmc. cbv zeta. cbn [fst andb].
      assert (bool_decide (0 < renderWidth (m_config r))
              && bool_decide (0 < renderHeight (m_config r)) = false) as ->.
      { apply andb_false_iff. rewrite !bool_decide_eq_false. lia. }
      split; [done|]. cbn [set_gl on_gl w_gl w_apply_log framebuffer_rolled_back gl_events].
      by rewrite M1, M2. }
  rewrite createIntermediateFramebuffer_success by done. cbv beta iota zeta.
  rewrite M1.
  set (fbo := gen_name (dom (gl_framebuffers (w_gl w)))).
  set (tex := gen_name (dom (gl_textures (w_gl w)))).
  pose proof (gen_name_nonzero (dom (gl_framebuffers (w_gl w)))) as Hf0. fold fbo in Hf0.
  pose proof (gen_name_lookup (gl_framebuffers (w_gl w))) as Hfl. fold fbo in Hfl.
  pose proof (gen_name_lookup (gl_textures (w_gl w))) as Htl. fold tex in Htl.
  destruct (N.eqb_spec fbo 0) as [|_]; [done|].
  set (r1 := set_intermediateFramebuffers (fun l => l ++ [fbo]) r).
  set (w1 := set_gl (framebuffer_created (renderWidth (m_config r))
                                         (renderHeight (m_config r)) (w_gl w)) w0).
  assert (Hfbs1 : gl_framebuffers (w_gl w1) !! fbo
                  = Some {| fb_color := tex;
                            fb_depth := gen_name (dom (gl_renderbuffers (w_gl w))) |}).
  { cbn [w1 set_gl on_gl w_gl framebuffer_created gl_framebuffers].
    by rewrite lookup_insert_eq. }
  assert (Htex1 : is_Some (gl_textures (w_gl w1) !! tex)).
  { cbn [w1 set_gl on_gl w_gl framebuffer_created gl_textures].
    by rewrite lookup_insert_eq. }
  assert (Hev1 : gl_events (w_gl w1) = gl_events (w_gl w)) by reflexivity.
  assert (Hlog1 : w_apply_log w1 = w_apply_log w) by (by rewrite <- M2).
  clearbody w1.
  destruct (chain_run (m_effectOrder r1) inputTexture r1 w1)
    as (out & r2 & w2 & Hrun & Hcf & _).
  { intros n Hn. by apply Hreg. }
  unfold applyEffectChain. rewrite Hrun.
  pose proof (lookup_weaken _ _ _ _ Hfbs1 (cf_framebuffers _ _ _ _ Hcf)) as Hfb2.
  pose proof (getFramebufferTexture_spec (w_gl w2) fbo _ Hfb2)
    as (G1 & G2 & G3 & G4 & G5 & G6).
  destruct (getFramebufferTexture fbo (w_gl w2)) as [t gl3].
  cbn [fst snd fb_color] in G1, G2, G3, G4, G5, G6. subst t.
  pose proof (releaseContext_frame c (set_gl gl3 w2)) as [R1 R2].
  destruct (releaseContext c (set_gl gl3 w2)) as [okr w3].
  cbn [fst snd set_gl on_gl w_gl w_apply_log] in R1, R2.
  exists c, r2, w3. split; [done|]. rewrite Hmc. cbv zeta.
  rewrite !bool_decide_eq_true_2 by done. cbn [fst andb].
  split; [done|]. split; [done|]. split; [done|].
  rewrite R1, R2. split; [|split].
  - rewrite G2. eauto.
  - destruct (cf_log _ _ _ _ Hcf) as (new & Hnew & Hall).
    exists new. split; [by rewrite Hnew, Hlog1|].
    eapply Forall_impl; [exact Hall|]. intros entry Hn Heq. apply Hn.
    rewrite Heq. apply elem_of_dom. eauto.
  - destruct (cf_events _ _ _ _ Hcf) as (new & Hnew & Hall).
    rewrite G6, Hnew, Hev1. apply content_new_draws.
    eapply Forall_impl; [exact Hall|]. intros ev (d & -> & Hn). exists d. split; [done|].
    intros Hd. apply Hn. rewrite Hd. by apply elem_of_dom.
Qed.

(** C2: the code at the input of the claim.  With a complete framebuffer
    as [outputFramebuffer], [renderFrame] makes the context current, runs
    the chain and returns true, but the only command it issues on the
    output framebuffer after the chain is a clear: its colour attachment
    holds the clear colour (0, 0, 0, 1), not the image of the chain's output
    texture, which is never read. *)
Theorem renderFrame_clears_output (r : GPURenderer F) (inputTexture outputFramebuffer : GLuint)
  (w : World F) (c : OpenGLContext) (fb : GLFramebuffer) :
  m_context r = Some c ->
  isInitialized r = true ->
  (makeCurrent c w).1 = true ->
  chain_names_registered r ->
  chain_linked r (w_gl w) ->
  outputFramebuffer <> 0%N ->
  gl_framebuffers (w_gl w) !! outputFramebuffer = Some fb ->
  framebuffer_status (w_gl w) outputFramebuffer = GL_FRAMEBUFFER_COMPLETE ->
  exists out r1 w1 r' w',
    applyEffectChain r inputTexture (makeCurrent c w).2 = Some (out, r1, w1) /\
    content (gl_events (w_gl w1)) out
    = chain_fold r (m_effectOrder r) (content (gl_events (w_gl w)) inputTexture) /\
    renderFrame r inputTexture outputFramebuffer w = Some (true, r', w') /\
    gl_events (w_gl w')
    = EvClear outputFramebuffer (fb_color fb) (f_lit 0, f_lit 0, f_lit 0, f_lit 1)
      :: gl_events (w_gl w1) /\
    content (gl_events (w_gl w')) (fb_color fb)
    = ImgCleared (f_lit 0, f_lit 0, f_lit 0, f_lit 1).
Proof.
  intros Hctx Hinit Hmc Hreg Hcl Hout Hfb Hst. unfold renderFrame.
  rewrite Hctx, Hinit. cbn [negb].
  pose proof (makeCurrent_frame c w) as [M1 M2].
  destruct (makeCurrent c w) as [ok w0]. cbn [fst snd] in M1, M2, Hmc |- *. subst ok.
  cbn [negb].
  set (r0 := if m_profilingEnabled r then beginProfiling r else r).
  assert (Hr0 : r0 = r) by (unfold r0, beginProfiling; by destruct (m_profilingEnabled r)).
  rewrite Hr0. clear r0 Hr0.
  destruct (chain_run (m_effectOrder r) inputTexture r w0 Hreg)
    as (out & r1 & w1 & Hrun & Hcf & Hfold).
  rewrite M1 in Hfold. destruct (Hfold Hcl) as [_ Hcontent].
  unfold applyEffectChain. rewrite Hrun.
  destruct (N.eqb_spec outputFramebuffer 0) as [|_]; [done|]. cbn [negb].
  rewrite <- M1 in Hfb, Hst.
  pose proof (lookup_weaken _ _ _ _ Hfb (cf_framebuffers _ _ _ _ Hcf)) as Hfb1.
  pose proof (framebuffer_status_weaken _ _ _ _ (cf_framebuffers _ _ _ _ Hcf)
                (cf_textures _ _ _ _ Hcf) (cf_renderbuffers _ _ _ _ Hcf) Hfb Hst) as Hst1.
  pose proof (clearScreen_event (w_gl w1) outputFramebuffer fb
                (f_lit 0) (f_lit 0) (f_lit 0) (f_lit 1) Hfb1 Hst1) as Hclear.
  set (w2 := on_gl _ w1).
  assert (Hev2 : gl_events (w_gl w2)
                 = EvClear outputFramebuffer (fb_color fb)
                           (f_lit 0, f_lit 0, f_lit 0, f_lit 1) :: gl_events (w_gl w1))
    by exact Hclear.
  clearbody w2.
  pose proof (releaseContext_frame c w2) as [R1 R2].
  destruct (releaseContext c w2) as [okr w3]. cbn [fst snd] in R1, R2.
  eexists out, r1, w1, _, w3.
  split; [done|]. split; [done|]. split; [reflexivity|].
  rewrite R1, Hev2. split; [done|].
  cbn [content]. by rewrite decide_True.
Qed.

End ChainClaims.

(** The chain of a renderer with a broken effect followed by a working one:
    the result holds the working effect's image of the input. *)
Lemma applyEffectChain_isolates_failures_witness :
  let broken := GPUEffect_new (F:=R) "broken" COLOR None in
  let fx := GPUEffect_new (F:=R) "fx" COLOR (Some (ShaderProgram_linked 1)) in
  let r := GPURenderer_with context_initialized 64 64 [("broken", broken); ("fx", fx)] in
  let w := world_of (gl_with_program 1 (single_uniform_program "uIntensity")) in
  chain_names_registered r /\ chain_linked r (w_gl w) /\
  exists out r' w',
    applyEffectChain r 7 w = Some (out, r', w') /\
    content (gl_events (w_gl w')) out = ImgDrawn 1 (ImgSource 7).
Proof.
  intros broken fx r w.
  assert (Hreg : chain_names_registered r).
  { intros name Hin. cbn [r GPURenderer_with m_effectOrder fmap list_fmap fst] in Hin.
    apply elem_of_cons in Hin as [->|Hin]; [by eexists|].
    apply elem_of_cons in Hin as [->|Hin]; [by eexists|].
    by apply elem_of_nil in Hin. }
  assert (Hcl : chain_linked r (w_gl w)).
  { intros name e Hl Hav.
    cbn [r GPURenderer_with m_effects list_to_map foldr uncurry] in Hl.
    apply lookup_insert_Some in Hl as [[<- <-]|[_ Hl]]; [done|].
    apply lookup_insert_Some in Hl as [[<- <-]|[_ Hl]]; [|done].
    by apply shader_linked_single. }
  split; [exact Hreg|]. split; [exact Hcl|].
  destruct (applyEffectChain_isolates_failures r w 7 Hreg Hcl)
    as [_ (out & r' & w' & Hrun & Hfold)].
  exists out, r', w'. split; [exact Hrun|]. rewrite Hfold. reflexivity.
Defined.

(** [renderToTexture] on a renderer with one working effect. *)
Lemma renderToTexture_returns_own_attachment_witness :
  let fx := GPUEffect_new (F:=R) "fx" COLOR (Some (ShaderProgram_linked 1)) in
  let r := GPURenderer_with context_initialized 64 64 [("fx", fx)] in
  let w := world_of (gl_with_program 1 (single_uniform_program "uIntensity")) in
  isInitialized r = true /\ chain_names_registered r /\
  exists r' w',
    renderToTexture r 7 w = Some (1%N, r', w') /\
    (exists fb, gl_framebuffers (w_gl w') !! 1%N = Some fb /\ fb_color fb = 1%N) /\
    (exists new, w_apply_log w' = new ++ w_apply_log w /\
                 Forall (fun entry : string * GLuint * GLuint => entry.2 <> 1%N) new) /\
    content (gl_events (w_gl w')) 1 = ImgSource 1.
Proof.
  intros fx r w.
  assert (Hreg : chain_names_registered r).
  { intros name Hin. cbn [r GPURenderer_with m_effectOrder fmap list_fmap fst] in Hin.
    apply elem_of_cons in Hin as [->|Hin]; [by eexists|].
    by apply elem_of_nil in Hin. }
  split; [reflexivity|]. split; [exact Hreg|].
  destruct (renderToTexture_returns_own_attachment r 7 w eq_refl Hreg)
    as (c & r' & w' & Hc & Hres).
  injection Hc as <-.
  exists r', w'. exact (conj (proj1 Hres) (proj2 (proj2 (proj2 Hres)))).
Defined.

(** [renderFrame] with no effect, into a framebuffer created for the
    purpose: the chain's output is input texture 7 as it was, the output
    attachment holds the clear colour. *)
Lemma renderFrame_clears_output_witness :
  let r := GPURenderer_with (F:=R) context_initialized 64 64 [] in
  let w := world_of (framebuffer_created 64 64 gl_fresh_context) in
  let fb := {| fb_color := 1; fb_depth := 1 |} in
  m_context r = Some context_initialized /\
  isInitialized r = true /\
  (makeCurrent context_initialized w).1 = true /\
  chain_names_registered r /\ chain_linked r (w_gl w) /\
  1%N <> 0%N /\
  gl_framebuffers (w_gl w) !! 1%N = Some fb /\
  framebuffer_status (w_gl w) 1 = GL_FRAMEBUFFER_COMPLETE /\
  exists out r1 w1 r' w',
    applyEffectChain r 7 (makeCurrent context_initialized w).2 = Some (out, r1, w1) /\
    content (gl_events (w_gl w1)) out = ImgSource 7 /\
    renderFrame r 7 1 w = Some (true, r', w') /\
    content (gl_events (w_gl w')) 1 = ImgCleared (f_lit 0, f_lit 0, f_lit 0, f_lit 1).
Proof.
  intros r w fb.
  assert (Hreg : chain_names_registered r).
  { intros name Hin. by apply elem_of_nil in Hin. }
  assert (Hcl : chain_linked r (w_gl w)).
  { intros name e Hl. cbn [r GPURenderer_with m_effects list_to_map foldr] in Hl.
    by rewrite lookup_empty in Hl. }
  assert (Hfb : gl_framebuffers (w_gl w) !! 1%N = Some fb) by reflexivity.
  assert (Hst : framebuffer_status (w_gl w) 1 = GL_FRAMEBUFFER_COMPLETE) by reflexivity.
  split; [reflexivity|]. split; [reflexivity|]. split; [reflexivity|].
  split; [exact Hreg|]. split; [exact Hcl|]. split; [done|].
  split; [exact Hfb|]. split; [exact Hst|].
  destruct (renderFrame_clears_output r 7 1 w context_initialized fb
              eq_refl eq_refl eq_refl Hreg Hcl (fun H => N.neq_succ_0 0 H) Hfb Hst)
    as (out & r1 & w1 & r' & w' & Hrun & Hfold & Hframe & _ & Hcontent).
  exists out, r1, w1, r', w'.
  split; [exact Hrun|]. split; [exact Hfold|]. split; [exact Hframe|exact Hcontent].
Defined.

(** * Properties of the members outside the rendering path *)

Section RegistryFacts.
Context {F : Type} {fops : FloatOps F}.

Lemma erase_first_app_last (name : string) (order : list string) :
  name ∉ order -> erase_first name (order ++ [name]) = order.
Proof.
  induction order as [|x rest IH]; intros Hn.
  - cbn. by rewrite String.eqb_refl.
  - apply not_elem_of_cons in Hn as [Hne Hn]. cbn [app erase_first].
    destruct (String.eqb_spec x name) as [->|_]; [done|]. by rewrite IH.
Qed.

Lemma filter_ne_id (name : string) (order : list string) :
  name ∉ order -> filter (fun x => x ≠ name) order = order.
Proof.
  induction order as [|x rest IH]; [done|]. intros Hn.
  apply not_elem_of_cons in Hn as [Hne Hn].
  rewrite filter_cons_True by done. by rewrite IH.
Qed.

Lemma erase_first_filter (name : string) (order : list string) :
  NoDup order -> erase_first name order = filter (fun x => x ≠ name) order.
Proof.
  induction 1 as [|x rest Hx Hnd IH]; [done|]. cbn [erase_first].
  destruct (String.eqb_spec x name) as [->|Hne].
  - rewrite filter_cons_False by (intros H; by apply H). by rewrite filter_ne_id.
  - rewrite filter_cons_True by done. by rewrite IH.
Qed.

Lemma registry_wf_new : registry_wf (GPURenderer_new (F:=F)).
Proof.
  split; [constructor|]. intros name. cbn [GPURenderer_new m_effectOrder m_effects].
  rewrite lookup_empty. split; [by intros H%elem_of_nil|by intros [x Hx]].
Qed.

Lemma registry_wf_addEffect (effect : option (GPUEffect F)) (r : GPURenderer F) :
  registry_wf r -> registry_wf (addEffect effect r).2.
Proof.
  intros [Hnd Hiff]. unfold addEffect. destruct effect as [e|]; [|done].
  destruct (negb (String.eqb (getName e) EmptyString)); [done|].
  destruct (m_effects r !! getName e) eqn:E; [done|].
  cbn [snd]. split; cbn [set_effectOrder set_effects m_effectOrder m_effects].
  - apply NoDup_app. split; [done|]. split; [|apply NoDup_singleton].
    intros x Hx Hx'. apply elem_of_cons in Hx' as [->|Hx']; [|by apply elem_of_nil in Hx'].
    apply Hiff in Hx. rewrite E in Hx. by destruct Hx.
  - intros name. rewrite elem_of_app, elem_of_cons, elem_of_nil, Hiff.
    destruct (decide (name = getName e)) as [->|Hne].
    + rewrite lookup_insert_eq. split; [eauto|]. intros _. right. by left.
    + rewrite lookup_insert_ne by done.
      split; [intros [H|[H|[]]]; [done|by destruct Hne]|by left].
Qed.

Lemma registry_wf_removeEffect (name : string) (r : GPURenderer F) :
  registry_wf r -> registry_wf (removeEffect name r).2.
Proof.
  intros [Hnd Hiff]. unfold removeEffect.
  destruct (m_effects r !! name) eqn:E; [|done].
  cbn [snd]. split; cbn [set_effectOrder set_effects m_effectOrder m_effects].
  - rewrite erase_first_filter by done. by apply NoDup_filter.
  - intros x. rewrite erase_first_filter by done.
    rewrite list_elem_of_filter, Hiff.
    destruct (decide (x = name)) as [->|Hne].
    + rewrite lookup_delete_eq. split; [by intros [H _]|by intros [y Hy]].
    + rewrite lookup_delete_ne by done. split; [by intros [_ H]|done].
Qed.

Lemma registry_wf_clearEffects (r : GPURenderer F) : registry_wf (clearEffects r).
Proof.
  split; [constructor|]. intros name.
  cbn [clearEffects set_effectOrder set_effects m_effectOrder m_effects].
  rewrite lookup_empty. split; [by intros H%elem_of_nil|by intros [x Hx]].
Qed.

Lemma registry_wf_setEffectEnabled (name : string) (enabled : bool) (r : GPURenderer F) :
  registry_wf r -> registry_wf (setEffectEnabled name enabled r).2.
Proof.
  intros [Hnd Hiff]. unfold setEffectEnabled, getEffect.
  destruct (m_effects r !! name) eqn:E; [|done].
  cbn [snd]. split; cbn [set_effects m_effectOrder m_effects]; [done|].
  intros x. rewrite Hiff. destruct (decide (x = name)) as [->|Hne].
  - rewrite lookup_insert_eq, E. split; eauto.
  - by rewrite lookup_insert_ne.
Qed.

(** X1: the registry operations keep the registry well formed (no duplicate
    in the execution order, which holds exactly the registered names); a
    well-formed registry is one the effect chain can run over. *)
Theorem registry_wf_preserved (r : GPURenderer F) :
  registry_wf r ->
  (forall effect, registry_wf (addEffect effect r).2) /\
  (forall name, registry_wf (removeEffect name r).2) /\
  registry_wf (clearEffects r) /\
  (forall name enabled, registry_wf (setEffectEnabled name enabled r).2) /\
  chain_names_registered r.
Proof.
  intros Hwf. split; [intros; by apply registry_wf_addEffect|].
  split; [intros; by apply registry_wf_removeEffect|].
  split; [apply registry_wf_clearEffects|].
  split; [intros; by apply registry_wf_setEffectEnabled|].
  intros name Hin. by apply Hwf.
Qed.

(** X2: in a well-formed registry the effect count is the length of the
    name list. *)
Theorem getEffectCount_names (r : GPURenderer F) :
  registry_wf r -> getEffectCount r = length (getEffectNames r).
Proof.
  intros [Hnd Hiff]. unfold getEffectCount, getEffectNames.
  rewrite <- size_dom, <- (size_list_to_set (C:=gset string)) by done.
  f_equal. apply set_eq. intros x.
  rewrite elem_of_dom, elem_of_list_to_set. symmetry. apply Hiff.
Qed.

(** X3: removing the effect a successful [addEffect] just added gives back
    the renderer as it was. *)
Theorem addEffect_removeEffect_roundtrip (e : GPUEffect F) (r : GPURenderer F) :
  registry_wf r ->
  (addEffect (Some e) r).1 = true ->
  removeEffect (getName e) (addEffect (Some e) r).2 = (true, r).
Proof.
  intros [Hnd Hiff]. unfold addEffect.
  destruct (negb (String.eqb (getName e) EmptyString)); [done|].
  destruct (m_effects r !! getName e) eqn:E; [done|]. intros _.
  cbn [snd]. unfold removeEffect.
  cbn [set_effectOrder set_effects m_effectOrder m_effects].
  rewrite lookup_insert_eq. f_equal.
  unfold set_effectOrder, set_effects. cbn.
  rewrite delete_insert_id by done.
  rewrite erase_first_app_last.
  - by destruct r.
  - intros Hin. apply Hiff in Hin. rewrite E in Hin. by destruct Hin.
Qed.

(** X4: [removeEffect] of a name that is not registered returns false and
    changes nothing; of a registered name it returns true, the name is gone
    from the map and from the order, the other names keep their relative
    order and their effects. *)
Theorem removeEffect_spec (r : GPURenderer F) (name : string) :
  registry_wf r ->
  (m_effects r !! name = None -> removeEffect name r = (false, r)) /\
  (is_Some (m_effects r !! name) ->
   (removeEffect name r).1 = true /\
   hasEffect (removeEffect name r).2 name = false /\
   getEffectNames (removeEffect name r).2
     = filter (fun x => x ≠ name) (getEffectNames r) /\
   (name ∉ getEffectNames (removeEffect name r).2) /\
   (forall other, other ≠ name ->
      getEffect (removeEffect name r).2 other = getEffect r other)).
Proof.
  intros [Hnd Hiff]. unfold removeEffect. split.
  - by intros ->.
  - intros [e He]. rewrite He. cbn [fst snd]. split; [done|].
    unfold hasEffect, getEffectNames, getEffect.
    cbn [set_effectOrder set_effects m_effectOrder m_effects].
    rewrite erase_first_filter by done.
    split; [|split; [done|split]].
    + apply bool_decide_eq_false. rewrite lookup_delete_eq. by intros [x Hx].
    + rewrite list_elem_of_filter. by intros [H _].
    + intros other Hne. by rewrite lookup_delete_ne.
Qed.

Lemma addEffect_true_iff (effect : option (GPUEffect F)) (r : GPURenderer F) :
  (addEffect effect r).1 = true <->
  exists e, effect = Some e /\ getName e = EmptyString /\ m_effects r !! EmptyString = None.
Proof.
  unfold addEffect. destruct effect as [e|]; [|split; [done|by intros (e & H & _)]].
  destruct (String.eqb_spec (getName e) EmptyString) as [Hn|Hn]; cbn [negb].
  - rewrite Hn. destruct (m_effects r !! EmptyString) eqn:E.
    + split; [done|]. by intros (e' & _ & _ & H).
    + split; [|done]. intros _. by exists e.
  - split; [done|]. intros (e' & [= <-] & H & _). done.
Qed.

Lemma registry_small_addEffect effect (r : GPURenderer F) :
  registry_small r -> registry_small (addEffect effect r).2.
Proof.
  intros Hs. unfold addEffect. destruct effect as [e|]; [|done].
  destruct (String.eqb_spec (getName e) EmptyString) as [Hn|Hn]; cbn [negb]; [|done].
  rewrite Hn. destruct Hs as [[Ho Hm]|(Ho & e0 & Hm & Hn0)].
  - rewrite Hm, lookup_empty. cbn [snd]. right.
    cbn [set_effectOrder set_effects m_effectOrder m_effects]. rewrite Ho, Hm.
    split; [done|]. exists e. split; [|done]. by rewrite insert_empty.
  - rewrite Hm, lookup_singleton_eq. cbn [snd]. right. split; [done|]. by exists e0.
Qed.

Lemma registry_small_addEffects (effects : list (option (GPUEffect F))) :
  forall r : GPURenderer F, registry_small r -> registry_small (addEffects effects r).
Proof.
  induction effects as [|x xs IH]; intros r Hs; [done|].
  cbn [addEffects fold_left]. apply IH. by apply registry_small_addEffect.
Qed.

(** X5: [addEffect] succeeds exactly on a non-null effect with the empty
    name while that name is free; hence a renderer built from a new one by
    any sequence of [addEffect] calls holds at most one effect, under the
    empty name. *)
Theorem addEffects_at_most_one (effects : list (option (GPUEffect F))) :
  let r := addEffects effects GPURenderer_new in
  (forall effect, (addEffect effect r).1 = true <->
     exists e, effect = Some e /\ getName e = EmptyString /\
               m_effects r !! EmptyString = None) /\
  (getEffectNames r = [] \/ getEffectNames r = [EmptyString]) /\
  (forall name e, getEffect r name = Some e -> name = EmptyString /\ getName e = EmptyString).
Proof.
  intros r. split; [intros; apply addEffect_true_iff|].
  assert (Hs : registry_small r).
  { apply registry_small_addEffects. by left. }
  unfold getEffectNames, getEffect.
  destruct Hs as [[Ho Hm]|(Ho & e0 & Hm & Hn0)]; rewrite Ho, Hm.
  - split; [by left|]. intros name e. by rewrite lookup_empty.
  - split; [by right|]. intros name e He.
    apply lookup_singleton_Some in He as [<- <-]. done.
Qed.
End RegistryFacts.

Section ChainDisabled.
Context {F : Type} {fops : FloatOps F}.

Lemma applyEffectChain_loop_all_disabled names cur (r : GPURenderer F) (w : World F) :
  (forall n, n ∈ names -> exists e, m_effects r !! n = Some e /\ isEnabled e = false) ->
  applyEffectChain_loop names cur r w = Some (cur, r, w).
Proof.
  induction names as [|name rest IH]; intros Hall; [done|].
  cbn [applyEffectChain_loop].
  destruct (Hall name) as (e & He & Hen); [by left|].
  rewrite He, Hen. cbn [negb]. apply IH. intros n Hn. apply Hall. by right.
Qed.

Lemma GPUBridge_clearEffects_loop_order names (r : GPURenderer F) :
  m_effectOrder (GPUBridge_clearEffects_loop names r) = m_effectOrder r /\
  m_context (GPUBridge_clearEffects_loop names r) = m_context r /\
  m_config (GPUBridge_clearEffects_loop names r) = m_config r /\
  m_intermediateFramebuffers (GPUBridge_clearEffects_loop names r)
  = m_intermediateFramebuffers r.
Proof.
  revert r. unfold GPUBridge_clearEffects_loop.
  induction names as [|x xs IH]; intros r; [done|].
  cbn [fold_left].
  destruct (getEffect r x) as [e|]; [|apply IH].
  destruct (IH (set_effects <[x := setEnabled false e]> r)) as (H1 & H2 & H3 & H4).
  by rewrite H1, H2, H3, H4.
Qed.

Lemma GPUBridge_clearEffects_loop_lookup names : forall (r : GPURenderer F) n,
  m_effects (GPUBridge_clearEffects_loop names r) !! n
  = if decide (n ∈ names) then setEnabled false <$> m_effects r !! n
    else m_effects r !! n.
Proof.
  unfold GPUBridge_clearEffects_loop.
  induction names as [|x xs IH]; intros r n.
  - cbn. rewrite decide_False; [done|]. by intros H%elem_of_nil.
  - cbn [fold_left]. rewrite IH. unfold getEffect.
    destruct (decide (n = x)) as [->|Hne].
    + rewrite (decide_True (P := x ∈ x :: xs)) by (by left).
      destruct (m_effects r !! x) as [e|] eqn:E.
      * cbn [set_effects m_effects]. rewrite lookup_insert_eq.
        by destruct (decide (x ∈ xs)).
      * rewrite E. by destruct (decide (x ∈ xs)).
    + assert (Hl : m_effects (match m_effects r !! x with
                              | Some effect => set_effects <[x := setEnabled false effect]> r
                              | None => r end) !! n = m_effects r !! n).
      { destruct (m_effects r !! x); [|done].
        cbn [set_effects m_effects]. by rewrite lookup_insert_ne. }
      rewrite Hl.
      destruct (decide (n ∈ xs)) as [Hin|Hnin].
      * by rewrite decide_True by (by right).
      * rewrite decide_False; [done|]. intros [?|?]%elem_of_cons; done.
Qed.

(** X8: the bridge's [clearEffects] keeps every effect registered and
    disables those in the name list; the effect chain then returns its
    input texture and leaves renderer and driver untouched. *)
Theorem GPUBridge_clearEffects_disables (b : GPUBridge F) (rendererPtr : Z)
  (r : GPURenderer F) :
  getRenderer b rendererPtr = Some r ->
  chain_names_registered r ->
  exists r',
    getRenderer (GPUBridge_clearEffects rendererPtr b) rendererPtr = Some r' /\
    getEffectNames r' = getEffectNames r /\
    (forall name, hasEffect r' name = hasEffect r name) /\
    (forall name e, name ∈ getEffectNames r -> getEffect r name = Some e ->
                    getEffect r' name = Some (setEnabled false e)) /\
    (forall inputTexture w, applyEffectChain r' inputTexture w = Some (inputTexture, r', w)).
Proof.
  intros Hget Hreg. unfold GPUBridge_clearEffects. rewrite Hget.
  exists (GPUBridge_clearEffects_loop (getEffectNames r) r).
  split; [unfold getRenderer, set_renderer; cbn; by rewrite lookup_insert_eq|].
  pose proof (GPUBridge_clearEffects_loop_order (getEffectNames r) r) as (Ho & _).
  pose proof (GPUBridge_clearEffects_loop_lookup (getEffectNames r) r) as Hl.
  unfold getEffectNames, hasEffect, getEffect in *.
  split; [done|]. split; [|split].
  - intros name. rewrite Hl. destruct (decide (name ∈ m_effectOrder r)); [|done].
    destruct (m_effects r !! name) as [x|]; [|done].
    cbn [fmap option_fmap option_map]. by rewrite !bool_decide_eq_true_2 by eauto.
  - intros name e Hin He. rewrite Hl, decide_True by done. by rewrite He.
  - intros inputTexture w. unfold applyEffectChain. rewrite Ho.
    apply applyEffectChain_loop_all_disabled. intros n Hn.
    destruct (Hreg n Hn) as [e He].
    exists (setEnabled false e). rewrite Hl, decide_True by done. by rewrite He.
Qed.

(** X7: the bridge's [removeEffect] removes nothing: it returns true, the
    effect stays registered with its enabled flag cleared, names and count
    are unchanged; the bridge's [applyEffect] sets the flag again. *)
Theorem GPUBridge_removeEffect_disables (b : GPUBridge F) (rendererPtr : Z)
  (r : GPURenderer F) (effectName : string) (e : GPUEffect F) :
  getRenderer b rendererPtr = Some r ->
  getEffect r effectName = Some e ->
  exists b' r',
    GPUBridge_removeEffect rendererPtr effectName b = (true, b') /\
    getRenderer b' rendererPtr = Some r' /\
    hasEffect r' effectName = true /\
    getEffect r' effectName = Some (setEnabled false e) /\
    getEffectNames r' = getEffectNames r /\
    getEffectCount r' = getEffectCount r /\
    (forall other, other ≠ effectName -> getEffect r' other = getEffect r other) /\
    exists b'' r'',
      GPUBridge_applyEffect rendererPtr effectName b' = (true, b'') /\
      getRenderer b'' rendererPtr = Some r'' /\
      getEffect r'' effectName = Some (setEnabled true e).
Proof.
  intros Hget He. unfold GPUBridge_removeEffect. rewrite Hget, He.
  eexists _, _. split; [reflexivity|].
  split; [unfold getRenderer, set_renderer; cbn; by rewrite lookup_insert_eq|].
  unfold hasEffect, getEffect, getEffectNames, getEffectCount in *.
  cbn [set_effects m_effects m_effectOrder].
  split; [apply bool_decide_eq_true; rewrite lookup_insert_eq; eauto|].
  split; [by rewrite lookup_insert_eq|]. split; [done|].
  split; [by rewrite map_size_insert_Some|].
  split; [intros other Hne; by rewrite lookup_insert_ne|].
  unfold GPUBridge_applyEffect, getRenderer, set_renderer, hasEffect, getEffect.
  cbn [s_renderers]. rewrite lookup_insert_eq.
  cbn [set_effects m_effects]. rewrite lookup_insert_eq.
  rewrite bool_decide_eq_true_2 by eauto. cbn [negb].
  eexists _, _. split; [reflexivity|]. cbn [s_renderers].
  rewrite lookup_insert_eq. split; [reflexivity|].
  cbn [set_effects m_effects]. by rewrite lookup_insert_eq.
Qed.
End ChainDisabled.

Section ApplyEffect.
Context {F : Type} {fops : FloatOps F}.

Lemma makeCurrent_current (c : OpenGLContext) (w : World F) :
  (makeCurrent c w).1 = true ->
  w_current (makeCurrent c w).2 = (m_surface c, m_eglContext c) /\
  m_display c ≠ 0%N.
Proof.
  unfold makeCurrent, eglMakeCurrent.
  destruct (N.eqb_spec (m_display c) 0) as [->|Hd]; cbn [negb andb fst snd]; [done|].
  destruct (negb (m_surface c =? 0)%N && negb (m_eglContext c =? 0)%N
            || (m_surface c =? 0)%N && (m_eglContext c =? 0)%N);
    cbn [negb andb fst snd w_current]; done.
Qed.

Lemma releaseContext_current (c : OpenGLContext) (w : World F) :
  m_display c ≠ 0%N -> w_current (releaseContext c w).2 = (0%N, 0%N).
Proof.
  intros Hd. unfold releaseContext, eglMakeCurrent.
  destruct (N.eqb_spec (m_display c) 0) as [|_]; [done|]. reflexivity.
Qed.

(** X12: [applyEffect] on a registered effect dereferences a null context
    when the renderer has none.  With [outputFramebuffer = 0] and an effect
    whose shader never compiled it returns false, releases the context, and
    leaves the framebuffer it created for the call allocated and tracked. *)
Theorem applyEffect_spec (r : GPURenderer F) (inputTexture : GLuint) (effectName : string)
  (w : World F) (e : GPUEffect F) :
  getEffect r effectName = Some e ->
  (m_context r = None ->
   forall outputFramebuffer,
     applyEffect r inputTexture effectName outputFramebuffer w = None) /\
  (forall c, m_context r = Some c -> (makeCurrent c w).1 = true ->
     isAvailable e = false ->
     0 < renderWidth (m_config r) -> 0 < renderHeight (m_config r) ->
     let fbo := gen_name (dom (gl_framebuffers (w_gl w))) in
     exists r' w',
       applyEffect r inputTexture effectName 0 w = Some (false, r', w') /\
       m_intermediateFramebuffers r' = m_intermediateFramebuffers r ++ [fbo] /\
       gl_framebuffers (w_gl w) !! fbo = None /\
       is_Some (gl_framebuffers (w_gl w') !! fbo) /\
       gl_events (w_gl w') = gl_events (w_gl w) /\
       w_current w' = (0%N, 0%N)).
Proof.
  intros He. unfold applyEffect. rewrite He. split.
  - by intros ->.
  - intros c Hc Hmc Hav Hw Hh. rewrite Hc.
    set (fbo := gen_name (dom (gl_framebuffers (w_gl w)))).
    pose proof (makeCurrent_frame c w) as [M1 M2].
    pose proof (makeCurrent_current c w Hmc) as [_ Hd].
    destruct (makeCurrent c w) as [ok w0]. cbn [fst snd] in *. subst ok. cbn [negb N.eqb].
    rewrite createIntermediateFramebuffer_success by done. cbv beta iota zeta.
    rewrite M1. fold fbo.
    pose proof (gen_name_nonzero (dom (gl_framebuffers (w_gl w)))) as Hf0. fold fbo in Hf0.
    destruct (N.eqb_spec fbo 0) as [|_]; [done|].
    rewrite apply_unavailable by done. cbv beta iota zeta.
    set (w1 := log_apply _ _ _ _).
    pose proof (releaseContext_frame c w1) as [R1 R2].
    pose proof (releaseContext_current c w1 Hd) as R3.
    destruct (releaseContext c w1) as [okr w2]. cbn [fst snd] in *.
    eexists _, _. split; [reflexivity|].
    cbn [set_effects set_intermediateFramebuffers m_intermediateFramebuffers].
    split; [done|]. split; [apply gen_name_lookup|].
    rewrite R1. subst w1. cbn [log_apply set_gl on_gl w_gl framebuffer_created
      gl_framebuffers gl_events].
    rewrite lookup_insert_eq. split; [eauto|]. split; [done|exact R3].
Qed.

(** X13: when the framebuffer cannot be created, [renderToTexture] and
    [applyEffect] return their failure value without releasing the context
    they made current. *)
Theorem framebuffer_failure_leaves_context_current (r : GPURenderer F)
  (inputTexture : GLuint) (effectName : string) (w : World F) (c : OpenGLContext) :
  m_context r = Some c ->
  isInitialized r = true ->
  (makeCurrent c w).1 = true ->
  renderWidth (m_config r) <= 0 \/ renderHeight (m_config r) <= 0 ->
  (exists w',
     renderToTexture r inputTexture w = Some (0%N, r, w') /\
     w_current w' = (m_surface c, m_eglContext c) /\ m_eglContext c ≠ 0%N) /\
  (is_Some (getEffect r effectName) ->
   exists w',
     applyEffect r inputTexture effectName 0 w = Some (false, r, w') /\
     w_current w' = (m_surface c, m_eglContext c) /\ m_eglContext c ≠ 0%N).
Proof.
  intros Hc Hinit Hmc Hbad.
  assert (Hctx : m_eglContext c ≠ 0%N).
  { unfold isInitialized in Hinit. rewrite Hc in Hinit. unfold ctx_isInitialized in Hinit.
    apply andb_prop in Hinit as [_ H]. by destruct (N.eqb_spec (m_eglContext c) 0). }
  pose proof (makeCurrent_current c w Hmc) as [Hcur _].
  split.
  - unfold renderToTexture. rewrite Hc, Hinit. cbn [negb].
    destruct (makeCurrent c w) as [ok w0]. cbn [fst snd] in *. subst ok. cbn [negb].
    rewrite createIntermediateFramebuffer_failure by done. cbv beta iota zeta.
    cbn [N.eqb]. eexists. split; [reflexivity|]. done.
  - intros [e He]. unfold applyEffect. rewrite He, Hc.
    destruct (makeCurrent c w) as [ok w0]. cbn [fst snd] in *. subst ok. cbn [negb N.eqb].
    rewrite createIntermediateFramebuffer_failure by done. cbv beta iota zeta.
    cbn [N.eqb]. eexists. split; [reflexivity|]. done.
Qed.

Lemma addEffect_concrete (r : GPURenderer F) (e : GPUEffect F) :
  e ∈ concrete_effects -> addEffect (Some e) r = (false, r).
Proof.
  intros Hin. apply addEffect_named_rejected.
  unfold concrete_effects in Hin.
  repeat (apply elem_of_cons in Hin as [->|Hin]; [done|]).
  by apply elem_of_nil in Hin.
Qed.

(** X6: the eleven [addEffect] calls of [GPUBridge::createRenderer] all fail
    and leave the renderer as it was; on a renderer that had no effect the
    count stays 0 and the bridge's [applyEffect] returns false for every
    name. *)
Theorem createRenderer_registers_nothing (renderer : GPURenderer F) :
  createRenderer_addEffects renderer = renderer /\
  (m_effects renderer = ∅ ->
   getEffectCount (createRenderer_addEffects renderer) = 0%nat /\
   forall b rendererPtr effectName,
     getRenderer b rendererPtr = Some (createRenderer_addEffects renderer) ->
     GPUBridge_applyEffect rendererPtr effectName b = (false, b)).
Proof.
  assert (H : createRenderer_addEffects renderer = renderer).
  { unfold createRenderer_addEffects, addEffects.
    assert (Hall : forall e, e ∈ concrete_effects (F:=F) -> e ∈ concrete_effects (F:=F))
      by done.
    revert Hall. generalize (concrete_effects (F:=F)) at 1 3.
    intros l. induction l as [|e l IH]; intros Hall; [done|].
    cbn [fmap list_fmap fold_left]. rewrite addEffect_concrete by (apply Hall; by left).
    apply IH. intros x Hx. apply Hall. by right. }
  split; [exact H|]. rewrite H. intros Hempty. split.
  - unfold getEffectCount. by rewrite Hempty, map_size_empty.
  - intros b ptr name Hget. unfold GPUBridge_applyEffect. rewrite Hget.
    unfold hasEffect. rewrite Hempty, lookup_empty.
    rewrite bool_decide_eq_false_2; [done|]. by intros [x Hx].
Qed.

(** X9: [storeRenderer] returns a handle that was not in use, under which
    [getRenderer] finds the renderer; the other handles keep their
    renderers, and the next handle differs. *)
Theorem storeRenderer_getRenderer (b : GPUBridge F) (renderer : GPURenderer F) :
  bridge_wf b ->
  g_nextRendererPtr b < 2 ^ 63 - 1 ->
  let ptr := (storeRenderer renderer b).1 in
  let b' := (storeRenderer renderer b).2 in
  getRenderer b ptr = None /\
  getRenderer b' ptr = Some renderer /\
  (forall other, other ≠ ptr -> getRenderer b' other = getRenderer b other) /\
  bridge_wf b' /\
  (storeRenderer renderer b').1 ≠ ptr.
Proof.
  intros Hwf _ ptr b'. unfold getRenderer, storeRenderer in *. cbn [fst snd] in *.
  subst ptr b'. cbn [s_renderers g_nextRendererPtr].
  split.
  { destruct (s_renderers b !! g_nextRendererPtr b) eqn:E; [|done].
    specialize (Hwf (g_nextRendererPtr b)). rewrite E in Hwf.
    assert (g_nextRendererPtr b < g_nextRendererPtr b) by eauto. lia. }
  split; [by rewrite lookup_insert_eq|].
  split; [intros other Hne; by rewrite lookup_insert_ne|].
  split; [|lia].
  intros p. cbn [s_renderers g_nextRendererPtr].
  destruct (decide (p = g_nextRendererPtr b)) as [->|Hne]; [lia|].
  rewrite lookup_insert_ne by done. intros Hp. specialize (Hwf p Hp). lia.
Qed.
End ApplyEffect.

Section ChainResources.
Context {F : Type} {fops : FloatOps F}.

(** The loop over [name :: rest] is the stage of [name] followed by the
    loop over [rest]. *)
Lemma applyEffectChain_loop_cons name rest cur (r : GPURenderer F) (w : World F) :
  applyEffectChain_loop (name :: rest) cur r w
  = match applyEffectChain_loop [name] cur r w with
    | Some (cur1, r1, w1) => applyEffectChain_loop rest cur1 r1 w1
    | None => None
    end.
Proof.
  cbn [applyEffectChain_loop].
  destruct (m_effects r !! name) as [e|]; [|done].
  destruct (negb (isEnabled e)); [done|].
  destruct (createIntermediateFramebuffer r w) as [[fbo r1] w1].
  destruct (fbo =? 0)%N; [done|].
  destruct (apply e cur fbo (renderWidth (m_config r1)) (renderHeight (m_config r1)) w1)
    as [[ok e'] w2].
  destruct (negb ok); [done|].
  by destruct (getFramebufferTexture fbo (w_gl w2)).
Qed.

(** The stage of a registered name always completes, within the frame of
    the chain. *)
Lemma chain_stage_result name cur (r : GPURenderer F) (w : World F) e :
  m_effects r !! name = Some e ->
  exists cur1 r1 w1,
    applyEffectChain_loop [name] cur r w = Some (cur1, r1, w1) /\
    chain_frame r w r1 w1.
Proof.
  intros He.
  destruct (chain_stage name [] cur r w e He) as (cur1 & r1 & w1 & Hloop & Hcf & _).
  exists cur1, r1, w1. split; [exact Hloop|exact Hcf].
Qed.

(** What one stage allocates. *)
Lemma chain_stage_allocations name cur (r : GPURenderer F) (w : World F) e cur1 r1 w1 :
  m_effects r !! name = Some e ->
  0 < renderWidth (m_config r) -> 0 < renderHeight (m_config r) ->
  applyEffectChain_loop [name] cur r w = Some (cur1, r1, w1) ->
  let fbo := gen_name (dom (gl_framebuffers (w_gl w))) in
  m_intermediateFramebuffers r1
  = m_intermediateFramebuffers r ++ (if isEnabled e then [fbo] else []) /\
  gl_framebuffers (w_gl w1)
  = (if isEnabled e && isAvailable e
     then <[fbo := {| fb_color := gen_name (dom (gl_textures (w_gl w)));
                      fb_depth := gen_name (dom (gl_renderbuffers (w_gl w))) |}]>
            (gl_framebuffers (w_gl w))
     else gl_framebuffers (w_gl w)) /\
  (isEnabled e = true ->
   gen_name (dom (gl_textures (w_gl w))) ∈ dom (gl_textures (w_gl w1)) /\
   gen_name (dom (gl_renderbuffers (w_gl w))) ∈ dom (gl_renderbuffers (w_gl w1))).
Proof.
  intros He Hw Hh. cbn [applyEffectChain_loop]. rewrite He.
  destruct (isEnabled e) eqn:Hen; cbn [negb andb].
  { rewrite createIntermediateFramebuffer_success by done. cbv beta iota zeta.
    set (fbo := gen_name (dom (gl_framebuffers (w_gl w)))).
    set (W := renderWidth (m_config r)) in *. set (H := renderHeight (m_config r)) in *.
    change (renderWidth (m_config (set_intermediateFramebuffers (fun l => l ++ [fbo]) r)))
      with W.
    change (renderHeight (m_config (set_intermediateFramebuffers (fun l => l ++ [fbo]) r)))
      with H.
    pose proof (gen_name_nonzero (dom (gl_framebuffers (w_gl w)))) as Hf0. fold fbo in Hf0.
    pose proof (gen_name_lookup (gl_framebuffers (w_gl w))) as Hfl. fold fbo in Hfl.
    destruct (N.eqb_spec fbo 0) as [|_]; [done|].
    set (w0 := set_gl (framebuffer_created W H (w_gl w)) w).
    assert (Hfbs1 : gl_framebuffers (w_gl w0)
                    = <[fbo := {| fb_color := gen_name (dom (gl_textures (w_gl w)));
                                  fb_depth := gen_name (dom (gl_renderbuffers (w_gl w))) |}]>
                        (gl_framebuffers (w_gl w))) by reflexivity.
    assert (Htex1 : gen_name (dom (gl_textures (w_gl w))) ∈ dom (gl_textures (w_gl w0))).
    { apply elem_of_dom. cbn [w0 set_gl on_gl w_gl framebuffer_created gl_textures].
      rewrite lookup_insert_eq. eauto. }
    assert (Hrb1 : gen_name (dom (gl_renderbuffers (w_gl w)))
                   ∈ dom (gl_renderbuffers (w_gl w0))).
    { apply elem_of_dom. cbn [w0 set_gl on_gl w_gl framebuffer_created gl_renderbuffers].
      rewrite lookup_insert_eq. eauto. }
    assert (Hst1 : framebuffer_status (w_gl w0) fbo = GL_FRAMEBUFFER_COMPLETE)
      by (by apply framebuffer_created_status).
    clearbody w0.
    destruct (isAvailable e) eqn:Hav.
    - destruct (apply_enabled e cur fbo W H w0 Hav Hen Hst1)
        as (e' & w2 & Happ & Hef & [T1 T2 T3 T4] & _).
      rewrite Happ. cbv beta iota zeta. cbn [negb].
      assert (Hfb2 : gl_framebuffers (w_gl w2) !! fbo
                     = Some {| fb_color := gen_name (dom (gl_textures (w_gl w)));
                               fb_depth := gen_name (dom (gl_renderbuffers (w_gl w))) |}).
      { by rewrite T1, Hfbs1, lookup_insert_eq. }
      pose proof (getFramebufferTexture_spec (w_gl w2) fbo _ Hfb2)
        as (G1 & G2 & G3 & G4 & G5 & G6).
      destruct (getFramebufferTexture fbo (w_gl w2)) as [tex gl3].
      cbn [fst snd fb_color] in G1, G2, G3, G4, G5, G6.
      intros [= <- <- <-]. cbv zeta.
      cbn [set_effects set_intermediateFramebuffers m_intermediateFramebuffers
           set_gl on_gl w_gl].
      split; [done|]. split; [by rewrite G2, T1, Hfbs1|]. intros _.
      rewrite G3, G4, T2. split; [|done].
      apply elem_of_dom. apply elem_of_dom in Htex1 as [x Hx].
      exists x. by eapply lookup_weaken.
    - rewrite apply_unavailable by done. cbv beta iota zeta. cbn [negb].
      intros [= <- <- <-]. cbv zeta.
      cbn [set_effects set_intermediateFramebuffers m_intermediateFramebuffers
           on_gl log_apply w_gl].
      pose proof (deleteFramebuffer_spec (w_gl w0) fbo) as (D1 & D2 & D3 & D4 & D5).
      destruct (N.eqb_spec fbo 0) as [|_]; [done|].
      split; [done|]. split.
      + rewrite D1, Hfbs1. by apply delete_insert_id.
      + intros _. by rewrite D2, D3. }
  intros [= <- <- <-]. cbv zeta. rewrite app_nil_r. done.
Qed.

Lemma stage_attempted_frame (r : GPURenderer F) (w : World F) r' w' name :
  chain_frame r w r' w' -> stage_attempted r' name = stage_attempted r name.
Proof.
  intros Hcf. unfold stage_attempted.
  pose proof (cf_effects _ _ _ _ Hcf name) as He.
  destruct (m_effects r !! name) as [e|], (m_effects r' !! name) as [e'|]; try done.
  unfold isEnabled. by rewrite (effect_frame_enabled _ _ He).
Qed.

Lemma filter_ext_bool {A} (f g : A -> bool) (l : list A) :
  (forall x, f x = g x) ->
  filter (fun x => f x = true) l = filter (fun x => g x = true) l.
Proof.
  intros Hfg. induction l as [|x l IH]; [done|].
  destruct (g x) eqn:E.
  - rewrite !filter_cons_True by (by rewrite ?Hfg). by rewrite IH.
  - rewrite !filter_cons_False by (rewrite ?Hfg; congruence). done.
Qed.

Lemma chain_allocations names : forall cur (r : GPURenderer F) (w : World F),
  (forall n, n ∈ names -> is_Some (m_effects r !! n)) ->
  0 < renderWidth (m_config r) -> 0 < renderHeight (m_config r) ->
  exists out r' w',
    applyEffectChain_loop names cur r w = Some (out, r', w') /\
    chain_frame r w r' w' /\
    (exists new, m_intermediateFramebuffers r' = m_intermediateFramebuffers r ++ new /\
                 length new = length (filter (fun n => stage_attempted r n = true) names)) /\
    size (gl_framebuffers (w_gl w'))
    = (size (gl_framebuffers (w_gl w))
       + length (filter (fun n => successfully_applied r n = true) names))%nat.
Proof.
  induction names as [|name rest IH]; intros cur r w Hreg Hw Hh.
  - exists cur, r, w. split; [done|]. split; [apply chain_frame_refl|].
    split; [exists []; by rewrite app_nil_r|]. cbn. lia.
  - destruct (Hreg name) as [e He]; [by left|].
    destruct (chain_stage_result name cur r w e He) as (cur1 & r1 & w1 & Hstage & Hcf1).
    destruct (chain_stage_allocations name cur r w e cur1 r1 w1 He Hw Hh Hstage)
      as (Hint & Hfbs & _).
    destruct (IH cur1 r1 w1) as (out & r' & w' & Hrest & Hcf2 & (new & Hnew & Hlen) & Hsize).
    { intros n Hn. pose proof (cf_effects _ _ _ _ Hcf1 n) as Hn'.
      destruct (Hreg n) as [x Hx]; [by right|]. rewrite Hx in Hn'.
      destruct (m_effects r1 !! n); [eauto|done]. }
    { by rewrite (cf_config _ _ _ _ Hcf1). }
    { by rewrite (cf_config _ _ _ _ Hcf1). }
    exists out, r', w'. rewrite applyEffectChain_loop_cons, Hstage.
    split; [exact Hrest|]. split; [by eapply chain_frame_trans|].
    rewrite (filter_ext_bool _ _ rest (fun n => stage_attempted_frame _ _ _ _ n Hcf1)) in Hlen.
    rewrite (filter_ext_bool _ _ rest (fun n => successfully_applied_frame _ _ _ _ n Hcf1)) in Hsize.
    assert (Hatt : stage_attempted r name = isEnabled e)
      by (unfold stage_attempted; by rewrite He).
    assert (Hsuc : successfully_applied r name = isEnabled e && isAvailable e).
    { unfold successfully_applied. rewrite He.
      rewrite !bool_decide_eq_true_2 by done. by rewrite !andb_true_r. }
    split.
    + exists ((if isEnabled e then [gen_name (dom (gl_framebuffers (w_gl w)))] else [])
              ++ new).
      split; [by rewrite Hnew, Hint, app_assoc|].
      rewrite length_app, Hlen.
      destruct (isEnabled e) eqn:Hen.
      * rewrite filter_cons_True by (by rewrite Hatt). done.
      * rewrite filter_cons_False by (rewrite Hatt; congruence). done.
    + rewrite Hsize, Hfbs.
      destruct (isEnabled e && isAvailable e) eqn:Hok.
      * rewrite filter_cons_True by (by rewrite Hsuc).
        rewrite map_size_insert_None by apply gen_name_lookup. cbn [length]. lia.
      * rewrite filter_cons_False by (rewrite Hsuc; congruence). done.
Qed.

(** X10: one run of the chain appends one framebuffer handle to
    [m_intermediateFramebuffers] for every enabled effect and removes none;
    the driver's framebuffer table keeps what it had and gains one
    framebuffer for every stage that rendered. *)
Theorem applyEffectChain_allocations (r : GPURenderer F) (inputTexture : GLuint)
  (w : World F) :
  chain_names_registered r ->
  0 < renderWidth (m_config r) -> 0 < renderHeight (m_config r) ->
  exists out r' w',
    applyEffectChain r inputTexture w = Some (out, r', w') /\
    (exists new,
       m_intermediateFramebuffers r' = m_intermediateFramebuffers r ++ new /\
       length new
       = length (filter (fun n => stage_attempted r n = true) (m_effectOrder r))) /\
    gl_framebuffers (w_gl w) ⊆ gl_framebuffers (w_gl w') /\
    size (gl_framebuffers (w_gl w'))
    = (size (gl_framebuffers (w_gl w))
       + length (filter (fun n => successfully_applied r n = true) (m_effectOrder r)))%nat.
Proof.
  intros Hreg Hw Hh.
  destruct (chain_allocations (m_effectOrder r) inputTexture r w Hreg Hw Hh)
    as (out & r' & w' & Hrun & Hcf & Hnew & Hsize).
  exists out, r', w'. split; [exact Hrun|]. split; [exact Hnew|].
  split; [apply (cf_framebuffers _ _ _ _ Hcf)|exact Hsize].
Qed.

(** X11: a stage whose [apply] fails deletes its framebuffer object only:
    the colour texture and the depth renderbuffer created for it stay in the
    driver's tables, and the deleted handle stays in
    [m_intermediateFramebuffers]. *)
Theorem applyEffectChain_failed_stage_leaks (r : GPURenderer F) (w : World F)
  (name : string) (cur : GLuint) (e : GPUEffect F) :
  m_effects r !! name = Some e ->
  isEnabled e = true -> isAvailable e = false ->
  0 < renderWidth (m_config r) -> 0 < renderHeight (m_config r) ->
  let fbo := gen_name (dom (gl_framebuffers (w_gl w))) in
  let tex := gen_name (dom (gl_textures (w_gl w))) in
  let rb := gen_name (dom (gl_renderbuffers (w_gl w))) in
  exists r1 w1,
    applyEffectChain_loop [name] cur r w = Some (cur, r1, w1) /\
    gl_framebuffers (w_gl w1) = gl_framebuffers (w_gl w) /\
    gl_textures (w_gl w1)
    = <[tex := {| tex_size := Some (renderWidth (m_config r), renderHeight (m_config r)) |}]>
        (gl_textures (w_gl w)) /\
    gl_renderbuffers (w_gl w1)
    = <[rb := {| rb_size := Some (renderWidth (m_config r), renderHeight (m_config r)) |}]>
        (gl_renderbuffers (w_gl w)) /\
    gl_textures (w_gl w) !! tex = None /\
    gl_renderbuffers (w_gl w) !! rb = None /\
    m_intermediateFramebuffers r1 = m_intermediateFramebuffers r ++ [fbo] /\
    gl_framebuffers (w_gl w1) !! fbo = None.
Proof.
  intros He Hen Hav Hw Hh fbo tex rb.
  cbn [applyEffectChain_loop]. rewrite He, Hen. cbn [negb].
  rewrite createIntermediateFramebuffer_success by done. cbv beta iota zeta.
  fold fbo.
  pose proof (gen_name_nonzero (dom (gl_framebuffers (w_gl w)))) as Hf0. fold fbo in Hf0.
  pose proof (gen_name_lookup (gl_framebuffers (w_gl w))) as Hfl. fold fbo in Hfl.
  destruct (N.eqb_spec fbo 0) as [|_]; [done|].
  rewrite apply_unavailable by done. cbv beta iota zeta. cbn [negb].
  eexists _, _. split; [reflexivity|].
  cbn [set_effects set_intermediateFramebuffers m_intermediateFramebuffers
       on_gl log_apply set_gl w_gl].
  pose proof (deleteFramebuffer_spec
                (framebuffer_created (renderWidth (m_config r)) (renderHeight (m_config r))
                                     (w_gl w)) fbo) as (D1 & D2 & D3 & D4 & D5).
  destruct (N.eqb_spec fbo 0) as [|_]; [done|].
  assert (Hfbs : gl_framebuffers
                   (deleteFramebuffer fbo
                      (framebuffer_created (renderWidth (m_config r))
                                           (renderHeight (m_config r)) (w_gl w)))
                 = gl_framebuffers (w_gl w)).
  { rewrite D1. cbn [framebuffer_created gl_framebuffers]. by apply delete_insert_id. }
  rewrite Hfbs, D2, D3.
  split; [done|]. split; [done|]. split; [done|].
  split; [apply gen_name_lookup|]. split; [apply gen_name_lookup|]. done.
Qed.
End ChainResources.

Section EffectObject.
Context {F : Type} {fops : FloatOps F}.

Lemma glm_clamp_bounds (v lo hi : F) :
  ltb_strict_order -> f_ltb hi lo = false ->
  f_ltb (glm_clamp v lo hi) lo = false /\ f_ltb hi (glm_clamp v lo hi) = false.
Proof.
  intros (Hirr & Htr & Hneg) Hle. unfold glm_clamp, glm_min, glm_max.
  destruct (f_ltb v lo) eqn:E1.
  - destruct (f_ltb hi lo) eqn:E2; [done|]. by rewrite Hirr.
  - destruct (f_ltb hi v) eqn:E2; [by rewrite Hirr|]. done.
Qed.

Lemma glm_clamp_inside (v lo hi : F) :
  f_ltb v lo = false -> f_ltb hi v = false -> glm_clamp v lo hi = v.
Proof. intros H1 H2. unfold glm_clamp, glm_min, glm_max. by rewrite H1, H2. Qed.

Lemma glm_clamp_empty_range (v lo hi : F) :
  ltb_strict_order -> f_ltb hi lo = true -> glm_clamp v lo hi = hi.
Proof.
  intros (Hirr & Htr & Hneg) Hlt. unfold glm_clamp, glm_min, glm_max.
  destruct (f_ltb v lo) eqn:E1; [by rewrite Hlt|].
  destruct (Hneg hi lo v Hlt) as [H|H]; [by rewrite H|congruence].
Qed.

(** X14: with [<] a strict total order and a range that is not empty, the
    value [setParameter] stores lies in the range, a value in the range is
    stored as it is, and storing the stored value again changes nothing;
    with an empty range ([max < min]) the maximum is stored. *)
Theorem setParameter_in_range (e : GPUEffect F) (name : string) (p : EffectParameter F)
  (v : F) :
  ltb_strict_order ->
  m_parameterDefinitions e !! name = Some p ->
  let e' := (setParameter name v e).2 in
  let v' := getParameter e' name in
  (f_ltb (ep_maxValue p) (ep_minValue p) = false ->
   f_ltb v' (ep_minValue p) = false /\ f_ltb (ep_maxValue p) v' = false /\
   (setParameter name v' e').2 = e') /\
  (f_ltb v (ep_minValue p) = false -> f_ltb (ep_maxValue p) v = false -> v' = v) /\
  (f_ltb (ep_maxValue p) (ep_minValue p) = true -> v' = ep_maxValue p).
Proof.
  intros Hord Hdef e' v'.
  assert (Hv : v' = glm_clamp v (ep_minValue p) (ep_maxValue p)).
  { unfold v', e', setParameter. rewrite Hdef. cbn [snd].
    unfold getParameter. cbn [set_parameters m_parameters]. by rewrite lookup_insert_eq. }
  split; [|split].
  - intros Hle. destruct (glm_clamp_bounds v _ _ Hord Hle) as [H1 H2].
    rewrite Hv. split; [done|]. split; [done|].
    unfold e', setParameter. rewrite Hdef. cbn [snd].
    cbn [set_parameters m_parameterDefinitions]. rewrite Hdef. cbn [snd].
    rewrite glm_clamp_inside by done.
    unfold set_parameters. cbn. by rewrite insert_insert_eq.
  - intros H1 H2. rewrite Hv. by apply glm_clamp_inside.
  - intros Hlt. rewrite Hv. by apply glm_clamp_empty_range.
Qed.

(** X15: [setIntensity] stores a value in [0, 1], a value in that interval
    as it is; it is idempotent and leaves every parameter alone. *)
Theorem setIntensity_in_range (e : GPUEffect F) (v : F) :
  ltb_strict_order ->
  f_ltb (f_lit 1) (f_lit 0) = false ->
  f_ltb (getIntensity (setIntensity v e)) (f_lit 0) = false /\
  f_ltb (f_lit 1) (getIntensity (setIntensity v e)) = false /\
  (f_ltb v (f_lit 0) = false -> f_ltb (f_lit 1) v = false ->
   getIntensity (setIntensity v e) = v) /\
  setIntensity (getIntensity (setIntensity v e)) (setIntensity v e) = setIntensity v e /\
  (forall name, getParameter (setIntensity v e) name = getParameter e name).
Proof.
  intros Hord H01. unfold getIntensity, setIntensity. cbn [m_intensity].
  destruct (glm_clamp_bounds v _ _ Hord H01) as [H1 H2].
  split; [done|]. split; [done|]. split; [apply glm_clamp_inside|].
  split; [|done]. cbn. by rewrite glm_clamp_inside.
Qed.

Lemma resetParameters_lookup (e : GPUEffect F) (name : string) :
  m_parameters (resetParameters e) !! name
  = match m_parameterDefinitions e !! name with
    | Some def => Some (ep_defaultValue def)
    | None => m_parameters e !! name
    end.
Proof.
  unfold resetParameters. cbn [set_parameters m_parameters].
  generalize (m_parameters e). intros ps.
  induction (m_parameterDefinitions e) as [|k d defs Hk Hfold IH] using map_first_key_ind.
  - by rewrite map_fold_empty, lookup_empty.
  - rewrite map_fold_insert_first_key by done.
    destruct (decide (name = k)) as [->|Hne].
    + by rewrite !lookup_insert_eq.
    + rewrite !lookup_insert_ne by done. apply IH.
Qed.

(** X16: after [resetParameters] every defined parameter reads its default,
    a name without definition reads what it read before, the ranges are
    unchanged, and a second reset changes nothing. *)
Theorem resetParameters_defaults (e : GPUEffect F) :
  (forall name def, m_parameterDefinitions e !! name = Some def ->
     getParameter (resetParameters e) name = ep_defaultValue def) /\
  (forall name, m_parameterDefinitions e !! name = None ->
     getParameter (resetParameters e) name = getParameter e name) /\
  (forall name, getParameterRange (resetParameters e) name = getParameterRange e name) /\
  resetParameters (resetParameters e) = resetParameters e.
Proof.
  split; [|split; [|split]].
  - intros name def Hdef. unfold getParameter. by rewrite resetParameters_lookup, Hdef.
  - intros name Hdef. unfold getParameter. by rewrite resetParameters_lookup, Hdef.
  - done.
  - assert (Hm : m_parameters (resetParameters (resetParameters e))
                 = m_parameters (resetParameters e)).
    { apply map_eq. intros name. rewrite (resetParameters_lookup (resetParameters e)).
      change (m_parameterDefinitions (resetParameters e)) with (m_parameterDefinitions e).
      rewrite resetParameters_lookup. by destruct (m_parameterDefinitions e !! name). }
    unfold resetParameters at 1. unfold set_parameters.
    change (m_parameterDefinitions (resetParameters e)) with (m_parameterDefinitions e).
    fold (m_parameters (resetParameters (resetParameters e))) in Hm.
    destruct e as [n c s ps ds i en k]. unfold resetParameters, set_parameters in *.
    cbn in *. by rewrite Hm.
Qed.
End EffectObject.

Section ConcreteEffects.
Context {F : Type} {fops : FloatOps F}.

Lemma applyCustomUniforms_no_shader (e : GPUEffect F) inputTexture width height
  (gl : GLState F) :
  m_shader e = None -> applyCustomUniforms e inputTexture width height gl = (e, gl).
Proof.
  intros Hs. unfold applyCustomUniforms.
  destruct (m_kind e);
    unfold GPUEffect_applyCustomUniforms, ColorGradeEffect_applyCustomUniforms,
      CurvesEffect_applyCustomUniforms, HSLEffect_applyCustomUniforms,
      GaussianBlurEffect_applyCustomUniforms, VignetteEffect_applyCustomUniforms,
      GlowEffect_applyCustomUniforms, ChromaticAberrationEffect_applyCustomUniforms,
      GlitchEffect_applyCustomUniforms, PosterizeEffect_applyCustomUniforms,
      InvertEffect_applyCustomUniforms, GrayscaleEffect_applyCustomUniforms;
    by rewrite ?Hs.
Qed.

Lemma setParameter_shader (e : GPUEffect F) name v :
  m_shader (setParameter name v e).2 = m_shader e.
Proof. unfold setParameter. by destruct (m_parameterDefinitions e !! name). Qed.

Lemma call_effect_no_shader (e : GPUEffect F) (w : World F) (c : EffectCall F) :
  m_shader e = None ->
  m_shader (call_effect (e, w) c).1 = None /\
  w_gl (call_effect (e, w) c).2 = w_gl w.
Proof.
  intros Hs. destruct c; cbn [call_effect fst snd];
    try (split; [|done]);
    rewrite ?setParameter_shader; try done.
  - unfold ColorGradeEffect_setLUT. by destruct (m_kind e).
  - unfold ColorGradeEffect_setTemperature. by rewrite setParameter_shader.
  - unfold ColorGradeEffect_setTint. by rewrite setParameter_shader.
  - unfold CurvesEffect_setCurveTexture. by destruct (m_kind e).
  - unfold HSLEffect_setHue. by rewrite setParameter_shader.
  - unfold HSLEffect_setSaturation. by rewrite setParameter_shader.
  - unfold HSLEffect_setLightness. by rewrite setParameter_shader.
  - unfold GlitchEffect_setTime. by destruct (m_kind e).
  - by rewrite applyCustomUniforms_no_shader.
  - rewrite apply_unavailable by (unfold isAvailable; by rewrite Hs). done.
Qed.

Lemma call_effects_no_shader calls : forall (e : GPUEffect F) (w : World F),
  m_shader e = None ->
  m_shader (call_effects calls (e, w)).1 = None /\
  w_gl (call_effects calls (e, w)).2 = w_gl w.
Proof.
  induction calls as [|c cs IH]; intros e w Hs; [done|].
  cbn [call_effects fold_left]. fold (call_effects cs (call_effect (e, w) c)).
  destruct (call_effect_no_shader e w c Hs) as [H1 H2].
  destruct (call_effect (e, w) c) as [e1 w1]. cbn [fst snd] in *.
  destruct (IH e1 w1 H1) as [H3 H4]. split; [done|congruence].
Qed.

(** X17: an effect built by one of the eleven constructors has no shader,
    and no call of a public member gives it one: after any sequence of
    calls it is unavailable, no driver state was changed, and [apply]
    returns false. *)
Theorem concrete_effects_never_render (e : GPUEffect F) (calls : list (EffectCall F))
  (w : World F) :
  e ∈ concrete_effects ->
  let e' := (call_effects calls (e, w)).1 in
  let w' := (call_effects calls (e, w)).2 in
  isAvailable e' = false /\
  w_gl w' = w_gl w /\
  forall inputTexture outputFramebuffer width height w0,
    apply e' inputTexture outputFramebuffer width height w0
    = (false, e', log_apply (m_name e') inputTexture outputFramebuffer w0).
Proof.
  intros Hin e' w'.
  assert (Hs : m_shader e = None).
  { unfold concrete_effects in Hin.
    repeat (apply elem_of_cons in Hin as [->|Hin]; [done|]).
    by apply elem_of_nil in Hin. }
  destruct (call_effects_no_shader calls e w Hs) as [H1 H2].
  assert (Hav : isAvailable e' = false) by (unfold isAvailable, e'; by rewrite H1).
  split; [exact Hav|]. split; [exact H2|].
  intros. by apply apply_unavailable.
Qed.

(** X18: the parameter named intensity is not the intensity that is drawn:
    [setParameter] on it changes what [getParameter] reads but not
    [getIntensity]; on a shader that is a linked program whose location
    cache holds only that program's locations, the draw call of a rendering
    [apply] still sees [m_intensity] at [uIntensity].  [setIntensity] in
    turn leaves the parameter alone. *)
Theorem intensity_parameter_not_drawn (e : GPUEffect F) (v : F)
  (inputTexture outputFramebuffer : GLuint) (width height : Z) (w : World F)
  (pid : GLuint) (pr : GLProgram F) (loc : Z) :
  isAvailable e = true -> m_enabled e = true ->
  framebuffer_status (w_gl w) outputFramebuffer = GL_FRAMEBUFFER_COMPLETE ->
  shader_linked (w_gl w) e pid ->
  gl_programs (w_gl w) !! pid = Some pr ->
  prog_locations pr !! "uIntensity" = Some loc ->
  let e1 := (setParameter "intensity" v e).2 in
  getIntensity e1 = getIntensity e /\
  (forall p, m_parameterDefinitions e !! "intensity" = Some p ->
     getParameter e1 "intensity" = glm_clamp v (ep_minValue p) (ep_maxValue p)) /\
  (forall x, getParameter (setIntensity x e) "intensity" = getParameter e "intensity") /\
  exists d,
    gl_events (w_gl (apply e1 inputTexture outputFramebuffer width height w).2)
    = EvDraw d :: gl_events (w_gl w) /\
    dc_uniforms d !! loc = Some (U1f (m_intensity e)).
Proof.
  intros Hav Hen Hst Hlink Hpr Hloc e1.
  assert (Hint : m_intensity e1 = m_intensity e).
  { unfold e1, setParameter. by destruct (m_parameterDefinitions e !! "intensity"). }
  assert (Hsh : m_shader e1 = m_shader e) by apply setParameter_shader.
  assert (Hen1 : m_enabled e1 = true).
  { unfold e1, setParameter. by destruct (m_parameterDefinitions e !! "intensity"). }
  assert (Hav1 : isAvailable e1 = true) by (unfold isAvailable; by rewrite Hsh).
  assert (Hlink1 : shader_linked (w_gl w) e1 pid).
  { destruct Hlink as (sp & pr0 & H1 & H2). exists sp, pr0. by rewrite Hsh. }
  split; [exact Hint|]. split; [|split; [done|]].
  - intros p Hp. unfold e1, setParameter. rewrite Hp. cbn [snd].
    unfold getParameter. cbn [set_parameters m_parameters]. by rewrite lookup_insert_eq.
  - destruct (apply_enabled e1 inputTexture outputFramebuffer width height w Hav1 Hen1 Hst)
      as (e' & w' & Happ & _ & _ & _ & _ & _ & Hdraw).
    destruct (Hdraw pid Hlink1) as (_ & d & Hd & _ & _ & _ & _ & Hu).
    exists d. rewrite Happ. cbn [snd]. split; [exact Hd|].
    rewrite <- Hint. by eapply Hu.
Qed.
End ConcreteEffects.


Section ShaderFacts.
Context {F : Type} {fops : FloatOps F}.

(** X20: once [getCachedUniformLocation] has answered for a name, the same
    answer is returned for that name from then on without asking the
    driver, also when the answer was -1; a first answer is the driver's. *)
Theorem getCachedUniformLocation_cached (sp : ShaderProgram) (gl : GLState F)
  (name : string) :
  let location := (getCachedUniformLocation sp gl name).1 in
  let sp' := (getCachedUniformLocation sp gl name).2 in
  (forall gl' : GLState F, getCachedUniformLocation sp' gl' name = (location, sp')) /\
  m_programId sp' = m_programId sp /\
  (m_uniformLocations sp !! name = None ->
   location = glGetUniformLocation gl (m_programId sp) name) /\
  (forall l, m_uniformLocations sp !! name = Some l -> location = l /\ sp' = sp) /\
  (forall other, other ≠ name ->
     m_uniformLocations sp' !! other = m_uniformLocations sp !! other).
Proof.
  assert (H : getCachedUniformLocation sp gl name
              = match m_uniformLocations sp !! name with
                | Some l => (l, sp)
                | None => (getUniformLocation sp gl name,
                           cacheUniformLocation sp name (getUniformLocation sp gl name))
                end) by reflexivity.
  rewrite H. clear H.
  destruct (m_uniformLocations sp !! name) as [l|] eqn:E; cbn [fst snd].
  - split; [intros gl'; unfold getCachedUniformLocation; by rewrite E|].
    split; [done|]. split; [done|]. split; [|done]. by intros l' [= <-].
  - split.
    { intros gl'. unfold getCachedUniformLocation, cacheUniformLocation.
      cbn [m_uniformLocations]. by rewrite lookup_insert_eq. }
    split; [done|]. split; [done|]. split; [done|].
    intros other Hne. cbn [cacheUniformLocation m_uniformLocations].
    by rewrite lookup_insert_ne.
Qed.

(** X21: [setUniform] on a name the program does not have leaves the driver
    state as it is and caches -1, so that later calls for the name do
    nothing either. *)
Theorem setUniform_missing_uniform (sp : ShaderProgram) (gl : GLState F) (name : string)
  (v : UniformValue F) :
  cache_sound gl sp ->
  glGetUniformLocation gl (m_programId sp) name = -1 ->
  (setUniform sp name v gl).2 = gl /\
  m_uniformLocations (setUniform sp name v gl).1 !! name = Some (-1) /\
  forall (gl' : GLState F) (v' : UniformValue F),
    setUniform (setUniform sp name v gl).1 name v' gl'
                 = ((setUniform sp name v gl).1, gl').
Proof.
  intros Hcs Hloc.
  pose proof (getCachedUniformLocation_spec sp gl name Hcs) as (H1 & _ & _).
  rewrite Hloc in H1.
  assert (Hset : setUniform sp name v gl = ((getCachedUniformLocation sp gl name).2, gl)).
  { unfold setUniform. destruct (getCachedUniformLocation sp gl name) as [l sp'].
    cbn [fst snd] in *. subst l. by rewrite decide_False by (intros H; by apply H). }
  rewrite Hset. cbn [fst snd]. split; [done|].
  assert (Hc : m_uniformLocations (getCachedUniformLocation sp gl name).2 !! name
               = Some (-1)).
  { unfold getCachedUniformLocation in *.
    destruct (m_uniformLocations sp !! name) as [l|] eqn:E; cbn [fst snd] in *.
    - by subst l.
    - cbn [cacheUniformLocation m_uniformLocations]. rewrite lookup_insert_eq.
      by rewrite H1. }
  split; [exact Hc|].
  intros gl' v'. unfold setUniform at 1. unfold getCachedUniformLocation at 1.
  rewrite Hc. by rewrite decide_False by (intros H; by apply H).
Qed.

Lemma setUniform_state (sp : ShaderProgram) (gl : GLState F) name v :
  (setUniform sp name v gl).2 = gl \/
  exists l, (setUniform sp name v gl).2 = glUniform l v gl.
Proof.
  unfold setUniform. destruct (getCachedUniformLocation sp gl name) as [l sp'].
  destruct (decide (l ≠ -1)); [right; by exists l|by left].
Qed.

(** X22: [setUniform] never changes a program other than the one in use,
    whichever [ShaderProgram] it is called on; called after [use] on a
    linked program, with a location cache that holds only the driver's
    answers for that program, it stores the value in that program's
    uniform. *)
Theorem setUniform_targets_program_in_use (sp : ShaderProgram) (gl : GLState F)
  (name : string) (v : UniformValue F) :
  (forall pid, pid ≠ gl_current_program gl ->
     gl_programs (setUniform sp name v gl).2 !! pid = gl_programs gl !! pid) /\
  (forall pr loc,
     isValid sp = true ->
     gl_programs gl !! m_programId sp = Some pr -> program_wf pr ->
     cache_sound gl sp ->
     prog_locations pr !! name = Some loc ->
     gl_current_program (use sp gl) = m_programId sp /\
     uniform_bound (setUniform sp name v (use sp gl)).2 (m_programId sp) name = Some v).
Proof.
  split.
  - intros pid Hne. destruct (setUniform_state sp gl name v) as [->|[l ->]]; [done|].
    unfold glUniform. cbn [set_programs gl_programs]. by rewrite lookup_alter_ne.
  - intros pr loc Hval Hpr Hwf Hcs Hloc.
    assert (Huse : use sp gl = glUseProgram (m_programId sp) gl).
    { unfold use. unfold isValid in Hval. by rewrite Hval. }
    assert (Hcur : gl_current_program (use sp gl) = m_programId sp).
    { rewrite Huse. unfold glUseProgram. cbn [set_current_program gl_current_program].
      rewrite decide_True; [done|]. right. rewrite Hpr. eauto. }
    split; [exact Hcur|].
    assert (Hprogs : gl_programs (use sp gl) = gl_programs gl) by (by rewrite Huse).
    assert (Hcs' : cache_sound (use sp gl) sp).
    { intros n l Hl. rewrite (Hcs n l Hl). unfold glGetUniformLocation. by rewrite Hprogs. }
    pose proof (getCachedUniformLocation_spec sp (use sp gl) name Hcs') as (H1 & _ & _).
    unfold setUniform.
    destruct (getCachedUniformLocation sp (use sp gl) name) as [l sp'].
    cbn [fst] in H1. unfold glGetUniformLocation in H1. rewrite Hprogs, Hpr, Hloc in H1.
    cbn in H1. subst l.
    destruct Hwf as [Hwf1 _]. destruct (Hwf1 name loc Hloc) as [Hne Hsome].
    rewrite decide_True by done. cbn [snd].
    destruct (glUniform_written loc v (use sp gl) pr) as (pr' & Hpr' & Hlocs & Hval').
    { by rewrite Hcur, Hprogs. }
    { done. }
    { done. }
    unfold uniform_bound. rewrite Hcur in Hpr'. rewrite Hpr', Hlocs, Hloc. done.
Qed.
End ShaderFacts.

Section ContextFacts.
Context {F : Type} {fops : FloatOps F}.

Lemma getNextTextureUnit_step (m : Z) :
  0 <= m < MAX_TEXTURE_UNITS ->
  getNextTextureUnit m = (GL_TEXTURE0 + m, (m + 1) mod MAX_TEXTURE_UNITS).
Proof.
  intros Hm. unfold getNextTextureUnit, MAX_TEXTURE_UNITS in *. f_equal.
  destruct (Z.leb_spec 16 (m + 1)).
  - assert (m = 15) as -> by lia. done.
  - by rewrite Z.mod_small by lia.
Qed.

Lemma getNextTextureUnit_calls_closed (n : nat) : forall m,
  0 <= m < MAX_TEXTURE_UNITS ->
  getNextTextureUnit_calls n m
  = ((fun k : nat => GL_TEXTURE0 + (m + Z.of_nat k) mod MAX_TEXTURE_UNITS) <$> seq 0 n,
     (m + Z.of_nat n) mod MAX_TEXTURE_UNITS).
Proof.
  induction n as [|n IH]; intros m Hm.
  - cbn. rewrite Z.add_0_r. by rewrite Z.mod_small.
  - cbn [getNextTextureUnit_calls]. rewrite getNextTextureUnit_step by done.
    rewrite IH by (apply Z.mod_pos_bound; by unfold MAX_TEXTURE_UNITS).
    cbn [seq fmap list_fmap]. f_equal.
    + f_equal.
      * rewrite Z.add_0_r. by rewrite Z.mod_small.
      * rewrite <- seq_shift, <- list_fmap_compose. apply list_fmap_ext.
        intros i k _. cbn. f_equal.
        rewrite Zplus_mod_idemp_l. f_equal. lia.
    + rewrite Zplus_mod_idemp_l. f_equal. lia.
Qed.

(** X23: starting from a counter in [0, 16), [getNextTextureUnit] keeps it
    there; the k-th call returns [GL_TEXTURE0 + (m + k) mod 16], sixteen
    calls return sixteen different units and bring the counter back. *)
Theorem getNextTextureUnit_cycle (m : Z) (n : nat) :
  0 <= m < MAX_TEXTURE_UNITS ->
  let units := (getNextTextureUnit_calls n m).1 in
  let m' := (getNextTextureUnit_calls n m).2 in
  0 <= m' < MAX_TEXTURE_UNITS /\
  m' = (m + Z.of_nat n) mod MAX_TEXTURE_UNITS /\
  length units = n /\
  (forall k unit, units !! k = Some unit ->
     unit = GL_TEXTURE0 + (m + Z.of_nat k) mod MAX_TEXTURE_UNITS /\
     GL_TEXTURE0 <= unit < GL_TEXTURE0 + MAX_TEXTURE_UNITS) /\
  (getNextTextureUnit_calls 16 m).2 = m /\
  NoDup (getNextTextureUnit_calls 16 m).1.
Proof.
  intros Hm units m'. unfold units, m'.
  rewrite !getNextTextureUnit_calls_closed by done. cbn [fst snd].
  split; [apply Z.mod_pos_bound; by unfold MAX_TEXTURE_UNITS|].
  split; [done|]. split; [by rewrite length_fmap, length_seq|].
  split.
  - intros k unit Hk. apply list_lookup_fmap_Some in Hk as (i & -> & Hi).
    apply lookup_seq in Hi as [-> _]. change (0 + k)%nat with k. split; [done|].
    pose proof (Z.mod_pos_bound (m + Z.of_nat k) MAX_TEXTURE_UNITS).
    unfold MAX_TEXTURE_UNITS in *. lia.
  - split.
    + change (Z.of_nat 16) with MAX_TEXTURE_UNITS.
      rewrite Z.add_mod by (by unfold MAX_TEXTURE_UNITS).
      rewrite Z.mod_same by (by unfold MAX_TEXTURE_UNITS).
      rewrite Z.add_0_r, Z.mod_mod by (by unfold MAX_TEXTURE_UNITS).
      by apply Z.mod_small.
    + apply NoDup_fmap_2_strong; [|apply NoDup_seq].
      intros i j Hi Hj Heq. apply elem_of_seq in Hi, Hj.
      unfold MAX_TEXTURE_UNITS in *.
      assert (E : (m + Z.of_nat i) mod 16 = (m + Z.of_nat j) mod 16) by lia.
      clear Heq.
      destruct (Z.leb_spec 16 (m + Z.of_nat i)), (Z.leb_spec 16 (m + Z.of_nat j)).
      * replace (m + Z.of_nat i) with ((m + Z.of_nat i - 16) + 1 * 16) in E by lia.
        replace (m + Z.of_nat j) with ((m + Z.of_nat j - 16) + 1 * 16) in E by lia.
        rewrite !Z_mod_plus_full in E. rewrite !Z.mod_small in E by lia. lia.
      * replace (m + Z.of_nat i) with ((m + Z.of_nat i - 16) + 1 * 16) in E by lia.
        rewrite !Z_mod_plus_full in E. rewrite !Z.mod_small in E by lia. lia.
      * replace (m + Z.of_nat j) with ((m + Z.of_nat j - 16) + 1 * 16) in E by lia.
        rewrite !Z_mod_plus_full in E. rewrite !Z.mod_small in E by lia. lia.
      * rewrite !Z.mod_small in E by lia. lia.
Qed.
End ContextFacts.

Section FramebufferFacts.
Context {F : Type} {fops : FloatOps F}.


(** X25: [deleteFramebuffer] after [createFramebuffer] restores the
    framebuffer table but not the texture and renderbuffer tables, which
    keep the two attachments; deleting again, or deleting 0, does nothing. *)
Theorem createFramebuffer_deleteFramebuffer (gl : GLState F) (width height : Z)
  (colorFormat : N) :
  0 < width -> 0 < height ->
  let fbo := (createFramebuffer width height colorFormat gl).1 in
  let gl1 := (createFramebuffer width height colorFormat gl).2 in
  let gl2 := deleteFramebuffer fbo gl1 in
  gl_framebuffers gl2 = gl_framebuffers gl /\
  gl_textures gl2 = gl_textures gl1 /\
  gl_renderbuffers gl2 = gl_renderbuffers gl1 /\
  size (gl_textures gl2) = S (size (gl_textures gl)) /\
  size (gl_renderbuffers gl2) = S (size (gl_renderbuffers gl)) /\
  deleteFramebuffer fbo gl2 = gl2 /\
  deleteFramebuffer 0 gl1 = gl1.
Proof.
  intros Hw Hh. rewrite createFramebuffer_success by done. cbn [fst snd].
  pose proof (gen_name_nonzero (dom (gl_framebuffers gl))) as Hf0.
  set (fbo := gen_name (dom (gl_framebuffers gl))) in *.
  pose proof (deleteFramebuffer_spec (framebuffer_created width height gl) fbo)
    as (D1 & D2 & D3 & D4 & D5).
  destruct (N.eqb_spec fbo 0) as [|_]; [done|].
  rewrite D1, D2, D3. cbn [framebuffer_created gl_framebuffers gl_textures gl_renderbuffers].
  split; [apply delete_insert_id, gen_name_lookup|].
  split; [done|]. split; [done|].
  split; [apply map_size_insert_None, gen_name_lookup|].
  split; [apply map_size_insert_None, gen_name_lookup|].
  split; [|reflexivity].
  unfold deleteFramebuffer.
  destruct (N.eqb_spec fbo 0) as [|_]; [done|]. cbn [negb].
  unfold glDeleteFramebuffers, framebuffer_created.
  unfold set_framebuffer_binding, set_framebuffers.
  cbn [gl_framebuffers gl_framebuffer_binding
       gl_textures gl_renderbuffers gl_programs gl_vertex_arrays gl_buffers
       gl_active_texture gl_texture_binding gl_renderbuffer_binding gl_current_program
       gl_vertex_array_binding gl_viewport gl_clear_color gl_events].
  fold fbo. destruct (decide (0%N = fbo)) as [E|_]; [by symmetry in E|].
  destruct (decide (0%N = fbo)) as [E|_]; [by symmetry in E|].
  rewrite delete_insert_id by apply gen_name_lookup.
  rewrite delete_id by apply gen_name_lookup. reflexivity.
Qed.



(** X27: after [shutdown] the context is not initialised and cannot be made
    current; a renderer holding it refuses [renderFrame] and
    [renderToTexture] without touching anything.  A second [shutdown]
    changes nothing. *)
Theorem ctx_shutdown_spec (c : OpenGLContext) (r : GPURenderer F) (w : World F)
  (inputTexture outputFramebuffer : GLuint) :
  m_context r = Some (ctx_shutdown c) ->
  ctx_isInitialized (ctx_shutdown c) = false /\
  ctx_shutdown (ctx_shutdown c) = ctx_shutdown c /\
  makeCurrent (ctx_shutdown c) w = (false, w) /\
  isInitialized r = false /\
  renderFrame r inputTexture outputFramebuffer w = Some (false, r, w) /\
  renderToTexture r inputTexture w = Some (0%N, r, w).
Proof.
  intros Hc.
  assert (H0 : ctx_shutdown c = {| m_display := 0; m_eglContext := 0; m_surface := 0;
                                   m_width := m_width c; m_height := m_height c |}).
  { unfold ctx_shutdown.
    destruct (N.eqb_spec (m_display c) 0) as [->|], (N.eqb_spec (m_eglContext c) 0) as [->|],
      (N.eqb_spec (m_surface c) 0) as [->|]; done. }
  rewrite H0 in *. split; [done|]. split; [done|]. split; [done|].
  assert (Hi : isInitialized r = false) by (unfold isInitialized; by rewrite Hc).
  split; [exact Hi|].
  unfold renderFrame, renderToTexture. by rewrite Hc, Hi.
Qed.
End FramebufferFacts.

Section Stats.
Context {F : Type} {fops : FloatOps F}.

(** X28: [updateStatistics] reports the number of tracked framebuffers as
    both resource counts, keeps a time whose history is empty and the frame
    rate when the total is not positive, never touches the registry, and is
    idempotent. *)
Theorem updateStatistics_spec (r : GPURenderer F) :
  let st := m_stats (updateStatistics r) in
  textureCount st = Z.of_nat (length (m_intermediateFramebuffers r)) /\
  framebufferCount st = textureCount st /\
  totalTimeMs st = f_add (gpuTimeMs st) (cpuTimeMs st) /\
  (m_gpuTimeHistory r = [] -> gpuTimeMs st = gpuTimeMs (m_stats r)) /\
  (m_cpuTimeHistory r = [] -> cpuTimeMs st = cpuTimeMs (m_stats r)) /\
  (f_ltb (f_lit 0) (totalTimeMs st) = false ->
   framesPerSecond st = framesPerSecond (m_stats r)) /\
  m_effects (updateStatistics r) = m_effects r /\
  m_effectOrder (updateStatistics r) = m_effectOrder r /\
  updateStatistics (updateStatistics r) = updateStatistics r.
Proof.
  intros st. unfold st, updateStatistics. cbn [set_stats m_stats textureCount
    framebufferCount totalTimeMs gpuTimeMs cpuTimeMs framesPerSecond m_effects m_effectOrder
    m_gpuTimeHistory m_cpuTimeHistory m_intermediateFramebuffers gpuMemoryUsedMB].
  split; [done|]. split; [done|]. split; [done|].
  split; [by intros ->|]. split; [by intros ->|].
  split; [by intros ->|]. split; [done|]. split; [done|].
  unfold set_stats. cbn. f_equal. f_equal.
  - by destruct (m_gpuTimeHistory r).
  - by destruct (m_cpuTimeHistory r).
  - by destruct (m_gpuTimeHistory r), (m_cpuTimeHistory r).
  - destruct (m_gpuTimeHistory r), (m_cpuTimeHistory r);
      match goal with |- context [f_ltb ?a ?b] => destruct (f_ltb a b) eqn:E end;
      cbn; rewrite ?E; done.
Qed.
End Stats.

(** ** The extra statements at concrete inputs *)

(** A renderer holding the one effect [addEffect] accepts. *)
Lemma registry_wf_preserved_witness :
  let e := GPUEffect_new (F:=R) EmptyString COLOR None in
  let r := (addEffect (Some e) GPURenderer_new).2 in
  registry_wf r /\ chain_names_registered r.
Proof.
  intros e r.
  assert (Hwf : registry_wf r) by apply registry_wf_addEffect, registry_wf_new.
  split; [exact Hwf|].
  exact (proj2 (proj2 (proj2 (proj2 (registry_wf_preserved r Hwf))))).
Defined.

Lemma getEffectCount_names_witness :
  let e := GPUEffect_new (F:=R) EmptyString COLOR None in
  let r := (addEffect (Some e) GPURenderer_new).2 in
  registry_wf r /\ getEffectCount r = length (getEffectNames r).
Proof.
  intros e r.
  assert (Hwf : registry_wf r) by apply registry_wf_addEffect, registry_wf_new.
  split; [exact Hwf|]. exact (getEffectCount_names r Hwf).
Defined.

Lemma addEffect_removeEffect_roundtrip_witness :
  let e := GPUEffect_new (F:=R) EmptyString COLOR None in
  registry_wf (GPURenderer_new (F:=R)) /\
  (addEffect (Some e) GPURenderer_new).1 = true /\
  removeEffect (getName e) (addEffect (Some e) GPURenderer_new).2 = (true, GPURenderer_new).
Proof.
  intros e. split; [apply registry_wf_new|]. split; [reflexivity|].
  exact (addEffect_removeEffect_roundtrip e GPURenderer_new registry_wf_new eq_refl).
Defined.

Lemma removeEffect_spec_witness :
  let e := GPUEffect_new (F:=R) EmptyString COLOR None in
  let r := (addEffect (Some e) GPURenderer_new).2 in
  registry_wf r /\
  removeEffect "Glow" r = (false, r) /\
  hasEffect (removeEffect EmptyString r).2 EmptyString = false.
Proof.
  intros e r.
  assert (Hwf : registry_wf r) by apply registry_wf_addEffect, registry_wf_new.
  split; [exact Hwf|].
  destruct (removeEffect_spec r "Glow" Hwf) as [Hmissing _].
  destruct (removeEffect_spec r EmptyString Hwf) as [_ Hpresent].
  split; [exact (Hmissing eq_refl)|].
  exact (proj1 (proj2 (Hpresent (ex_intro _ e eq_refl)))).
Defined.

Lemma GPUBridge_removeEffect_disables_witness :
  let fx := GPUEffect_new (F:=R) "fx" COLOR (Some (ShaderProgram_linked 1)) in
  let r := GPURenderer_with context_initialized 64 64 [("fx", fx)] in
  let b := (storeRenderer r GPUBridge_new).2 in
  getRenderer b 1000 = Some r /\ getEffect r "fx" = Some fx /\
  exists b' r',
    GPUBridge_removeEffect 1000 "fx" b = (true, b') /\
    getRenderer b' 1000 = Some r' /\
    hasEffect r' "fx" = true /\ getEffect r' "fx" = Some (setEnabled false fx).
Proof.
  intros fx r b.
  assert (Hget : getRenderer b 1000 = Some r) by reflexivity.
  assert (Hfx : getEffect r "fx" = Some fx) by reflexivity.
  split; [exact Hget|]. split; [exact Hfx|].
  destruct (GPUBridge_removeEffect_disables b 1000 r "fx" fx Hget Hfx)
    as (b' & r' & H1 & H2 & H3 & H4 & _).
  exists b', r'. split; [exact H1|]. split; [exact H2|]. split; [exact H3|exact H4].
Defined.

Lemma GPUBridge_clearEffects_disables_witness :
  let broken := GPUEffect_new (F:=R) "broken" COLOR None in
  let fx := GPUEffect_new (F:=R) "fx" COLOR (Some (ShaderProgram_linked 1)) in
  let r := GPURenderer_with context_initialized 64 64 [("broken", broken); ("fx", fx)] in
  let b := (storeRenderer r GPUBridge_new).2 in
  getRenderer b 1000 = Some r /\ chain_names_registered r /\
  exists r',
    getRenderer (GPUBridge_clearEffects 1000 b) 1000 = Some r' /\
    getEffectNames r' = ["broken"; "fx"] /\
    applyEffectChain r' 7 (world_of gl_fresh_context) = Some (7%N, r', world_of gl_fresh_context).
Proof.
  intros broken fx r b.
  assert (Hget : getRenderer b 1000 = Some r) by reflexivity.
  assert (Hreg : chain_names_registered r).
  { intros name Hin. cbn [r GPURenderer_with m_effectOrder fmap list_fmap fst] in Hin.
    apply elem_of_cons in Hin as [->|Hin]; [by eexists|].
    apply elem_of_cons in Hin as [->|Hin]; [by eexists|].
    by apply elem_of_nil in Hin. }
  split; [exact Hget|]. split; [exact Hreg|].
  destruct (GPUBridge_clearEffects_disables b 1000 r Hget Hreg)
    as (r' & H1 & H2 & _ & _ & H5).
  exists r'. split; [exact H1|]. split; [exact H2|]. apply H5.
Defined.

Lemma storeRenderer_getRenderer_witness :
  let r := GPURenderer_new (F:=R) in
  bridge_wf (GPUBridge_new (F:=R)) /\
  g_nextRendererPtr (GPUBridge_new (F:=R)) < 2 ^ 63 - 1 /\
  (storeRenderer r GPUBridge_new).1 = 1000 /\
  getRenderer (storeRenderer r GPUBridge_new).2 1000 = Some r.
Proof.
  intros r.
  assert (Hwf : bridge_wf (GPUBridge_new (F:=R))).
  { intros ptr [x Hx]. cbn [GPUBridge_new s_renderers] in Hx. by rewrite lookup_empty in Hx. }
  assert (Hb : g_nextRendererPtr (GPUBridge_new (F:=R)) < 2 ^ 63 - 1) by reflexivity.
  split; [exact Hwf|]. split; [exact Hb|]. split; [reflexivity|].
  exact (proj1 (proj2 (storeRenderer_getRenderer GPUBridge_new r Hwf Hb))).
Defined.

Lemma applyEffectChain_allocations_witness :
  let broken := GPUEffect_new (F:=R) "broken" COLOR None in
  let fx := GPUEffect_new (F:=R) "fx" COLOR (Some (ShaderProgram_linked 1)) in
  let r := GPURenderer_with context_initialized 64 64 [("broken", broken); ("fx", fx)] in
  let w := world_of (gl_with_program 1 (single_uniform_program "uIntensity")) in
  chain_names_registered r /\
  0 < renderWidth (m_config r) /\ 0 < renderHeight (m_config r) /\
  exists out r' w',
    applyEffectChain r 7 w = Some (out, r', w') /\
    length (m_intermediateFramebuffers r') = 2%nat /\
    size (gl_framebuffers (w_gl w')) = 1%nat.
Proof.
  intros broken fx r w.
  assert (Hreg : chain_names_registered r).
  { intros name Hin. cbn [r GPURenderer_with m_effectOrder fmap list_fmap fst] in Hin.
    apply elem_of_cons in Hin as [->|Hin]; [by eexists|].
    apply elem_of_cons in Hin as [->|Hin]; [by eexists|].
    by apply elem_of_nil in Hin. }
  split; [exact Hreg|]. split; [reflexivity|]. split; [reflexivity|].
  destruct (applyEffectChain_allocations r 7 w Hreg eq_refl eq_refl)
    as (out & r' & w' & Hrun & (new & Hnew & Hlen) & _ & Hsize).
  exists out, r', w'. split; [exact Hrun|]. split.
  - rewrite Hnew. cbn [r GPURenderer_with m_intermediateFramebuffers app]. exact Hlen.
  - exact Hsize.
Defined.

Lemma applyEffectChain_failed_stage_leaks_witness :
  let broken := GPUEffect_new (F:=R) "broken" COLOR None in
  let r := GPURenderer_with context_initialized 64 64 [("broken", broken)] in
  let w := world_of (gl_fresh_context (F:=R)) in
  m_effects r !! "broken" = Some broken /\
  isEnabled broken = true /\ isAvailable broken = false /\
  0 < renderWidth (m_config r) /\ 0 < renderHeight (m_config r) /\
  exists r1 w1,
    applyEffectChain_loop ["broken"] 7 r w = Some (7%N, r1, w1) /\
    gl_framebuffers (w_gl w1) = ∅ /\
    gl_textures (w_gl w1) = {[1%N := {| tex_size := Some (64, 64) |}]} /\
    m_intermediateFramebuffers r1 = [1%N].
Proof.
  intros broken r w.
  split; [reflexivity|]. split; [reflexivity|]. split; [reflexivity|].
  split; [reflexivity|]. split; [reflexivity|].
  destruct (applyEffectChain_failed_stage_leaks r w "broken" 7 broken
              eq_refl eq_refl eq_refl eq_refl eq_refl)
    as (r1 & w1 & H1 & H2 & H3 & _ & _ & _ & H7 & _).
  exists r1, w1. split; [exact H1|]. split; [exact H2|]. split; [exact H3|exact H7].
Defined.

Lemma applyEffect_spec_witness :
  let broken := GPUEffect_new (F:=R) "broken" COLOR None in
  let r := GPURenderer_with context_initialized 64 64 [("broken", broken)] in
  let w := world_of (gl_fresh_context (F:=R)) in
  getEffect r "broken" = Some broken /\
  exists r' w',
    applyEffect r 7 "broken" 0 w = Some (false, r', w') /\
    m_intermediateFramebuffers r' = [1%N] /\
    is_Some (gl_framebuffers (w_gl w') !! 1%N).
Proof.
  intros broken r w. split; [reflexivity|].
  destruct (proj2 (applyEffect_spec r 7 "broken" w broken eq_refl)
              context_initialized eq_refl eq_refl eq_refl eq_refl eq_refl)
    as (r' & w' & H1 & H2 & _ & H4 & _).
  exists r', w'. split; [exact H1|]. split; [exact H2|exact H4].
Defined.

Lemma framebuffer_failure_leaves_context_current_witness :
  let r := GPURenderer_with (F:=R) context_initialized 0 0 [] in
  let w := world_of (gl_fresh_context (F:=R)) in
  m_context r = Some context_initialized /\ isInitialized r = true /\
  (makeCurrent context_initialized w).1 = true /\
  (renderWidth (m_config r) <= 0 \/ renderHeight (m_config r) <= 0) /\
  exists w', renderToTexture r 7 w = Some (0%N, r, w') /\ w_current w' = (1%N, 1%N).
Proof.
  intros r w.
  assert (Hbad : renderWidth (m_config r) <= 0 \/ renderHeight (m_config r) <= 0)
    by (left; reflexivity).
  split; [reflexivity|]. split; [reflexivity|]. split; [reflexivity|].
  split; [exact Hbad|].
  destruct (proj1 (framebuffer_failure_leaves_context_current r 7 EmptyString w
                     context_initialized eq_refl eq_refl eq_refl Hbad))
    as (w' & H1 & H2 & _).
  exists w'. split; [exact H1|exact H2].
Defined.

Lemma setParameter_in_range_witness :
  ltb_strict_order (F:=R) /\
  m_parameterDefinitions (HSLEffect_new (F:=R)) !! "hue"
    = Some {| ep_name := "hue"; ep_uniformName := "uHue"; ep_defaultValue := Q2R 0.5;
              ep_minValue := Q2R 0; ep_maxValue := Q2R 1; ep_type := "float" |} /\
  (f_ltb (Q2R 1) (Q2R 0) = false ->
   f_ltb (getParameter (setParameter "hue" 2%R HSLEffect_new).2 "hue") (Q2R 0) = false /\
   f_ltb (Q2R 1) (getParameter (setParameter "hue" 2%R HSLEffect_new).2 "hue") = false).
Proof.
  split; [exact Rltb_strict_order|]. split; [reflexivity|].
  intros Hle.
  destruct (setParameter_in_range HSLEffect_new "hue" _ 2%R Rltb_strict_order eq_refl)
    as [Hin _].
  destruct (Hin Hle) as (H1 & H2 & _). split; [exact H1|exact H2].
Defined.

Lemma setIntensity_in_range_witness :
  ltb_strict_order (F:=R) /\ f_ltb (f_lit (F:=R) 1) (f_lit 0) = false /\
  f_ltb (getIntensity (setIntensity 3%R (HSLEffect_new (F:=R)))) (f_lit 0) = false /\
  f_ltb (f_lit 1) (getIntensity (setIntensity 3%R (HSLEffect_new (F:=R)))) = false.
Proof.
  split; [exact Rltb_strict_order|]. split; [exact Rltb_one_zero|].
  destruct (setIntensity_in_range HSLEffect_new 3%R Rltb_strict_order Rltb_one_zero)
    as (H1 & H2 & _).
  split; [exact H1|exact H2].
Defined.

Lemma concrete_effects_never_render_witness :
  let calls := [CallSetHue 90%R; CallSetEnabled true; CallApply 7 0 64 64] in
  let w := world_of (gl_fresh_context (F:=R)) in
  HSLEffect_new (F:=R) ∈ concrete_effects /\
  isAvailable (call_effects calls (HSLEffect_new, w)).1 = false /\
  w_gl (call_effects calls (HSLEffect_new, w)).2 = w_gl w.
Proof.
  intros calls w.
  assert (Hin : HSLEffect_new (F:=R) ∈ concrete_effects).
  { unfold concrete_effects. apply elem_of_cons. right. apply elem_of_cons. right.
    apply elem_of_cons. by left. }
  split; [exact Hin|].
  destruct (concrete_effects_never_render HSLEffect_new calls w Hin) as (H1 & H2 & _).
  split; [exact H1|exact H2].
Defined.

Lemma intensity_parameter_not_drawn_witness :
  let e := set_shader (Some (ShaderProgram_linked 1)) (VignetteEffect_new (F:=R)) in
  let w := world_of (gl_with_program 1 (single_uniform_program "uIntensity")) in
  isAvailable e = true /\ m_enabled e = true /\
  framebuffer_status (w_gl w) 0 = GL_FRAMEBUFFER_COMPLETE /\
  shader_linked (w_gl w) e 1 /\
  gl_programs (w_gl w) !! 1%N = Some (single_uniform_program "uIntensity") /\
  prog_locations (single_uniform_program (F:=R) "uIntensity") !! "uIntensity" = Some 0 /\
  exists d,
    gl_events (w_gl (apply (setParameter "intensity" 0%R e).2 7 0 64 64 w).2)
    = EvDraw d :: gl_events (w_gl w) /\
    dc_uniforms d !! 0 = Some (U1f (m_intensity e)).
Proof.
  intros e w.
  assert (Hlink : shader_linked (w_gl w) e 1) by (by apply shader_linked_single).
  assert (Hpr : gl_programs (w_gl w) !! 1%N = Some (single_uniform_program "uIntensity"))
    by apply lookup_singleton_eq.
  assert (Hloc : prog_locations (single_uniform_program (F:=R) "uIntensity") !! "uIntensity"
                 = Some 0) by apply lookup_singleton_eq.
  split; [reflexivity|]. split; [reflexivity|]. split; [reflexivity|].
  split; [exact Hlink|]. split; [exact Hpr|]. split; [exact Hloc|].
  exact (proj2 (proj2 (proj2 (intensity_parameter_not_drawn e 0%R 7 0 64 64 w 1 _ 0
                                eq_refl eq_refl eq_refl Hlink Hpr Hloc)))).
Defined.


Lemma setUniform_missing_uniform_witness :
  let sp := ShaderProgram_linked 1 in
  let gl := gl_with_program (F:=R) 1 (single_uniform_program "uIntensity") in
  cache_sound gl sp /\
  glGetUniformLocation gl (m_programId sp) "uRadius" = -1 /\
  (setUniform sp "uRadius" (U1f 5%R) gl).2 = gl.
Proof.
  intros sp gl.
  assert (Hcs : cache_sound gl sp).
  { intros n l Hl. cbn [sp ShaderProgram_linked m_uniformLocations] in Hl.
    by rewrite lookup_empty in Hl. }
  split; [exact Hcs|]. split; [reflexivity|].
  exact (proj1 (setUniform_missing_uniform sp gl "uRadius" (U1f 5%R) Hcs eq_refl)).
Defined.

Lemma getNextTextureUnit_cycle_witness :
  0 <= 14 < MAX_TEXTURE_UNITS /\
  (getNextTextureUnit_calls 3 14).2 = (14 + 3) mod MAX_TEXTURE_UNITS /\
  (getNextTextureUnit_calls 16 14).2 = 14.
Proof.
  assert (Hm : 0 <= 14 < MAX_TEXTURE_UNITS) by (unfold MAX_TEXTURE_UNITS; lia).
  split; [exact Hm|].
  destruct (getNextTextureUnit_cycle 14 3 Hm) as (_ & H2 & _ & _ & H5 & _).
  split; [exact H2|exact H5].
Defined.


Lemma createFramebuffer_deleteFramebuffer_witness :
  let gl := gl_fresh_context (F:=R) in
  0 < 64 /\
  gl_framebuffers (deleteFramebuffer (createFramebuffer 64 64 GL_RGBA gl).1
                                     (createFramebuffer 64 64 GL_RGBA gl).2)
  = gl_framebuffers gl /\
  size (gl_textures (deleteFramebuffer (createFramebuffer 64 64 GL_RGBA gl).1
                                       (createFramebuffer 64 64 GL_RGBA gl).2))
  = S (size (gl_textures gl)).
Proof.
  intros gl. split; [lia|].
  destruct (createFramebuffer_deleteFramebuffer gl 64 64 GL_RGBA eq_refl eq_refl)
    as (H1 & _ & _ & H4 & _).
  split; [exact H1|exact H4].
Defined.

Lemma ctx_shutdown_spec_witness :
  let r := GPURenderer_with (F:=R) (ctx_shutdown context_initialized) 64 64 [] in
  let w := world_of (gl_fresh_context (F:=R)) in
  m_context r = Some (ctx_shutdown context_initialized) /\
  renderFrame r 7 0 w = Some (false, r, w) /\
  renderToTexture r 7 w = Some (0%N, r, w).
Proof.
  intros r w. split; [reflexivity|].
  destruct (ctx_shutdown_spec context_initialized r w 7 0 eq_refl)
    as (_ & _ & _ & _ & H5 & H6).
  split; [exact H5|exact H6].
Defined.
